(** * A verification model of the multitask RNN code

    The development embeds the functions of [network_torch.py] (the two
    population vector read-outs, [get_perf], the three recurrent cells,
    construction and lesioning of [Model]) and [f_sub_mean] of
    [statespace.py].

    Conventions of the embedding:
    - a tensor or numpy array is a shape together with a total function from
      multi-indices to entries; only the entries at in-range indices matter;
    - floating-point entries are exact real numbers, so rounding is not part
      of the model; a division by zero does not produce a real number and
      yields the value [NonFin], which stands for IEEE [nan] and [inf];
    - Python exceptions are values of type [exn]; a computation that may
      raise has type [res A];
    - random draws are read from an explicit sample argument. *)

From Stdlib Require Import Reals Qreals Lra Lia QArith ZArith String List.
From stdpp Require Import base option list gmap strings pretty.

Local Open Scope R_scope.

(** ** Exceptions *)

Inductive exn : Type :=
| ValueError (msg : string)
| NotImplementedError (msg : string)
| KeyError (key : string)
| NameError (name : string)
| UnboundLocalError (name : string)
| AttributeError (attr : string)
| TypeError
| ZeroDivisionError
| IndexError
| RuntimeError
| AssertionError.

Definition res (A : Type) : Type := (exn + A)%type.

Definition ret {A : Type} (a : A) : res A := inr a.
Definition raise {A : Type} (e : exn) : res A := inl e.
Definition bind {A B : Type} (m : res A) (k : A -> res B) : res B :=
  match m with
  | inl e => inl e
  | inr a => k a
  end.

Notation "'do' x <- m ; k" := (bind m (fun x => k))
  (at level 10, x name, m at level 100, k at level 200).
Notation "'do' ' p <- m ; k" := (bind m (fun x => match x with p => k end))
  (at level 10, p pattern, m at level 100, k at level 200).

(** ** Tensors *)

Record tensor (A : Type) : Type := Tensor {
  shape : list nat;
  val : list nat -> A
}.
Arguments Tensor {A} _ _.
Arguments shape {A} _.
Arguments val {A} _ _.

(** [in_range s idx]: the multi-index [idx] addresses an entry of a tensor
    of shape [s]. *)
Definition in_range (s idx : list nat) : Prop := Forall2 lt idx s.

Definition ndim {A : Type} (t : tensor A) : nat := length (shape t).

Definition tmap {A B : Type} (f : A -> B) (t : tensor A) : tensor B :=
  Tensor (shape t) (fun idx => f (val t idx)).

(** Broadcasting of two shapes, aligned at the last axis. *)
Fixpoint bshape_rev (a b : list nat) : option (list nat) :=
  match a, b with
  | [], _ => Some b
  | _, [] => Some a
  | x :: a', y :: b' =>
      match bshape_rev a' b' with
      | None => None
      | Some r =>
          if (x =? y)%nat then Some (x :: r)
          else if (x =? 1)%nat then Some (y :: r)
          else if (y =? 1)%nat then Some (x :: r)
          else None
      end
  end.

Definition broadcast_shapes (a b : list nat) : option (list nat) :=
  match bshape_rev (rev a) (rev b) with
  | None => None
  | Some r => Some (rev r)
  end.

(** The index of the operand of shape [s] that feeds entry [idx] of the
    broadcast result. *)
Definition bindex (s idx : list nat) : list nat :=
  zip_with (fun n i => if (n =? 1)%nat then 0%nat else i) s
           (drop (length idx - length s) idx).
Arguments bindex : simpl never.

Definition broadcast2 {A B C : Type} (err : exn) (f : A -> B -> C)
    (a : tensor A) (b : tensor B) : res (tensor C) :=
  match broadcast_shapes (shape a) (shape b) with
  | None => raise err
  | Some s =>
      ret (Tensor s (fun idx => f (val a (bindex (shape a) idx))
                                  (val b (bindex (shape b) idx))))
  end.

(** Finite sums [f 0 + ... + f (n-1)]. *)
Fixpoint Rsum (n : nat) (f : nat -> R) : R :=
  match n with
  | O => 0
  | S k => Rsum k f + f k
  end.

(** [t.shape[-1]] *)
Definition shape_last {A : Type} (t : tensor A) : res nat :=
  match shape t with
  | [] => raise IndexError
  | _ :: _ => ret (List.last (shape t) 0%nat)
  end.

(** Reduction over the last axis: [np.sum(t, axis=-1)]. *)
Definition sum_last (t : tensor R) : tensor R :=
  Tensor (removelast (shape t))
         (fun idx => Rsum (List.last (shape t) 0%nat) (fun j => val t (idx ++ [j]))).

(** [torch.sum(t, dim=-1, keepdim=True)] *)
Definition sum_last_keepdim (t : tensor R) : tensor R :=
  Tensor (removelast (shape t) ++ [1%nat])
         (fun idx => Rsum (List.last (shape t) 0%nat)
                          (fun j => val t (removelast idx ++ [j]))).

(** ** Scalars that need not be finite *)

Inductive fval : Type :=
| Fin (r : R)
| NonFin.

(** Array division: a zero divisor gives no real number. *)
Definition fdiv (a b : R) : fval :=
  if Req_EM_T b 0 then NonFin else Fin (a / b).

(** Python's [/] on floats raises instead. *)
Definition py_div (a b : R) : res R :=
  if Req_EM_T b 0 then raise ZeroDivisionError else ret (a / b).

(** The two-argument arctangent, with values in (-PI, PI]. *)
Definition atan2 (y x : R) : R :=
  if Rlt_dec 0 x then atan (y / x)
  else if Rlt_dec x 0 then
         (if Rle_dec 0 y then atan (y / x) + PI else atan (y / x) - PI)
  else if Rlt_dec 0 y then PI / 2
  else if Rlt_dec y 0 then - (PI / 2)
  else 0.

Definition f_atan2 (y x : fval) : fval :=
  match y, x with
  | Fin a, Fin b => Fin (atan2 a b)
  | _, _ => NonFin
  end.

(** [np.mod]: the remainder has the sign of the divisor (floored division). *)
Definition floor_mod (a m : R) : R := a - IZR (Zfloor (a / m)) * m.

(** [torch.fmod]: the remainder has the sign of the dividend (truncated
    division). *)
Definition Ztrunc (x : R) : Z := if Rle_dec 0 x then Zfloor x else Zceil x.
Definition trunc_mod (a m : R) : R := a - IZR (Ztrunc (a / m)) * m.

Definition f_lift (f : R -> R) (a : fval) : fval :=
  match a with
  | Fin r => Fin (f r)
  | NonFin => NonFin
  end.

(** [arange(start, stop, step)] for a positive step: entries
    [start + j * step] for [j] below [ceil ((stop - start) / step)]. *)
Definition arange (start stop step : R) : tensor R :=
  Tensor [Z.to_nat (Zceil ((stop - start) / step))]
         (fun idx => start + INR (hd 0%nat idx) * step).

(** ** Population vector read-out *)

Module Popvec.

Definition popvec (y : tensor R) : res (tensor fval) :=
  do units <- shape_last y;
  do step <- py_div (2 * PI) (INR units);
  let pref := arange 0 (2 * PI) step in
  let temp_sum := sum_last y in
  do ycos <- broadcast2 (ValueError "operands could not be broadcast together")
               Rmult y (tmap cos pref);
  do temp_cos <- broadcast2 (ValueError "operands could not be broadcast together")
               fdiv (sum_last ycos) temp_sum;
  do ysin <- broadcast2 (ValueError "operands could not be broadcast together")
               Rmult y (tmap sin pref);
  do temp_sin <- broadcast2 (ValueError "operands could not be broadcast together")
               fdiv (sum_last ysin) temp_sum;
  do loc <- broadcast2 (ValueError "operands could not be broadcast together")
               f_atan2 temp_sin temp_cos;
  ret (tmap (f_lift (fun a => floor_mod a (2 * PI))) loc).

Definition torch_popvec (y : tensor R) : res (tensor fval) :=
  do num_units <- shape_last y;
  do step <- py_div (2 * PI) (INR num_units);
  let pref := arange 0 (2 * PI) step in
  let cos_pref := tmap cos pref in
  let sin_pref := tmap sin pref in
  let temp_sum := sum_last_keepdim y in
  do ycos <- broadcast2 RuntimeError Rmult y cos_pref;
  do temp_cos <- broadcast2 RuntimeError fdiv (sum_last_keepdim ycos) temp_sum;
  do ysin <- broadcast2 RuntimeError Rmult y sin_pref;
  do temp_sin <- broadcast2 RuntimeError fdiv (sum_last_keepdim ysin) temp_sum;
  do loc <- broadcast2 RuntimeError f_atan2 temp_sin temp_cos;
  ret (tmap (f_lift (fun a => trunc_mod a (2 * PI))) loc).

End Popvec.


(** ** Performance of a read-out: [get_perf] *)

(** [t[-1]]: the last entry along the first axis. *)
Definition index_last {A : Type} (t : tensor A) : res (tensor A) :=
  match shape t with
  | [] => raise IndexError
  | O :: _ => raise IndexError
  | S n :: s => ret (Tensor s (fun idx => val t (n :: idx)))
  end.

(** [t[..., 0]] *)
Definition select_first_of_last {A : Type} (t : tensor A) : res (tensor A) :=
  match shape t with
  | [] => raise IndexError
  | _ :: _ =>
      if (List.last (shape t) 0 =? 0)%nat then raise IndexError
      else ret (Tensor (removelast (shape t)) (fun idx => val t (idx ++ [0%nat])))
  end.

(** [t[..., 1:]] *)
Definition slice_last_from_1 {A : Type} (t : tensor A) : res (tensor A) :=
  match shape t with
  | [] => raise IndexError
  | _ :: _ =>
      ret (Tensor (removelast (shape t) ++ [(List.last (shape t) 0 - 1)%nat])
                  (fun idx => val t (removelast idx ++ [S (List.last idx 0%nat)])))
  end.

Definition Rgtb (a b : R) : bool := if Rlt_dec b a then true else false.
Definition Rltb (a b : R) : bool := if Rlt_dec a b then true else false.

(** [a < c] on an entry that need not be finite: a comparison with [nan]
    is false. *)
Definition fval_ltb (a : fval) (c : R) : bool :=
  match a with
  | Fin r => Rltb r c
  | NonFin => false
  end.

(** [get_perf(y_hat, y_loc)] on arrays of floats.  Products and sums of
    boolean arrays: [bool * bool] is the conjunction, [1 - bool] and every
    operation with an integer array give integers. *)
Definition get_perf (y_hat y_loc : tensor R) : res (tensor Z) :=
  let err := ValueError "operands could not be broadcast together" in
  if negb (length (shape y_hat) =? 3)%nat
  then raise (ValueError "y_hat must have shape (Time, Batch, Unit)")
  else
    do y_loc <- index_last y_loc;
    do y_hat <- index_last y_hat;
    do y_hat_fix <- select_first_of_last y_hat;
    do ring <- slice_last_from_1 y_hat;
    do y_hat_loc <- Popvec.popvec ring;
    let fixating := tmap (fun v => Rgtb v (1 / 2)) y_hat_fix in
    do original_dist <- broadcast2 err (fun a l => f_lift (fun v => a - v) l)
                          y_loc y_hat_loc;
    let dist := tmap (f_lift (fun d => Rmin (Rabs d) (2 * PI - Rabs d)))
                     original_dist in
    let corr_loc := tmap (fun d => fval_ltb d (1 / 5 * PI)) dist in
    let should_fix := tmap (fun v => Rltb v 0) y_loc in
    do fix_ok <- broadcast2 err andb should_fix fixating;
    do go <- broadcast2 err (fun s c => ((1 - Z.b2z s) * Z.b2z c)%Z)
               should_fix corr_loc;
    do go_ok <- broadcast2 err (fun g f => (g * (1 - Z.b2z f))%Z) go fixating;
    do perf <- broadcast2 err (fun a b => (Z.b2z a + b)%Z) fix_ok go_ok;
    ret perf.

(** ** Hyperparameters *)

Inductive hpval : Type :=
| HInt (z : Z)
| HFloat (q : Q)
| HBool (b : bool)
| HStr (s : string).

Abbreviation hparams := (gmap string hpval).

(** [hp[k]] *)
Definition getitem (hp : hparams) (k : string) : res hpval :=
  match hp !! k with
  | Some v => ret v
  | None => raise (KeyError k)
  end.

(** [k in hp] *)
Definition has_key (hp : hparams) (k : string) : bool :=
  match hp !! k with
  | Some _ => true
  | None => false
  end.

(** Truth value of a hyperparameter. *)
Definition truthy (v : hpval) : bool :=
  match v with
  | HInt z => negb (z =? 0)%Z
  | HFloat q => negb (Qeq_bool q 0)
  | HBool b => b
  | HStr s => negb (String.eqb s "")
  end.

(** [v == s] for a string literal [s]. *)
Definition is_str (v : hpval) (s : string) : bool :=
  match v with
  | HStr t => String.eqb t s
  | _ => false
  end.

(** A hyperparameter of the wrong type raises [TypeError] where it is
    read; the other exceptions Python has for ill-typed values are not
    distinguished. *)
Definition as_num (v : hpval) : res Q :=
  match v with
  | HInt z => ret (inject_Z z)
  | HFloat q => ret q
  | HBool b => ret (if b then 1%Q else 0%Q)
  | HStr _ => raise TypeError
  end.

Definition as_int (v : hpval) : res Z :=
  match v with
  | HInt z => ret z
  | HBool b => ret (if b then 1%Z else 0%Z)
  | _ => raise TypeError
  end.

Definition as_str (v : hpval) : res string :=
  match v with
  | HStr s => ret s
  | _ => raise TypeError
  end.

Definition get_num (hp : hparams) (k : string) : res Q :=
  do v <- getitem hp k; as_num v.
Definition get_int (hp : hparams) (k : string) : res Z :=
  do v <- getitem hp k; as_int v.
Definition get_str (hp : hparams) (k : string) : res string :=
  do v <- getitem hp k; as_str v.

Definition Qpos_bool (q : Q) : bool := negb (Qle_bool q 0).

(** [sub in s] on strings. *)
Definition contains (sub s : string) : bool :=
  match String.index 0 sub s with
  | Some _ => true
  | None => false
  end.

Definition is_weight (name : string) : bool := contains "weight" name.


(** ** Tensor operations used by the recurrent cells *)

(** [t.squeeze(0)]: drops the first axis when it has size one. *)
Definition squeeze0 {A : Type} (t : tensor A) : tensor A :=
  match shape t with
  | 1%nat :: s => Tensor s (fun idx => val t (0%nat :: idx))
  | _ => t
  end.

(** Removes axis [d], which has size one. *)
Definition drop_axis {A : Type} (d : nat) (t : tensor A) : tensor A :=
  Tensor (take d (shape t) ++ drop (S d) (shape t))
         (fun idx => val t (take d idx ++ 0%nat :: drop d idx)).

Definition list_nat_eqb (a b : list nat) : bool := bool_decide (a = b).

(** Concatenation along axis [d] of two arrays of the same rank whose other
    axes agree; [err] is raised otherwise. *)
Definition concat_axis {A : Type} (err : exn) (d : nat) (a b : tensor A) :
    res (tensor A) :=
  match shape a !! d, shape b !! d with
  | Some na, Some nb =>
      if list_nat_eqb (<[d := 0%nat]> (shape a)) (<[d := 0%nat]> (shape b))
      then ret (Tensor (<[d := (na + nb)%nat]> (shape a))
                       (fun idx =>
                          match idx !! d with
                          | Some i => if (i <? na)%nat then val a idx
                                      else val b (<[d := (i - na)%nat]> idx)
                          | None => val a idx
                          end))
      else raise err
  | _, _ => raise err
  end.

(** [np.concatenate((a, b), axis=d)] *)
Definition np_concatenate {A : Type} (d : nat) (a b : tensor A) : res (tensor A) :=
  concat_axis (ValueError "all the input array dimensions except for the concatenation axis must match exactly")
              d a b.

(** [torch.cat((a, b), dim=d)]: zero-dimensional tensors are refused and a
    one-dimensional empty tensor is skipped. *)
Definition cat {A : Type} (d : nat) (a b : tensor A) : res (tensor A) :=
  match shape a, shape b with
  | [], _ | _, [] => raise RuntimeError
  | sa, sb =>
      if (length sa =? length sb)%nat then
        (if (d <? length sa)%nat then concat_axis RuntimeError d a b
         else raise IndexError)
      else if list_nat_eqb sa [0%nat] then
             (if (d <? length sb)%nat then ret b else raise IndexError)
      else if list_nat_eqb sb [0%nat] then
             (if (d <? length sa)%nat then ret a else raise IndexError)
      else raise RuntimeError
  end.

(** Matrix product of two tensors with at least two axes each; leading axes
    are broadcast. *)
Definition matmul_core (a b : tensor R) : res (tensor R) :=
  let ra := length (shape a) in
  let rb := length (shape b) in
  let ba := take (ra - 2) (shape a) in
  let bb := take (rb - 2) (shape b) in
  let n := nth (ra - 2) (shape a) 0%nat in
  let k := nth (ra - 1) (shape a) 0%nat in
  let k' := nth (rb - 2) (shape b) 0%nat in
  let m := nth (rb - 1) (shape b) 0%nat in
  if (k =? k')%nat then
    match broadcast_shapes ba bb with
    | None => raise RuntimeError
    | Some bs =>
        ret (Tensor (bs ++ [n; m])
                    (fun idx =>
                       let r := length idx in
                       let bi := take (r - 2) idx in
                       let i := nth (r - 2) idx 0%nat in
                       let j := nth (r - 1) idx 0%nat in
                       Rsum k (fun l => val a (bindex ba bi ++ [i; l]) *
                                        val b (bindex bb bi ++ [l; j]))))
    end
  else raise RuntimeError.

(** [torch.matmul(a, b)]: a one-dimensional left operand is a row, a
    one-dimensional right operand a column, and the added axis is removed
    from the product. *)
Definition matmul (a b : tensor R) : res (tensor R) :=
  match shape a, shape b with
  | [], _ | _, [] => raise RuntimeError
  | sa, sb =>
      let a' := if (length sa =? 1)%nat
                then Tensor (1%nat :: sa) (fun idx => val a (tl idx)) else a in
      let b' := if (length sb =? 1)%nat
                then Tensor (sb ++ [1%nat]) (fun idx => val b (removelast idx)) else b in
      do c <- matmul_core a' b';
      let c1 := if (length sb =? 1)%nat
                then drop_axis (length (shape c) - 1) c else c in
      let c2 := if (length sa =? 1)%nat
                then drop_axis (length (shape c1) - (if (length sb =? 1)%nat then 1 else 2)) c1
                else c1 in
      ret c2
  end.

(** [.T]: the axes in reverse order. *)
Definition transpose {A : Type} (t : tensor A) : tensor A :=
  Tensor (rev (shape t)) (fun idx => val t (rev idx)).

(** [np.eye(n)] *)
Definition eye (n : nat) : tensor R :=
  Tensor [n; n]
         (fun idx => match idx with
                     | [r; c] => if (r =? c)%nat then 1 else 0
                     | _ => 0
                     end).

Definition zeros (s : list nat) : tensor R := Tensor s (fun _ => 0).

(** ** Random sources *)

(** A numpy [RandomState]: the stream of standard normal arrays it will
    produce and the number of arrays drawn so far. *)
Record RandomState : Type := {
  stream : nat -> list nat -> R;
  drawn : nat
}.

Definition sizes (dims : list Z) : option (list nat) :=
  if forallb (fun z => (0 <=? z)%Z) dims then Some (map Z.to_nat dims) else None.

(** [rng.randn(d0, d1, ...)] *)
Definition randn (rng : RandomState) (dims : list Z) : res (tensor R * RandomState) :=
  match sizes dims with
  | None => raise (ValueError "negative dimensions are not allowed")
  | Some s =>
      ret (Tensor s (stream rng (drawn rng)),
           {| stream := stream rng; drawn := S (drawn rng) |})
  end.

(** The module [tools], when the name is bound. *)
Record tools_module : Type := {
  load_hp : string -> option hparams;
  gen_ortho_matrix : nat -> RandomState -> tensor R * RandomState
}.

(** ** Activation functions *)

(** [F.softplus] with its defaults [beta = 1], [threshold = 20]. *)
Definition softplus (x : R) : R := if Rlt_dec 20 x then x else ln (1 + exp x).
Definition relu (x : R) : R := Rmax 0 x.
Definition power (x : R) : R := relu x ^ 2.
Definition retanh (x : R) : R := tanh (relu x).

Definition Qdiv_py (a b : Q) : res Q :=
  if Qeq_bool b 0 then raise ZeroDivisionError else ret (a / b)%Q.

(** ** The leaky recurrent cell *)

Module LeakyRNNCell.

Record t : Type := {
  input_size : Z;
  hidden_size : Z;
  alpha : Q;
  sigma : R;
  activation : string;
  w_rec_init : string;
  act_fn : R -> R;
  _w_in_start : R;
  _w_rec_start : R;
  rng : RandomState;
  weight : tensor R;
  bias : tensor R
}.

(** The branch on the activation name: the function and the two start
    scales. *)
Definition select_activation (activation : string) : res ((R -> R) * R * R) :=
  if String.eqb activation "softplus" then ret (softplus, 1, 1 / 2)
  else if String.eqb activation "tanh" then ret (tanh, 1, 1)
  else if String.eqb activation "relu" then ret (relu, 1, 1 / 2)
  else if String.eqb activation "power" then ret (power, 1, 1 / 100)
  else if String.eqb activation "retanh" then ret (retanh, 1, 1 / 2)
  else raise (ValueError "Unknown activation").

(** [LeakyRNNCell.__init__]; [tools] is the binding of the global name
    [tools] in the module, if any, and [rng] the generator the cell draws
    from (with [rng=None] a fresh generator, that is, any stream). *)
Definition __init__ (tools : option tools_module)
    (input_size hidden_size : Z) (alpha sigma_rec : Q)
    (activation w_rec_init : string) (rng : RandomState) : res t :=
  do q <- Qdiv_py 2 alpha;
  let sigma := sqrt (Q2R q) * Q2R sigma_rec in
  do '(act_fn, w_in_start, w_rec_start) <- select_activation activation;
  do '(g, rng1) <- randn rng [input_size; hidden_size];
  let w_in0 := tmap (fun v => v / sqrt (IZR input_size) * w_in_start) g in
  let n := Z.to_nat hidden_size in
  do '(w_rec0, rng2) <-
    (if String.eqb w_rec_init "diag" then
       ret (tmap (fun v => w_rec_start * v) (eye n), rng1)
     else if String.eqb w_rec_init "randortho" then
       match tools with
       | None => raise (NameError "tools")
       | Some tl =>
           let '(m, r) := gen_ortho_matrix tl n rng1 in
           ret (tmap (fun v => w_rec_start * v) m, r)
       end
     else if String.eqb w_rec_init "randgauss" then
       do '(g2, r) <- randn rng1 [hidden_size; hidden_size];
       ret (tmap (fun v => w_rec_start * v / sqrt (IZR hidden_size)) g2, r)
     else raise (UnboundLocalError "w_rec0"));
  do matrix0 <- np_concatenate 0 w_in0 w_rec0;
  ret {| input_size := input_size;
         hidden_size := hidden_size;
         alpha := alpha;
         sigma := sigma;
         activation := activation;
         w_rec_init := w_rec_init;
         act_fn := act_fn;
         _w_in_start := w_in_start;
         _w_rec_start := w_rec_start;
         rng := rng2;
         weight := transpose matrix0;
         bias := zeros [n] |}.

(** [LeakyRNNCell.forward]; [draw] is the sample [torch.randn_like]
    returns. *)
Definition forward (c : t) (draw : list nat -> R) (inputs state : tensor R) :
    res (tensor R * tensor R) :=
  let state := squeeze0 state in
  let inputs := squeeze0 inputs in
  do xh <- (if (ndim inputs =? 2)%nat then cat 1 inputs state
            else cat 0 inputs state);
  do mult_out <- matmul xh (weight c);
  do gate_inputs <- broadcast2 RuntimeError Rplus mult_out (bias c);
  let noise := tmap (fun z => z * sigma c) (Tensor (shape state) draw) in
  do gate_inputs <- broadcast2 RuntimeError Rplus gate_inputs noise;
  let output := tmap (act_fn c) gate_inputs in
  do output <- broadcast2 RuntimeError Rplus
                 (tmap (fun v => (1 - Q2R (alpha c)) * v) state)
                 (tmap (fun v => Q2R (alpha c) * v) output);
  ret (output, output).

End LeakyRNNCell.

(** ** The other cells *)

(** The activation handed to the gated cells by [_build_fused]. *)
Inductive callable : Type :=
| CallPower
| CallRetanh
| CallReluPlus
| CallFunctional (name : string)
| CallTanh.

(** [torch.sigmoid] *)
Definition sigmoid (x : R) : R := 1 / (1 + exp (- x)).

(** An [nn.Linear] layer: a weight of shape (out, in) and a bias of shape
    (out,). *)
Record linear_layer : Type := {
  lin_weight : tensor R;
  lin_bias : tensor R
}.

(** The layer applied to [x]: [x @ weight.T + bias]. *)
Definition linear (l : linear_layer) (x : tensor R) : res (tensor R) :=
  do y <- matmul x (transpose (lin_weight l));
  broadcast2 RuntimeError Rplus y (lin_bias l).

(** [r, u = t.chunk(2, 1)]: two pieces along axis 1, the first of size
    [ceil (n / 2)]; an axis of size one gives a single piece, which cannot
    be unpacked into two names. *)
Definition chunk2_axis1 {A : Type} (t : tensor A) : res (tensor A * tensor A) :=
  match shape t with
  | [] => raise RuntimeError
  | [_] => raise IndexError
  | b :: n :: s =>
      if (n =? 1)%nat
      then raise (ValueError "not enough values to unpack (expected 2, got 1)")
      else
        let k := Nat.div2 (S n) in
        ret (Tensor (b :: k :: s) (val t),
             Tensor (b :: (n - k)%nat :: s)
                    (fun idx => match idx with
                                | i :: j :: rest => val t (i :: (j + k)%nat :: rest)
                                | _ => val t idx
                                end))
  end.

Module LeakyGRUCell.

Record t : Type := {
  input_size : Z;
  hidden_size : Z;
  alpha : Q;
  sigma : R;
  activation : callable
}.

Definition __init__ (input_size hidden_size : Z) (alpha sigma_rec : Q)
    (activation : option callable) : res t :=
  do q <- Qdiv_py 2 alpha;
  ret {| input_size := input_size;
         hidden_size := hidden_size;
         alpha := alpha;
         sigma := sqrt (Q2R q) * Q2R sigma_rec;
         activation := match activation with
                       | None => CallTanh
                       | Some f => f
                       end |}.

(** The two layers of the cell,
    [nn.Linear(input_size + hidden_size, 2 * hidden_size)] and
    [nn.Linear(input_size + hidden_size, hidden_size)]; the record [t]
    keeps the scalar attributes. *)
Record layers : Type := {
  gate_weights : linear_layer;
  candidate_weights : linear_layer
}.

(** The function an activation stands for; [F_elem] gives the elementwise
    functions of [torch.nn.functional] by name. *)
Definition denote (F_elem : string -> R -> R) (f : callable) : R -> R :=
  match f with
  | CallPower => fun x => relu x ^ 2
  | CallRetanh => fun x => tanh (relu x)
  | CallReluPlus => fun x => relu (x + 1)
  | CallFunctional name => F_elem name
  | CallTanh => tanh
  end.

(** [LeakyGRUCell.forward]; [draw] is the sample [torch.randn_like]
    returns. *)
Definition forward (c : t) (l : layers) (F_elem : string -> R -> R)
    (draw : list nat -> R) (inputs state : tensor R) : res (tensor R * tensor R) :=
  let state := squeeze0 state in
  let inputs := squeeze0 inputs in
  do gate_inputs <- (if (ndim inputs =? 2)%nat then cat 1 inputs state
                     else cat 0 inputs state);
  do gates <- linear (gate_weights l) gate_inputs;
  let gates := tmap sigmoid gates in
  do '(r, u) <- chunk2_axis1 gates;
  do r_state <- broadcast2 RuntimeError Rmult r state;
  do cand_inputs <- cat 1 inputs r_state;
  do candidate <- linear (candidate_weights l) cand_inputs;
  let candidate := tmap (denote F_elem (activation c)) candidate in
  let noise := tmap (fun z => z * sigma c) (Tensor (shape state) draw) in
  do candidate <- broadcast2 RuntimeError Rplus candidate noise;
  do keep <- broadcast2 RuntimeError Rmult
               (tmap (fun v => 1 - Q2R (alpha c) * v) u) state;
  do move <- broadcast2 RuntimeError Rmult
               (tmap (fun v => Q2R (alpha c) * v) u) candidate;
  do new_h <- broadcast2 RuntimeError Rplus keep move;
  ret (new_h, new_h).

End LeakyGRUCell.

Module LeakyRNNCellSeparateInput.

Record t : Type := {
  hidden_size : Z;
  alpha : Q;
  sigma : R;
  activation : string;
  w_rec_init : string;
  act_fn : R -> R;
  _w_rec_start : R;
  rng : RandomState;
  weight : tensor R;
  bias : tensor R
}.

Definition __init__ (tools : option tools_module) (hidden_size : Z)
    (alpha sigma_rec : Q) (activation w_rec_init : string)
    (rng : RandomState) : res t :=
  do q <- Qdiv_py 2 alpha;
  do '(act_fn, w_rec_start) <-
    (if String.eqb activation "softplus" then ret (softplus, 1 / 2)
     else if String.eqb activation "relu" then ret (relu, 1 / 2)
     else raise (ValueError "Unknown activation"));
  do '(w_rec0, rng1) <-
    (if String.eqb w_rec_init "diag" then
       match sizes [hidden_size] with
       | None => raise (ValueError "negative dimensions are not allowed")
       | Some _ => ret (tmap (fun v => w_rec_start * v) (eye (Z.to_nat hidden_size)), rng)
       end
     else if String.eqb w_rec_init "randortho" then
       match tools with
       | None => raise (NameError "tools")
       | Some tl =>
           let '(m, r) := gen_ortho_matrix tl (Z.to_nat hidden_size) rng in
           ret (tmap (fun v => w_rec_start * v) m, r)
       end
     else if String.eqb w_rec_init "randgauss" then
       do '(g, r) <- randn rng [hidden_size; hidden_size];
       ret (tmap (fun v => w_rec_start * v / sqrt (IZR hidden_size)) g, r)
     else raise (ValueError ""));
  ret {| hidden_size := hidden_size;
         alpha := alpha;
         sigma := sqrt (Q2R q) * Q2R sigma_rec;
         activation := activation;
         w_rec_init := w_rec_init;
         act_fn := act_fn;
         _w_rec_start := w_rec_start;
         rng := rng1;
         weight := transpose w_rec0;
         bias := zeros [Z.to_nat hidden_size] |}.

(** [LeakyRNNCellSeparateInput.forward]: both branches on the rank of the
    inputs compute the same product. *)
Definition forward (c : t) (draw : list nat -> R) (inputs state : tensor R) :
    res (tensor R * tensor R) :=
  let state := squeeze0 state in
  let inputs := squeeze0 inputs in
  do mult_out <- (if (ndim inputs =? 2)%nat then matmul state (weight c)
                  else matmul state (weight c));
  do gate_inputs <- broadcast2 RuntimeError Rplus mult_out inputs;
  do gate_inputs <- broadcast2 RuntimeError Rplus gate_inputs (bias c);
  let noise := tmap (fun z => z * sigma c) (Tensor (shape state) draw) in
  do gate_inputs <- broadcast2 RuntimeError Rplus gate_inputs noise;
  let output := tmap (act_fn c) gate_inputs in
  do output <- broadcast2 RuntimeError Rplus
                 (tmap (fun v => (1 - Q2R (alpha c)) * v) state)
                 (tmap (fun v => Q2R (alpha c) * v) output);
  ret (output, output).

End LeakyRNNCellSeparateInput.

(** ** The network *)

(** What the module [network_torch] sees of the outside: the binding of the
    global name [tools] (the import list of the file binds [os], [np],
    [pickle], [torch], [nn], [F] and [Parameter] only), the attribute names
    of [torch.nn.functional], the normal streams of seeded numpy generators
    and the initial values the library layers give their parameters. *)
Record module_env : Type := {
  env_tools : option tools_module;
  env_F_attr : string -> bool;
  env_seeded : Z -> nat -> list nat -> R;
  env_param_init : string -> list nat -> R
}.

(** The names bound by the imports of [network_torch.py]: [tools] is not
    among them. *)
Definition network_torch_env (F_attr : string -> bool)
    (seeded : Z -> nat -> list nat -> R)
    (param_init : string -> list nat -> R) : module_env :=
  {| env_tools := None;
     env_F_attr := F_attr;
     env_seeded := seeded;
     env_param_init := param_init |}.

(** What a call does to the outside: a configuration read from storage,
    the two messages of the constructor about an overwritten entry, a line
    printed, the array of units printed. *)
Inductive event : Type :=
| EvLoadHp (model_dir : string)
| EvOverwrite (key : string) (v : Q)
| EvPrint (line : string)
| EvPrintUnits (units : list Z).

(** Parameters of the library layers, under their qualified names.
    [nn.Linear(i, o)] holds a weight of shape [(o, i)] and a bias of shape
    [(o,)]; [nn.LSTMCell(i, h)] and [nn.GRUCell(i, h)] hold [weight_ih] of
    shape [(g h, i)], [weight_hh] of shape [(g h, h)] and two biases of shape
    [(g h,)], with [g = 4] and [g = 3]. *)
Definition lib_param (env : module_env) (name : string) (s : list nat) :
    string * tensor R :=
  (name, Tensor s (env_param_init env name)).

Definition Linear (env : module_env) (prefix : string) (in_features out_features : Z)
    (with_bias : bool) : res (list (string * tensor R)) :=
  match sizes [out_features; in_features] with
  | Some [o; i] =>
      ret (lib_param env (prefix ++ ".weight") [o; i] ::
           (if with_bias then [lib_param env (prefix ++ ".bias") [o]] else []))
  | _ => raise RuntimeError
  end.

Definition RNNCellBase (env : module_env) (prefix : string) (chunks : nat)
    (input_size hidden_size : Z) : res (list (string * tensor R)) :=
  match sizes [input_size; hidden_size] with
  | Some [i; h] =>
      ret [lib_param env (prefix ++ ".weight_ih") [(chunks * h)%nat; i];
           lib_param env (prefix ++ ".weight_hh") [(chunks * h)%nat; h];
           lib_param env (prefix ++ ".bias_ih") [(chunks * h)%nat];
           lib_param env (prefix ++ ".bias_hh") [(chunks * h)%nat]]
  | _ => raise RuntimeError
  end.

(** Row slices [t[k:, :]] and [t[:k, :]] for a non-negative [k]. *)
Definition rows_from (k : nat) (t : tensor R) : res (tensor R) :=
  match shape t with
  | n :: m :: s =>
      ret (Tensor ((n - k)%nat :: m :: s)
                  (fun idx => match idx with
                              | i :: rest => val t ((i + Nat.min k n)%nat :: rest)
                              | [] => val t idx
                              end))
  | _ => raise IndexError
  end.

Definition rows_to (k : nat) (t : tensor R) : res (tensor R) :=
  match shape t with
  | n :: m :: s => ret (Tensor (Nat.min k n :: m :: s) (val t))
  | _ => raise IndexError
  end.

(** Sum of all entries and number of entries. *)
Fixpoint tsum (s : list nat) (f : list nat -> R) : R :=
  match s with
  | [] => f []
  | n :: s' => Rsum n (fun i => tsum s' (fun idx => f (i :: idx)))
  end.

Definition numel (s : list nat) : nat := fold_right Nat.mul 1%nat s.

Definition tensor_sum (t : tensor R) : R := tsum (shape t) (val t).
Definition tensor_mean (t : tensor R) : R := tensor_sum t / INR (numel (shape t)).

(** [str] of a tuple of two integers and of a [torch.Size]. *)
Definition str_pair (a b : Z) : string :=
  "(" ++ pretty a ++ ", " ++ pretty b ++ ")".
Definition str_size (s : list nat) : string :=
  "torch.Size([" ++ String.concat ", " (map pretty s) ++ "])".

Definition shape_is (s : list nat) (dims : list Z) : bool :=
  bool_decide (map Z.of_nat s = dims).

Module Model.

Inductive rnn_cell_t : Type :=
| RnnLeaky (c : LeakyRNNCell.t)
| RnnLeakyGRU (c : LeakyGRUCell.t)
| RnnLSTM (input_size hidden_size : Z) (activation : callable)
| RnnGRU (input_size hidden_size : Z) (activation : callable)
| RnnSeparate (c : LeakyRNNCellSeparateInput.t).

Inductive optimizer_t : Type :=
| Adam (lr : Q)
| SGD (lr : Q).

(** The attributes set by [_set_weights_fused] and [_set_weights_separate];
    each is unset until assigned. *)
Record weight_attrs : Type := {
  w_rec : option (tensor R);
  w_in : option (tensor R);
  b_rec : option (tensor R);
  w_out : option (tensor R);
  b_out : option (tensor R);
  w_sen_in : option (tensor R);
  b_in : option (tensor R);
  w_rule : option (tensor R)
}.

Definition no_attrs : weight_attrs :=
  {| w_rec := None; w_in := None; b_rec := None; w_out := None;
     b_out := None; w_sen_in := None; b_in := None; w_rule := None |}.

(** The network object.  [parameters] is [named_parameters()]: the tensors
    of all sub-modules in registration order, under their qualified names;
    [rnn_cell] keeps the cell as constructed. *)
Record t : Type := {
  rng : RandomState;
  rnn_cell : rnn_cell_t;
  parameters : list (string * tensor R);
  weight_list : list (tensor R);
  attrs : weight_attrs;
  cost_reg : R;
  optimizer : option optimizer_t;
  model_dir : string;
  hp : hparams
}.

(** The choice of [f_act] in [_build_fused]: three names are handled by
    the method, any other is looked up in [torch.nn.functional]. *)
Definition select_f_act (env : module_env) (act : hpval) : res callable :=
  if is_str act "power" then ret CallPower
  else if is_str act "retanh" then ret CallRetanh
  else if is_str act "relu+" then ret CallReluPlus
  else do name <- as_str act;
       if env_F_attr env name then ret (CallFunctional name)
       else raise (AttributeError name).

(** [_build_fused]: the cell and the registered parameters. *)
Definition _build_fused (env : module_env) (rng : RandomState) (hp : hparams) :
    res (rnn_cell_t * list (string * tensor R)) :=
  do n_input <- get_int hp "n_input";
  do n_rnn <- get_int hp "n_rnn";
  do n_output <- get_int hp "n_output";
  do act <- getitem hp "activation";
  do f_act <- select_f_act env act;
  do rnn_type <- getitem hp "rnn_type";
  do '(cell, cell_params) <-
    (if is_str rnn_type "LeakyRNN" then
       do alpha <- get_num hp "alpha";
       do sigma_rec <- get_num hp "sigma_rec";
       do activation <- as_str act;
       do w_rec_init <- get_str hp "w_rec_init";
       do c <- LeakyRNNCell.__init__ (env_tools env) n_input n_rnn alpha sigma_rec
                 activation w_rec_init rng;
       ret (RnnLeaky c, [("rnn_cell.weight", LeakyRNNCell.weight c);
                         ("rnn_cell.bias", LeakyRNNCell.bias c)])
     else if is_str rnn_type "LeakyGRU" then
       do alpha <- get_num hp "alpha";
       do sigma_rec <- get_num hp "sigma_rec";
       do c <- LeakyGRUCell.__init__ n_input n_rnn alpha sigma_rec (Some f_act);
       do gate <- Linear env "rnn_cell.gate_weights" (n_input + n_rnn) (2 * n_rnn) true;
       do cand <- Linear env "rnn_cell.candidate_weights" (n_input + n_rnn) n_rnn true;
       ret (RnnLeakyGRU c, gate ++ cand)
     else if is_str rnn_type "LSTM" then
       do ps <- RNNCellBase env "rnn_cell" 4 n_input n_rnn;
       ret (RnnLSTM n_input n_rnn f_act, ps)
     else if is_str rnn_type "GRU" then
       do ps <- RNNCellBase env "rnn_cell" 3 n_input n_rnn;
       ret (RnnGRU n_input n_rnn f_act, ps)
     else raise (NotImplementedError
                   "rnn_type must be one of LeakyRNN, LeakyGRU, LSTM, GRU"));
  do out <- Linear env "output_layer" n_rnn n_output true;
  ret (cell, cell_params ++ out).

(** The loop of [_set_weights_fused] over the named parameters. *)
Fixpoint assign_fused (n_input : nat) (ps : list (string * tensor R))
    (a : weight_attrs) : res weight_attrs :=
  match ps with
  | [] => ret a
  | (name, param) :: rest =>
      do a' <-
        (if contains "rnn" name then
           if contains "weight" name then
             do wr <- rows_from n_input param;
             do wi <- rows_to n_input param;
             ret {| w_rec := Some wr; w_in := Some wi; b_rec := b_rec a;
                    w_out := w_out a; b_out := b_out a; w_sen_in := w_sen_in a;
                    b_in := b_in a; w_rule := w_rule a |}
           else
             ret {| w_rec := w_rec a; w_in := w_in a; b_rec := Some param;
                    w_out := w_out a; b_out := b_out a; w_sen_in := w_sen_in a;
                    b_in := b_in a; w_rule := w_rule a |}
         else if contains "output" name then
           if contains "weight" name then
             ret {| w_rec := w_rec a; w_in := w_in a; b_rec := b_rec a;
                    w_out := Some param; b_out := b_out a; w_sen_in := w_sen_in a;
                    b_in := b_in a; w_rule := w_rule a |}
           else
             ret {| w_rec := w_rec a; w_in := w_in a; b_rec := b_rec a;
                    w_out := w_out a; b_out := Some param; w_sen_in := w_sen_in a;
                    b_in := b_in a; w_rule := w_rule a |}
         else raise AssertionError);
      assign_fused n_input rest a'
  end.

(** One shape check of the two [_set_weights] methods. *)
Definition check_shape (attr : string) (label : string) (w : option (tensor R))
    (rows cols : Z) : res unit :=
  match w with
  | None => raise (AttributeError attr)
  | Some t =>
      if shape_is (shape t) [rows; cols] then ret tt
      else raise (ValueError ("Shape of " ++ label ++ " should be " ++
                              str_pair rows cols ++ ", but found " ++
                              str_size (shape t)))
  end.

Definition _set_weights_fused (hp : hparams) (ps : list (string * tensor R)) :
    res weight_attrs :=
  do n_input <- get_int hp "n_input";
  do n_rnn <- get_int hp "n_rnn";
  do n_output <- get_int hp "n_output";
  do a <- assign_fused (Z.to_nat n_input) ps no_attrs;
  do _ <- check_shape "w_out" "w_out" (w_out a) n_rnn n_output;
  do _ <- check_shape "w_rec" "w_rec" (w_rec a) n_rnn n_rnn;
  do _ <- check_shape "w_in" "w_in" (w_in a) n_input n_rnn;
  ret a.

(** [_build_separate] *)
Definition _build_separate (env : module_env) (rng : RandomState) (hp : hparams) :
    res (rnn_cell_t * list (string * tensor R)) :=
  do n_input <- getitem hp "n_input";
  do n_rnn <- get_int hp "n_rnn";
  do n_output <- get_int hp "n_output";
  do sensory_size <- get_int hp "rule_start";
  do rule_size <- get_int hp "n_rule";
  do sensory <- Linear env "sensory_rnn_input" sensory_size n_rnn true;
  do mix <-
    (if has_key hp "mix_rule" then
       do v <- getitem hp "mix_rule";
       match v with
       | HBool true => Linear env "mix_rule" rule_size rule_size false
       | _ => ret []
       end
     else ret []);
  do rule <- Linear env "rule_rnn_input" rule_size n_rnn false;
  do alpha <- get_num hp "alpha";
  do sigma_rec <- get_num hp "sigma_rec";
  do activation <- get_str hp "activation";
  do w_rec_init <- get_str hp "w_rec_init";
  do c <- LeakyRNNCellSeparateInput.__init__ (env_tools env) n_rnn alpha sigma_rec
            activation w_rec_init rng;
  do out <- Linear env "output_layer" n_rnn n_output true;
  ret (RnnSeparate c,
       sensory ++ mix ++ rule ++
       [("rnn_cell.weight", LeakyRNNCellSeparateInput.weight c);
        ("rnn_cell.bias", LeakyRNNCellSeparateInput.bias c)] ++ out).

Fixpoint assign_separate (ps : list (string * tensor R)) (a : weight_attrs) :
    res weight_attrs :=
  match ps with
  | [] => ret a
  | (name, param) :: rest =>
      do a' <-
        (if contains "rnn_cell" name then
           if contains "weight" name then
             ret {| w_rec := Some param; w_in := w_in a; b_rec := b_rec a;
                    w_out := w_out a; b_out := b_out a; w_sen_in := w_sen_in a;
                    b_in := b_in a; w_rule := w_rule a |}
           else
             ret {| w_rec := w_rec a; w_in := w_in a; b_rec := Some param;
                    w_out := w_out a; b_out := b_out a; w_sen_in := w_sen_in a;
                    b_in := b_in a; w_rule := w_rule a |}
         else if contains "sensory_rnn_input" name then
           if contains "weight" name then
             ret {| w_rec := w_rec a; w_in := w_in a; b_rec := b_rec a;
                    w_out := w_out a; b_out := b_out a; w_sen_in := Some param;
                    b_in := b_in a; w_rule := w_rule a |}
           else
             ret {| w_rec := w_rec a; w_in := w_in a; b_rec := b_rec a;
                    w_out := w_out a; b_out := b_out a; w_sen_in := w_sen_in a;
                    b_in := Some param; w_rule := w_rule a |}
         else if contains "rule_rnn_input" name then
           ret {| w_rec := w_rec a; w_in := w_in a; b_rec := b_rec a;
                  w_out := w_out a; b_out := b_out a; w_sen_in := w_sen_in a;
                  b_in := b_in a; w_rule := Some param |}
         else if contains "output" name then
           if contains "weight" name then
             ret {| w_rec := w_rec a; w_in := w_in a; b_rec := b_rec a;
                    w_out := Some param; b_out := b_out a; w_sen_in := w_sen_in a;
                    b_in := b_in a; w_rule := w_rule a |}
           else
             ret {| w_rec := w_rec a; w_in := w_in a; b_rec := b_rec a;
                    w_out := w_out a; b_out := Some param; w_sen_in := w_sen_in a;
                    b_in := b_in a; w_rule := w_rule a |}
         else raise AssertionError);
      assign_separate rest a'
  end.

Definition _set_weights_separate (hp : hparams) (ps : list (string * tensor R)) :
    res weight_attrs :=
  do n_rnn <- get_int hp "n_rnn";
  do n_output <- get_int hp "n_output";
  do a <- assign_separate ps no_attrs;
  do _ <- check_shape "w_out" "w_out" (w_out a) n_rnn n_output;
  do _ <- check_shape "w_rec" "w_rec" (w_rec a) n_rnn n_rnn;
  do rule_start <- get_int hp "rule_start";
  do _ <- check_shape "w_sen_in" "w_sen_in" (w_sen_in a) rule_start n_rnn;
  do n_rule <- get_int hp "n_rule";
  do _ <- check_shape "w_rule" "w_in" (w_rule a) n_rule n_rnn;
  ret a.

(** ['use_separate_input' in hp and hp['use_separate_input']] *)
Definition use_separate_input (hp : hparams) : bool :=
  match hp !! "use_separate_input" with
  | Some v => truthy v
  | None => false
  end.

(** The regularisation terms of [_build].  The hidden activity [self.h]
    exists only after a forward pass, so reading it here raises. *)
Definition regularisation (hp : hparams) (weights : list (tensor R)) : res R :=
  do l1_h <- get_num hp "l1_h";
  do _ <- (if Qpos_bool l1_h then raise (AttributeError "h") else ret tt);
  do l2_h <- get_num hp "l2_h";
  do _ <- (if Qpos_bool l2_h then raise (AttributeError "h") else ret tt);
  do l1_weight <- get_num hp "l1_weight";
  let c1 := if Qpos_bool l1_weight
            then Q2R l1_weight *
                 fold_right Rplus 0 (map (fun v => tensor_mean (tmap Rabs v)) weights)
            else 0 in
  do l2_weight <- get_num hp "l2_weight";
  let c2 := if Qpos_bool l2_weight
            then Q2R l2_weight *
                 fold_right Rplus 0 (map (fun v => tensor_sum (tmap (fun e => e ^ 2) v)) weights)
            else 0 in
  ret (0 + c1 + c2).

(** The optimiser of [_build]; both library optimisers refuse a negative
    learning rate. *)
Definition make_optimizer (hp : hparams) : res (option optimizer_t) :=
  let choice :=
    if negb (has_key hp "optimizer") then Some Adam
    else match hp !! "optimizer" with
         | Some v => if is_str v "adam" then Some Adam
                     else if is_str v "sgd" then Some SGD
                     else None
         | None => None
         end in
  match choice with
  | None => ret None
  | Some mk =>
      do lr <- get_num hp "learning_rate";
      if Qle_bool 0 lr then ret (Some (mk lr))
      else raise (ValueError "Invalid learning rate")
  end.

Definition _build (env : module_env) (rng : RandomState) (hp : hparams) :
    res (rnn_cell_t * list (string * tensor R) * list (tensor R) *
         weight_attrs * R * option optimizer_t) :=
  do '(cell, ps) <- (if use_separate_input hp then _build_separate env rng hp
                     else _build_fused env rng hp);
  let weights := map snd (filter (fun p => is_weight (fst p) = true) ps) in
  do a <- (if use_separate_input hp then _set_weights_separate hp ps
           else _set_weights_fused hp ps);
  do reg <- regularisation hp weights;
  do opt <- make_optimizer hp;
  ret (cell, ps, weights, a, reg, opt).

(** [Model.__init__] once the hyperparameters are at hand. *)
Definition init_with_hp (env : module_env) (model_dir : string) (hp : hparams)
    (sigma_rec dt : option Q) : res t * list event :=
  match get_int hp "seed" with
  | inl e => (inl e, [])
  | inr seed =>
      if negb ((0 <=? seed)%Z && (seed <? 2 ^ 32)%Z)
      then (raise (ValueError "Seed must be between 0 and 2**32 - 1"), [])
      else
        let rng := {| stream := env_seeded env seed; drawn := 0 |} in
        let '(hp1, ev1) :=
          match sigma_rec with
          | Some v => (<["sigma_rec" := HFloat v]> hp, [EvOverwrite "sigma_rec" v])
          | None => (hp, [])
          end in
        let '(hp2, ev2) :=
          match dt with
          | Some v => (<["dt" := HFloat v]> hp1, [EvOverwrite "dt" v])
          | None => (hp1, [])
          end in
        let ev := ev1 ++ ev2 in
        (do dt_v <- get_num hp2 "dt";
         do tau <- get_num hp2 "tau";
         do alpha <- Qdiv_py (1 * dt_v) tau;
         let hp3 := <["alpha" := HFloat alpha]> hp2 in
         do in_type <- getitem hp3 "in_type";
         do _ <- (if is_str in_type "normal" then ret tt
                  else do s <- as_str in_type;
                       raise (ValueError ("Only support in_type " ++ s)));
         do '(cell, ps, weights, a, reg, opt) <- _build env rng hp3;
         ret {| rng := rng;
                rnn_cell := cell;
                parameters := ps;
                weight_list := weights;
                attrs := a;
                cost_reg := reg;
                optimizer := opt;
                model_dir := model_dir;
                hp := hp3 |},
         ev)
  end.

(** [Model.__init__(model_dir, hp, sigma_rec, dt)]: the constructed object
    or the exception, and the events the call produced. *)
Definition __init__ (env : module_env) (model_dir : string) (hp : option hparams)
    (sigma_rec dt : option Q) : res t * list event :=
  match hp with
  | Some h => init_with_hp env model_dir h sigma_rec dt
  | None =>
      match env_tools env with
      | None => (raise (NameError "tools"), [])
      | Some tl =>
          match load_hp tl model_dir with
          | None =>
              (raise (ValueError ("No hp found for model_dir " ++ model_dir)),
               [EvLoadHp model_dir])
          | Some h =>
              let '(r, ev) := init_with_hp env model_dir h sigma_rec dt in
              (r, EvLoadHp model_dir :: ev)
          end
      end
  end.

(** *** Lesioning *)

Inductive units_arg : Type :=
| UnitsNone
| UnitsInt (i : Z)
| UnitsList (l : list Z).

(** An integer index into an axis of length [n]: negative indices count
    from the end. *)
Definition norm_index (n : nat) (i : Z) : res nat :=
  if (0 <=? i)%Z && (i <? Z.of_nat n)%Z then ret (Z.to_nat i)
  else if (- Z.of_nat n <=? i)%Z && (i <? 0)%Z then ret (Z.to_nat (i + Z.of_nat n))
  else raise IndexError.

Fixpoint norm_indices (n : nat) (l : list Z) : res (list nat) :=
  match l with
  | [] => ret []
  | i :: rest =>
      do r <- norm_index n i;
      do rs <- norm_indices n rest;
      ret (r :: rs)
  end.

Definition in_rows (r : nat) (rows : list nat) : bool :=
  existsb (Nat.eqb r) rows.

(** [data[idxs, :] = 0] *)
Definition zero_rows (idxs : list Z) (data : tensor R) : res (tensor R) :=
  match shape data with
  | n :: _ :: _ =>
      do rows <- norm_indices n idxs;
      ret (Tensor (shape data)
                  (fun idx => match idx with
                              | r :: _ => if in_rows r rows then 0 else val data idx
                              | [] => val data idx
                              end))
  | _ => raise IndexError
  end.

(** The loop of [lesion_units]; on an exception the parameters already
    visited keep their new data. *)
Fixpoint lesion_loop (n_input : Z) (units : list Z)
    (ps : list (string * tensor R)) : res unit * list (string * tensor R) :=
  match ps with
  | [] => (ret tt, [])
  | (name, data) :: rest =>
      let step :=
        if contains "weight" name then
          if contains "output" name then zero_rows units data
          else if contains "rnn" name then zero_rows (map (Z.add n_input) units) data
          else ret data
        else ret data in
      match step with
      | inl e => (inl e, (name, data) :: rest)
      | inr data' =>
          let '(r, rest') := lesion_loop n_input units rest in
          (r, (name, data') :: rest')
      end
  end.

Definition with_parameters (m : t) (ps : list (string * tensor R)) : t :=
  {| rng := rng m; rnn_cell := rnn_cell m; parameters := ps;
     weight_list := weight_list m; attrs := attrs m; cost_reg := cost_reg m;
     optimizer := optimizer m; model_dir := model_dir m; hp := hp m |}.

(** [Model.lesion_units(units, verbose)]: the outcome, the network after the
    call and the lines printed. *)
Definition lesion_units (m : t) (units : units_arg) (verbose : bool) :
    res unit * t * list event :=
  match units with
  | UnitsNone => (ret tt, m, [])
  | _ =>
      let us := match units with
                | UnitsInt i => [i]
                | UnitsList l => l
                | UnitsNone => []
                end in
      match get_int (hp m) "n_input" with
      | inl e => (inl e, m, [])
      | inr n_input =>
          let '(r, ps) := lesion_loop n_input us (parameters m) in
          match r with
          | inl e => (inl e, with_parameters m ps, [])
          | inr _ =>
              (ret tt, with_parameters m ps,
               if verbose then [EvPrint "Lesioned units:"; EvPrintUnits us] else [])
          end
      end
  end.

End Model.

(** ** State-space analysis: [f_sub_mean] *)

Module Statespace.

(** Arithmetic on entries that need not be finite. *)
Definition fadd (a b : fval) : fval :=
  match a, b with
  | Fin x, Fin y => Fin (x + y)
  | _, _ => NonFin
  end.

Definition fsub (a b : fval) : fval :=
  match a, b with
  | Fin x, Fin y => Fin (x - y)
  | _, _ => NonFin
  end.

Fixpoint fsum (n : nat) (f : nat -> fval) : fval :=
  match n with
  | O => Fin 0
  | S k => fadd (fsum k f) (f k)
  end.

Definition fdiv_count (a : fval) (n : nat) : fval :=
  match a with
  | Fin x => fdiv x (INR n)
  | NonFin => NonFin
  end.

(** [x.mean(axis=1)]: the mean over an empty axis is not a number. *)
Definition mean_axis1 (x : tensor fval) : tensor fval :=
  match shape x with
  | n0 :: n1 :: rest =>
      Tensor (n0 :: rest)
             (fun idx => match idx with
                         | t :: r => fdiv_count (fsum n1 (fun i => val x (t :: i :: r))) n1
                         | [] => NonFin
                         end)
  | _ => Tensor [] (fun _ => NonFin)
  end.

(** [x[:, i, :] -= m] on the array itself. *)
Definition sub_slice (i : nat) (m : tensor fval) (x : tensor fval) : tensor fval :=
  Tensor (shape x)
         (fun idx => match idx with
                     | t :: j :: r => if (j =? i)%nat then fsub (val x idx) (val m (t :: r))
                                      else val x idx
                     | _ => val x idx
                     end).

(** Arrays live in a store and are passed by reference. *)
Abbreviation store := (gmap nat (tensor fval)).

(** [f_sub_mean(x)]: the outcome and the store after the call.  A reference
    held by a caller always denotes an array of the store; on any other
    location the model raises. *)
Definition f_sub_mean (x : nat) (st : store) : res nat * store :=
  match st !! x with
  | None => (raise RuntimeError, st)
  | Some a =>
      if negb (length (shape a) =? 3)%nat then (raise AssertionError, st)
      else
        let x_mean := mean_axis1 a in
        let n1 := nth 1 (shape a) 0%nat in
        (ret x,
         fold_left (fun s i => alter (sub_slice i x_mean) x s) (seq 0 n1) st)
  end.

End Statespace.

(* ===================================================================== *)
(** * Notions used in the statements and example inputs *)
(* ===================================================================== *)

(** ** Population vector read-out *)
(** The weighted sums of the code, for the slice at [idx]. *)
Definition act_sum (y : tensor R) (units : nat) (idx : list nat) : R :=
  Rsum units (fun j => val y (idx ++ [j])).
Definition cos_sum (y : tensor R) (units : nat) (idx : list nat) : R :=
  Rsum units (fun j => val y (idx ++ [j]) * cos (2 * PI * INR j / INR units)).
Definition sin_sum (y : tensor R) (units : nat) (idx : list nat) : R :=
  Rsum units (fun j => val y (idx ++ [j]) * sin (2 * PI * INR j / INR units)).

(** An activity peaked at the last of four units. *)
Definition y_last_of_four : tensor R :=
  Tensor [1%nat; 4%nat]
         (fun idx => match idx with
                     | [_; 3%nat] => 1
                     | _ => 0
                     end).

(** ** The leaky recurrent cell *)

(** The concatenation [[x; h]] the cell multiplies with its weight. *)
Definition xh_entry (x h : tensor R) (n_in : nat) (b k : nat) : R :=
  if (k <? n_in)%nat then val x [b; k] else val h [b; (k - n_in)%nat].

(** The start scale of the recurrent block, by activation name. *)
Definition spec_w_rec_start (activation : string) : R :=
  if String.eqb activation "tanh" then 1
  else if String.eqb activation "power" then 1 / 100
  else 1 / 2.

(** A cell whose weight has the layout [forward] multiplies with: one
    input, two hidden units, weight of shape (3, 2). *)
Definition cell_row_layout : LeakyRNNCell.t :=
  {| LeakyRNNCell.input_size := 1;
     LeakyRNNCell.hidden_size := 2;
     LeakyRNNCell.alpha := 1 # 5;
     LeakyRNNCell.sigma := 0;
     LeakyRNNCell.activation := "relu";
     LeakyRNNCell.w_rec_init := "diag";
     LeakyRNNCell.act_fn := relu;
     LeakyRNNCell._w_in_start := 1;
     LeakyRNNCell._w_rec_start := 1 / 2;
     LeakyRNNCell.rng := {| stream := fun _ _ => 0; drawn := 1 |};
     LeakyRNNCell.weight := Tensor [3%nat; 2%nat] (fun _ => 1);
     LeakyRNNCell.bias := zeros [2%nat] |}.

Definition zero_stream : RandomState :=
  {| stream := fun _ _ => 0; drawn := 0 |}.

(** ** The network *)

(** A fused configuration with a leaky cell, one input, two recurrent and
    two output units. *)
Definition hp_leaky_1_2_2 : hparams :=
  list_to_map
    [("seed", HInt 0); ("dt", HInt 20); ("tau", HInt 100);
     ("in_type", HStr "normal"); ("n_input", HInt 1); ("n_rnn", HInt 2);
     ("n_output", HInt 2); ("activation", HStr "softplus");
     ("rnn_type", HStr "LeakyRNN"); ("sigma_rec", HFloat (1 # 20));
     ("w_rec_init", HStr "diag"); ("l1_h", HInt 0); ("l2_h", HInt 0);
     ("l1_weight", HInt 0); ("l2_weight", HInt 0);
     ("learning_rate", HFloat (1 # 1000)); ("optimizer", HStr "adam");
     ("loss_type", HStr "lsq")].

(** An environment for examples: [tools] unbound as in the file, five of
    the activations of [torch.nn.functional], constant random sources. *)
Definition example_env : module_env :=
  network_torch_env
    (fun name => bool_decide (name ∈ ["softplus"; "relu"; "tanh"; "sigmoid"; "elu"]))
    (fun _ _ _ => 0) (fun _ _ => 0).


Definition hp_unknown_cell : hparams :=
  <["rnn_type" := HStr "Elman"]> hp_leaky_1_2_2.

(** The row a Python index addresses in an axis of length [n], and the
    indices that axis accepts. *)
Definition row_of (n : nat) (i : Z) : nat := Z.to_nat (i mod Z.of_nat n).
Definition valid_index (n : nat) (i : Z) : Prop :=
  (- Z.of_nat n <= i < Z.of_nat n)%Z.

(** Row [r] of an axis of length [n] is addressed by [offset + i] for some
    unit [i]. *)
Definition lesioned (offset : Z) (units : list Z) (n r : nat) : Prop :=
  exists i, In i units /\ r = row_of n (offset + i).

(** What the call does to one parameter. *)
Definition lesion_post (n_input : Z) (units : list Z)
    (p p' : string * tensor R) : Prop :=
  fst p' = fst p /\
  shape (snd p') = shape (snd p) /\
  (contains "weight" (fst p) = true -> contains "output" (fst p) = true ->
   forall r rest,
     (lesioned 0 units (hd 0%nat (shape (snd p))) r -> val (snd p') (r :: rest) = 0) /\
     (~ lesioned 0 units (hd 0%nat (shape (snd p))) r ->
      val (snd p') (r :: rest) = val (snd p) (r :: rest))) /\
  (contains "weight" (fst p) = true -> contains "rnn" (fst p) = true ->
   forall r rest,
     (lesioned n_input units (hd 0%nat (shape (snd p))) r ->
      val (snd p') (r :: rest) = 0) /\
     (~ lesioned n_input units (hd 0%nat (shape (snd p))) r ->
      val (snd p') (r :: rest) = val (snd p) (r :: rest))) /\
  ((contains "weight" (fst p) = false \/
    (contains "output" (fst p) = false /\ contains "rnn" (fst p) = false)) ->
   snd p' = snd p).

(** The rows the call indexes exist in every parameter it writes to, and no
    parameter is both an output and a recurrent weight. *)
Definition lesion_ready (n_input : Z) (units : list Z)
    (p : string * tensor R) : Prop :=
  contains "weight" (fst p) = true ->
  (contains "output" (fst p) = true ->
   contains "rnn" (fst p) = false /\
   exists n c s, shape (snd p) = n :: c :: s /\
                 forall i, In i units -> valid_index n i) /\
  (contains "rnn" (fst p) = true ->
   contains "output" (fst p) = false /\
   exists n c s, shape (snd p) = n :: c :: s /\
                 forall i, In i units -> valid_index n (n_input + i)).

(** A network with one input and two recurrent units whose recurrent weight
    has the row layout [lesion_units] indexes. *)
Definition lesion_example : Model.t :=
  {| Model.rng := zero_stream;
     Model.rnn_cell := Model.RnnLSTM 1 2 CallTanh;
     Model.parameters :=
       [("rnn_cell.weight", Tensor [3%nat; 2%nat] (fun _ => 1));
        ("rnn_cell.bias", Tensor [2%nat] (fun _ => 1));
        ("output_layer.weight", Tensor [2%nat; 2%nat] (fun _ => 1));
        ("output_layer.bias", Tensor [2%nat] (fun _ => 1))];
     Model.weight_list := [];
     Model.attrs := Model.no_attrs;
     Model.cost_reg := 0;
     Model.optimizer := None;
     Model.model_dir := "model";
     Model.hp := {[ "n_input" := HInt 1 ]} |}.

(** ** [f_sub_mean] *)







(** The same configuration without inputs. *)
Definition hp_leaky_0_2_2 : hparams := <["n_input" := HInt 0]> hp_leaky_1_2_2.

(** The qualified parameter names the two builders can register. *)
Definition registered_names : list string :=
  ["rnn_cell.weight"; "rnn_cell.bias";
   "rnn_cell.gate_weights.weight"; "rnn_cell.gate_weights.bias";
   "rnn_cell.candidate_weights.weight"; "rnn_cell.candidate_weights.bias";
   "rnn_cell.weight_ih"; "rnn_cell.weight_hh";
   "rnn_cell.bias_ih"; "rnn_cell.bias_hh";
   "output_layer.weight"; "output_layer.bias";
   "sensory_rnn_input.weight"; "sensory_rnn_input.bias";
   "mix_rule.weight"; "rule_rnn_input.weight"].

Definition is_ok {A : Type} (r : res A) : bool :=
  match r with
  | inr _ => true
  | inl _ => false
  end.

(** ** Notions used in the further statements *)

(** *** [get_perf] *)






(** *** The leaky gated cell *)



(** The layers have the shapes [LeakyGRUCell.__init__] gives them. *)
Definition gru_layers_shaped (l : LeakyGRUCell.layers) (n_in n_hid : nat) : Prop :=
  shape (lin_weight (LeakyGRUCell.gate_weights l)) = [(2 * n_hid)%nat; (n_in + n_hid)%nat] /\
  shape (lin_bias (LeakyGRUCell.gate_weights l)) = [(2 * n_hid)%nat] /\
  shape (lin_weight (LeakyGRUCell.candidate_weights l)) = [n_hid; (n_in + n_hid)%nat] /\
  shape (lin_bias (LeakyGRUCell.candidate_weights l)) = [n_hid].

(** A gated cell and layers for examples: one input, two hidden units. *)
Definition gru_example_cell : LeakyGRUCell.t :=
  {| LeakyGRUCell.input_size := 1;
     LeakyGRUCell.hidden_size := 2;
     LeakyGRUCell.alpha := 1 # 5;
     LeakyGRUCell.sigma := 0;
     LeakyGRUCell.activation := CallTanh |}.

Definition gru_example_layers : LeakyGRUCell.layers :=
  {| LeakyGRUCell.gate_weights :=
       {| lin_weight := Tensor [4%nat; 3%nat] (fun _ => 1);
          lin_bias := zeros [4%nat] |};
     LeakyGRUCell.candidate_weights :=
       {| lin_weight := Tensor [2%nat; 3%nat] (fun _ => 1);
          lin_bias := zeros [2%nat] |} |}.

(** *** Construction of the network *)

(** The configuration after the two optional overrides of the constructor,
    and the messages they print. *)
Definition overridden (hp : hparams) (sigma_rec dt : option Q) : hparams :=
  let hp1 := match sigma_rec with
             | Some v => <["sigma_rec" := HFloat v]> hp
             | None => hp
             end in
  match dt with
  | Some v => <["dt" := HFloat v]> hp1
  | None => hp1
  end.

Definition override_events (sigma_rec dt : option Q) : list event :=
  match sigma_rec with
  | Some v => [EvOverwrite "sigma_rec" v]
  | None => []
  end ++
  match dt with
  | Some v => [EvOverwrite "dt" v]
  | None => []
  end.

(** A configuration that omits the keys read after the input type. *)
Definition hp_other_in_type : hparams :=
  list_to_map
    [("seed", HInt 0); ("dt", HInt 20); ("tau", HInt 100);
     ("in_type", HStr "multi")].

(** A configuration with separate sensory and rule inputs in which all
    layer sizes agree. *)
Definition hp_separate_2 : hparams :=
  list_to_map
    [("seed", HInt 0); ("dt", HInt 20); ("tau", HInt 100);
     ("in_type", HStr "normal"); ("use_separate_input", HBool true);
     ("n_input", HInt 4); ("rule_start", HInt 2); ("n_rule", HInt 2);
     ("n_rnn", HInt 2); ("n_output", HInt 2); ("activation", HStr "relu");
     ("sigma_rec", HFloat (1 # 20)); ("w_rec_init", HStr "diag");
     ("l1_h", HInt 0); ("l2_h", HInt 0); ("l1_weight", HInt 0);
     ("l2_weight", HInt 0); ("learning_rate", HFloat (1 # 1000));
     ("optimizer", HStr "sgd"); ("loss_type", HStr "lsq")].

(** A fused configuration with the library LSTM cell: six inputs, two
    recurrent and two output units. *)
Definition hp_lstm_6_2_2 : hparams :=
  <["rnn_type" := HStr "LSTM"]>
    (<["activation" := HStr "tanh"]> (<["n_input" := HInt 6]> hp_leaky_1_2_2)).

(** A module [tools] that finds no stored configuration, and an
    environment in which the name is bound to it. *)
Definition tools_without_hp : tools_module :=
  {| load_hp := fun _ => None;
     gen_ortho_matrix := fun n rng => (eye n, rng) |}.

Definition env_with_tools (tl : tools_module) : module_env :=
  {| env_tools := Some tl;
     env_F_attr := env_F_attr example_env;
     env_seeded := env_seeded example_env;
     env_param_init := env_param_init example_env |}.

(** *** Lesioning *)

(** What [lesion_units] can do to one parameter at most, whether it
    returns or raises: the name and the shape stay, a parameter whose name
    lacks ['weight'] is untouched, and an entry keeps its value or becomes
    zero. *)
Definition lesion_frame (p p' : string * tensor R) : Prop :=
  fst p' = fst p /\
  shape (snd p') = shape (snd p) /\
  (contains "weight" (fst p) = false -> snd p' = snd p) /\
  forall idx, val (snd p') idx = val (snd p) idx \/ val (snd p') idx = 0.

(** Two parameters with the same name, shape and entries. *)
Definition same_entries (p p' : string * tensor R) : Prop :=
  fst p' = fst p /\
  shape (snd p') = shape (snd p) /\
  forall idx, in_range (shape (snd p)) idx -> val (snd p') idx = val (snd p) idx.

(* ===================================================================== *)
(** * Properties *)
(* ===================================================================== *)

(** ** Shapes, indices and sums *)

Lemma in_range_length (s idx : list nat) :
  in_range s idx -> length idx = length s.
Proof. unfold in_range. apply Forall2_length. Qed.

Lemma in_range_app (s idx : list nat) (n j : nat) :
  in_range s idx -> (j < n)%nat -> in_range (s ++ [n]) (idx ++ [j]).
Proof.
  unfold in_range. intros Hs Hj. apply Forall2_app; [exact Hs|].
  constructor; [exact Hj | constructor].
Qed.

Lemma bshape_rev_nil_r (l : list nat) : bshape_rev l [] = Some l.
Proof. destruct l; reflexivity. Qed.

Lemma bshape_rev_same (l : list nat) : bshape_rev l l = Some l.
Proof.
  induction l as [|x l IH]; [reflexivity|].
  simpl. rewrite IH, Nat.eqb_refl. reflexivity.
Qed.

Lemma broadcast_shapes_same (s : list nat) : broadcast_shapes s s = Some s.
Proof.
  unfold broadcast_shapes. rewrite bshape_rev_same, rev_involutive. reflexivity.
Qed.

Lemma broadcast_shapes_last (s : list nat) (n : nat) :
  broadcast_shapes (s ++ [n]) [n] = Some (s ++ [n]).
Proof.
  unfold broadcast_shapes. rewrite rev_app_distr. simpl.
  rewrite bshape_rev_nil_r, Nat.eqb_refl. simpl.
  rewrite rev_involutive. reflexivity.
Qed.

Lemma bindex_in_range (s idx : list nat) :
  in_range s idx -> bindex s idx = idx.
Proof.
  intros H. unfold bindex.
  rewrite (in_range_length _ _ H), Nat.sub_diag, drop_0.
  unfold in_range in H. induction H as [|i n idx s Hin _ IH]; [reflexivity|].
  simpl. rewrite IH. destruct (Nat.eqb_spec n 1) as [->|_]; [|reflexivity].
  f_equal. lia.
Qed.

Lemma bindex_last (idx : list nat) (n j : nat) :
  (j < n)%nat -> bindex [n] (idx ++ [j]) = [j].
Proof.
  intros Hj. unfold bindex. rewrite length_app. simpl.
  replace (length idx + 1 - 1)%nat with (length idx) by lia.
  rewrite drop_app_length. simpl.
  destruct (Nat.eqb_spec n 1) as [->|_]; [|reflexivity].
  f_equal. lia.
Qed.

Lemma Rsum_ext (n : nat) (f g : nat -> R) :
  (forall j, (j < n)%nat -> f j = g j) -> Rsum n f = Rsum n g.
Proof.
  induction n as [|n IH]; intros H; [reflexivity|].
  simpl. rewrite IH, H by (intros; try apply H; lia). reflexivity.
Qed.




(** ** Population vector read-out *)

Import Popvec.

Lemma pref_length (n : nat) :
  (0 < n)%nat -> Z.to_nat (Zceil ((2 * PI - 0) / (2 * PI / INR n))) = n.
Proof.
  intros Hn.
  assert (HI : 0 < INR n) by (apply lt_0_INR; exact Hn).
  assert (HP := PI_RGT_0).
  replace ((2 * PI - 0) / (2 * PI / INR n)) with (IZR (Z.of_nat n)).
  - rewrite (Zceil_eq (Z.of_nat n)); [apply Nat2Z.id | lra].
  - rewrite <- INR_IZR_INZ. field. split; lra.
Qed.


Lemma shape_last_app {A : Type} (y : tensor A) (s : list nat) (n : nat) :
  shape y = s ++ [n] -> shape_last y = inr n.
Proof.
  intros H. unfold shape_last. rewrite H.
  destruct s; simpl; [reflexivity|].
  unfold ret. f_equal. destruct s; [reflexivity|]. apply (last_last (n1 :: s)).
Qed.

Lemma pref_entry (n j : nat) :
  (0 < n)%nat -> 0 + INR j * (2 * PI / INR n) = 2 * PI * INR j / INR n.
Proof.
  intros Hn. assert (HI : 0 < INR n) by (apply lt_0_INR; exact Hn).
  field. lra.
Qed.

Lemma popvec_eval (y : tensor R) (s : list nat) (n : nat) :
  shape y = s ++ [n] -> (0 < n)%nat ->
  exists out, popvec y = inr out /\ shape out = s /\
    forall idx, in_range s idx ->
      val out idx =
      f_lift (fun a => floor_mod a (2 * PI))
             (f_atan2 (fdiv (sin_sum y n idx) (act_sum y n idx))
                      (fdiv (cos_sum y n idx) (act_sum y n idx))).
Proof.
  intros Hs Hn. unfold popvec.
  rewrite (shape_last_app y s n Hs). simpl.
  assert (HI : 0 < INR n) by (apply lt_0_INR; exact Hn).
  unfold py_div. destruct (Req_EM_T (INR n) 0) as [E|_]; [lra|]. simpl.
  destruct y as [sh v]. simpl in Hs. subst sh.
  unfold broadcast2. simpl.
  rewrite (pref_length n Hn), broadcast_shapes_last. simpl.
  rewrite removelast_last, last_last, broadcast_shapes_same. simpl.
  rewrite broadcast_shapes_same. simpl.
  eexists. split; [reflexivity|]. split; [reflexivity|].
  intros idx Hidx. simpl.
  rewrite (bindex_in_range s idx Hidx).
  unfold sin_sum, cos_sum, act_sum. simpl.
  assert (Hsum : forall f : R -> R,
    Rsum n (fun j => v (bindex (s ++ [n]) (bindex s idx ++ [j])) *
                     f (0 + INR (hd 0%nat (bindex [n] (bindex s idx ++ [j]))) *
                            (2 * PI / INR n))) =
    Rsum n (fun j => v (idx ++ [j]) * f (2 * PI * INR j / INR n))).
  { intros f. apply Rsum_ext. intros j Hj.
    rewrite (bindex_in_range s idx Hidx).
    rewrite (bindex_in_range (s ++ [n]) (idx ++ [j])) by (apply in_range_app; assumption).
    rewrite (bindex_last idx n j Hj). simpl. rewrite pref_entry by exact Hn. reflexivity. }
  assert (Hact : Rsum n (fun j => v (bindex s idx ++ [j])) = Rsum n (fun j => v (idx ++ [j]))).
  { rewrite (bindex_in_range s idx Hidx). reflexivity. }
  rewrite (Hsum sin), (Hsum cos), Hact. reflexivity.
Qed.

Lemma torch_popvec_eval (y : tensor R) (s : list nat) (n : nat) :
  shape y = s ++ [n] -> (0 < n)%nat ->
  exists out, torch_popvec y = inr out /\ shape out = s ++ [1%nat] /\
    forall idx, in_range s idx ->
      val out (idx ++ [0%nat]) =
      f_lift (fun a => trunc_mod a (2 * PI))
             (f_atan2 (fdiv (sin_sum y n idx) (act_sum y n idx))
                      (fdiv (cos_sum y n idx) (act_sum y n idx))).
Proof.
  intros Hs Hn. unfold torch_popvec.
  rewrite (shape_last_app y s n Hs). simpl.
  assert (HI : 0 < INR n) by (apply lt_0_INR; exact Hn).
  unfold py_div. destruct (Req_EM_T (INR n) 0) as [E|_]; [lra|]. simpl.
  destruct y as [sh v]. simpl in Hs. subst sh.
  unfold broadcast2. simpl.
  rewrite (pref_length n Hn), broadcast_shapes_last. simpl.
  rewrite removelast_last, last_last, broadcast_shapes_same. simpl.
  rewrite broadcast_shapes_same. simpl.
  eexists. split; [reflexivity|]. split; [reflexivity|].
  intros idx Hidx. simpl.
  assert (Hk : in_range (s ++ [1%nat]) (idx ++ [0%nat]))
    by (apply in_range_app; [exact Hidx | lia]).
  rewrite !(bindex_in_range _ _ Hk), removelast_last.
  assert (Hsum : forall f : R -> R,
    Rsum n (fun j => v (bindex (s ++ [n]) (idx ++ [j])) *
                     f (0 + INR (hd 0%nat (bindex [n] (idx ++ [j]))) *
                            (2 * PI / INR n))) =
    Rsum n (fun j => v (idx ++ [j]) * f (2 * PI * INR j / INR n))).
  { intros f. apply Rsum_ext. intros j Hj.
    rewrite (bindex_in_range (s ++ [n]) (idx ++ [j])) by (apply in_range_app; assumption).
    rewrite (bindex_last idx n j Hj). simpl. rewrite pref_entry by exact Hn. reflexivity. }
  unfold sin_sum, cos_sum, act_sum. simpl.
  rewrite (Hsum sin), (Hsum cos). reflexivity.
Qed.

(** *** The arctangent and the two remainders *)





Lemma floor_mod_neg (a m : R) : - m <= a < 0 -> floor_mod a m = a + m.
Proof.
  intros [H0 Hm]. unfold floor_mod.
  rewrite (Zfloor_eq (-1)); [lra|].
  assert (Hpos : 0 < m) by lra.
  split.
  - apply Rmult_le_reg_r with (r := m); [lra|].
    replace (a / m * m) with a by (field; lra). lra.
  - apply Rmult_lt_reg_r with (r := m); [lra|].
    replace (a / m * m) with a by (field; lra). lra.
Qed.

Lemma trunc_mod_small (a m : R) : - m < a < m -> trunc_mod a m = a.
Proof.
  intros [H0 Hm]. assert (Hpos : 0 < m) by lra.
  assert (Hq : a / m * m = a) by (field; lra).
  unfold trunc_mod, Ztrunc.
  destruct (Rle_dec 0 (a / m)) as [Hs|Hs].
  - rewrite (Zfloor_eq 0); [lra|]. split; [exact Hs|].
    apply Rmult_lt_reg_r with (r := m); [lra|]. rewrite Hq. lra.
  - rewrite (Zceil_eq 0); [lra|]. split; [|lra].
    apply Rmult_lt_reg_r with (r := m); [lra|]. rewrite Hq. lra.
Qed.








(** *** The two read-outs on an activity peaked at the last of four units *)


Lemma y_last_of_four_sums :
  act_sum y_last_of_four 4 [0%nat] = 1 /\
  sin_sum y_last_of_four 4 [0%nat] = -1 /\
  cos_sum y_last_of_four 4 [0%nat] = 0.
Proof.
  assert (E : 2 * PI * INR 3 / INR 4 = 3 * (PI / 2)) by (simpl; field).
  unfold act_sum, sin_sum, cos_sum. cbn [Rsum y_last_of_four val app].
  rewrite E, sin_3PI2, cos_3PI2. repeat split; lra.
Qed.

Lemma atan2_neg_axis (a : R) : a < 0 -> atan2 a 0 = - (PI / 2).
Proof.
  intros Ha. unfold atan2.
  destruct (Rlt_dec 0 0) as [F|_]; [lra|].
  destruct (Rlt_dec 0 a) as [F|_]; [lra|].
  destruct (Rlt_dec a 0) as [_|F]; [reflexivity | contradiction].
Qed.

(** C3 (evaluation at a diverging input). On the activity [[0, 0, 0, 1]]
    the numpy read-out returns [3 PI / 2] while the torch read-out returns
    [- PI / 2]: the two decoders disagree and the torch value is outside
    [[0, 2 PI)]. *)
Theorem torch_popvec_differs_from_popvec :
  exists o_np o_torch,
    popvec y_last_of_four = inr o_np /\
    torch_popvec y_last_of_four = inr o_torch /\
    val o_np [0%nat] = Fin (3 * (PI / 2)) /\
    val o_torch [0%nat; 0%nat] = Fin (- (PI / 2)) /\
    - (PI / 2) < 0 /\
    val o_np [0%nat] <> val o_torch [0%nat; 0%nat].
Proof.
  assert (HP := PI_RGT_0).
  destruct y_last_of_four_sums as (Ha & Hs & Hc).
  assert (Hr : in_range [1%nat] [0%nat]) by (constructor; [lia | constructor]).
  destruct (popvec_eval y_last_of_four [1%nat] 4 eq_refl ltac:(lia))
    as (o1 & Ho1 & _ & Hv1).
  destruct (torch_popvec_eval y_last_of_four [1%nat] 4 eq_refl ltac:(lia))
    as (o2 & Ho2 & _ & Hv2).
  specialize (Hv1 _ Hr). specialize (Hv2 _ Hr). simpl app in Hv2.
  rewrite Ha, Hs, Hc in Hv1, Hv2. unfold fdiv in Hv1, Hv2.
  destruct (Req_EM_T 1 0) as [F|_]; [lra|]. simpl in Hv1, Hv2.
  replace (0 / 1) with 0 in Hv1, Hv2 by field.
  rewrite atan2_neg_axis in Hv1, Hv2 by lra.
  rewrite floor_mod_neg in Hv1 by lra.
  rewrite trunc_mod_small in Hv2 by lra.
  exists o1, o2. split; [exact Ho1|]. split; [exact Ho2|].
  rewrite Hv1, Hv2. split; [f_equal; lra|]. split; [reflexivity|].
  split; [lra|]. intros E. injection E as E. lra.
Qed.


(** *** Further properties of the two read-outs *)






Section PopvecMore.

Import Popvec.

(** An empty last axis: the step of the preferred directions divides by
    zero. *)
Lemma popvec_empty_last (y : tensor R) (s : list nat) :
  shape y = s ++ [0%nat] ->
  popvec y = inl ZeroDivisionError /\ torch_popvec y = inl ZeroDivisionError.
Proof.
  intros Hs.
  assert (Hl : shape_last y = inr 0%nat) by (apply (shape_last_app _ s); exact Hs).
  unfold popvec, torch_popvec. rewrite Hl. cbn [bind].
  unfold py_div. simpl INR. destruct (Req_EM_T 0 0) as [_|F]; [|lra].
  split; reflexivity.
Qed.









End PopvecMore.

(** ** Performance of a read-out *)

Section GetPerf.

Import Popvec.

(** X5. Error behaviour of [get_perf]: an output that is not
    three-dimensional is refused with the ValueError of the function,
    whatever the targets are; with a three-dimensional output, targets
    without entries along the first axis, an empty time axis and an output
    without units raise IndexError; an output with the fixation unit only
    leaves an empty ring, on which the read-out divides by zero. *)
Theorem get_perf_raises :
  (forall s f y_loc, length s <> 3%nat ->
     get_perf (Tensor s f) y_loc =
     inl (ValueError "y_hat must have shape (Time, Batch, Unit)")) /\
  (forall t b u f s g, get_perf (Tensor [t; b; u] f) (Tensor (0%nat :: s) g) = inl IndexError) /\
  (forall t b u f g, get_perf (Tensor [t; b; u] f) (Tensor [] g) = inl IndexError) /\
  (forall b u f n s g,
     get_perf (Tensor [0%nat; b; u] f) (Tensor (S n :: s) g) = inl IndexError) /\
  (forall t b f n s g,
     get_perf (Tensor [S t; b; 0%nat] f) (Tensor (S n :: s) g) = inl IndexError) /\
  (forall t b f n s g,
     get_perf (Tensor [S t; b; 1%nat] f) (Tensor (S n :: s) g) = inl ZeroDivisionError).
Proof.
  refine (conj _ (conj _ (conj _ (conj _ (conj _ _))))).
  - intros s f y_loc Hs. unfold get_perf. cbn [shape].
    destruct (Nat.eqb_spec (length s) 3); [contradiction | reflexivity].
  - intros. reflexivity.
  - intros. reflexivity.
  - intros. reflexivity.
  - intros. reflexivity.
  - intros t b f n s g. unfold get_perf. cbn [shape length Nat.eqb negb].
    cbn [index_last shape bind ret]. unfold select_first_of_last, slice_last_from_1.
    cbn [shape List.last Nat.eqb bind ret removelast app Nat.sub].
    match goal with
    | |- bind (popvec ?r) _ = _ =>
        destruct (popvec_empty_last r [b] eq_refl) as [Hp _]; rewrite Hp
    end.
    reflexivity.
Qed.



End GetPerf.

(** ** The leaky recurrent cell *)

Lemma squeeze0_id {A : Type} (t : tensor A) (n : nat) (s : list nat) :
  shape t = n :: s -> n <> 1%nat -> squeeze0 t = t.
Proof.
  intros Hs Hn. unfold squeeze0. rewrite Hs.
  destruct n as [|[|n]]; [reflexivity | contradiction | reflexivity].
Qed.

Lemma list_nat_eqb_refl (l : list nat) : list_nat_eqb l l = true.
Proof. unfold list_nat_eqb. apply bool_decide_eq_true_2. reflexivity. Qed.

Lemma broadcast_shapes_row (b n : nat) :
  broadcast_shapes [b; n] [n] = Some [b; n].
Proof. apply (broadcast_shapes_last [b] n). Qed.

Lemma in_range_2 (b n i j : nat) :
  (i < b)%nat -> (j < n)%nat -> in_range [b; n] [i; j].
Proof. intros Hi Hj. repeat constructor; assumption. Qed.


(** The update computed by [forward] for a batch of more than one or of no
    sample: every row of the result is the leaky combination of the state
    and the activation of [[x; h] . W + b + eps], with
    [eps = draw * sigma]. *)
Lemma forward_batch_equation (c : LeakyRNNCell.t) (draw : list nat -> R)
    (x h : tensor R) (batch n_in n_hid : nat) :
  shape (LeakyRNNCell.weight c) = [(n_in + n_hid)%nat; n_hid] ->
  shape (LeakyRNNCell.bias c) = [n_hid] ->
  shape x = [batch; n_in] -> shape h = [batch; n_hid] -> batch <> 1%nat ->
  exists out,
    LeakyRNNCell.forward c draw x h = inr (out, out) /\
    shape out = [batch; n_hid] /\
    forall b j, (b < batch)%nat -> (j < n_hid)%nat ->
      val out [b; j] =
      (1 - Q2R (LeakyRNNCell.alpha c)) * val h [b; j] +
      Q2R (LeakyRNNCell.alpha c) *
      LeakyRNNCell.act_fn c
        (Rsum (n_in + n_hid)
              (fun k => xh_entry x h n_in b k * val (LeakyRNNCell.weight c) [k; j])
         + val (LeakyRNNCell.bias c) [j]
         + draw [b; j] * LeakyRNNCell.sigma c).
Proof.
  intros Hw Hb Hx Hh Hbatch. unfold LeakyRNNCell.forward.
  rewrite (squeeze0_id x batch [n_in] Hx Hbatch).
  rewrite (squeeze0_id h batch [n_hid] Hh Hbatch).
  unfold ndim. rewrite Hx. simpl Nat.eqb. cbv iota.
  unfold cat, concat_axis. rewrite Hx, Hh. simpl.
  rewrite list_nat_eqb_refl. simpl.
  unfold matmul. simpl. rewrite Hw. simpl.
  unfold matmul_core. simpl. rewrite Hw. simpl.
  rewrite Nat.eqb_refl. simpl.
  unfold broadcast2. simpl. rewrite Hb, broadcast_shapes_row. simpl.
  rewrite broadcast_shapes_same. simpl.
  rewrite Hh, broadcast_shapes_same. simpl.
  eexists. split; [reflexivity|]. split; [reflexivity|].
  intros b j Hbb Hj. cbn [val tmap].
  assert (Hr : in_range [batch; n_hid] [b; j]) by (apply in_range_2; assumption).
  rewrite !(bindex_in_range _ _ Hr).
  pose proof (bindex_last [b] n_hid j Hj) as Hl. simpl app in Hl. rewrite Hl.
  simpl. unfold xh_entry. reflexivity.
Qed.

(** The same update for a single sample: [squeeze(0)] removes the batch
    axis and the result is one-dimensional. *)
Lemma forward_single_equation (c : LeakyRNNCell.t) (draw : list nat -> R)
    (x h : tensor R) (n_in n_hid : nat) :
  shape (LeakyRNNCell.weight c) = [(n_in + n_hid)%nat; n_hid] ->
  shape (LeakyRNNCell.bias c) = [n_hid] ->
  shape x = [1%nat; n_in] -> shape h = [1%nat; n_hid] ->
  exists out,
    LeakyRNNCell.forward c draw x h = inr (out, out) /\
    shape out = [n_hid] /\
    forall j, (j < n_hid)%nat ->
      val out [j] =
      (1 - Q2R (LeakyRNNCell.alpha c)) * val h [0%nat; j] +
      Q2R (LeakyRNNCell.alpha c) *
      LeakyRNNCell.act_fn c
        (Rsum (n_in + n_hid)
              (fun k => xh_entry x h n_in 0 k * val (LeakyRNNCell.weight c) [k; j])
         + val (LeakyRNNCell.bias c) [j]
         + draw [j] * LeakyRNNCell.sigma c).
Proof.
  intros Hw Hb Hx Hh. unfold LeakyRNNCell.forward, squeeze0, ndim.
  rewrite Hx, Hh. simpl.
  unfold cat, concat_axis. simpl.
  rewrite ?list_nat_eqb_refl. simpl.
  unfold matmul. simpl. rewrite Hw. simpl.
  unfold matmul_core. simpl. rewrite Hw. simpl.
  rewrite Nat.eqb_refl. simpl.
  unfold broadcast2. simpl. rewrite Hb, broadcast_shapes_same. simpl.
  rewrite broadcast_shapes_same. simpl.
  rewrite broadcast_shapes_same. simpl.
  eexists. split; [reflexivity|]. split; [reflexivity|].
  intros j Hj. cbn [val tmap].
  assert (Hr : in_range [n_hid] [j]) by (repeat constructor; exact Hj).
  rewrite !(bindex_in_range _ _ Hr).
  simpl. unfold xh_entry. reflexivity.
Qed.

(** *** Construction *)

Lemma sizes_of_nat (l : list nat) : sizes (map Z.of_nat l) = Some l.
Proof.
  unfold sizes.
  assert (H : forallb (fun z => (0 <=? z)%Z) (map Z.of_nat l) = true).
  { apply forallb_forall. intros z Hz. apply in_map_iff in Hz.
    destruct Hz as (n & <- & _). apply Z.leb_le. lia. }
  rewrite H. f_equal.
  induction l as [|n l IH]; [reflexivity|].
  cbn [map]. rewrite Nat2Z.id. f_equal. apply IH.
  apply forallb_forall. intros z Hz. apply in_map_iff in Hz.
  destruct Hz as (m & <- & _). apply Z.leb_le. lia.
Qed.

Lemma Qdiv_py_nonzero (a b : Q) : ~ (b == 0)%Q -> Qdiv_py a b = inr (a / b)%Q.
Proof.
  intros Hb. unfold Qdiv_py. destruct (Qeq_bool b 0) eqn:E; [|reflexivity].
  apply Qeq_bool_iff in E. contradiction.
Qed.

(** The cell built with [w_rec_init = 'diag']: the stored weight is the
    transpose of the concatenation of the scaled input block and the
    scaled identity. *)
Lemma init_diag_eval (tools : option tools_module)
    (n_in n_hid : nat) (alpha sigma_rec : Q) (activation : string)
    (rng : RandomState) (f : R -> R) (wi wr : R) :
  ~ (alpha == 0)%Q ->
  LeakyRNNCell.select_activation activation = inr (f, wi, wr) ->
  exists c,
    LeakyRNNCell.__init__ tools (Z.of_nat n_in) (Z.of_nat n_hid) alpha sigma_rec
                      activation "diag" rng = inr c /\
    LeakyRNNCell.alpha c = alpha /\
    LeakyRNNCell.sigma c = sqrt (Q2R (2 / alpha)) * Q2R sigma_rec /\
    LeakyRNNCell.act_fn c = f /\
    LeakyRNNCell._w_rec_start c = wr /\
    shape (LeakyRNNCell.weight c) = [n_hid; (n_in + n_hid)%nat] /\
    (forall r k, (r < n_hid)%nat -> (k < n_in + n_hid)%nat ->
       val (LeakyRNNCell.weight c) [r; k] =
       if (k <? n_in)%nat
       then stream rng (drawn rng) [k; r] / sqrt (INR n_in) * wi
       else wr * (if (k - n_in =? r)%nat then 1 else 0)) /\
    shape (LeakyRNNCell.bias c) = [n_hid] /\
    (forall idx, val (LeakyRNNCell.bias c) idx = 0).
Proof.
  intros Ha Hact. unfold LeakyRNNCell.__init__.
  rewrite (Qdiv_py_nonzero 2 alpha Ha). cbn [bind].
  rewrite Hact. cbn [bind].
  unfold randn.
  change [Z.of_nat n_in; Z.of_nat n_hid] with (map Z.of_nat [n_in; n_hid]).
  rewrite (sizes_of_nat [n_in; n_hid]). cbn [bind ret].
  cbn [String.eqb Ascii.eqb Bool.eqb]. cbn [bind ret].
  unfold np_concatenate, concat_axis. cbn [tmap shape eye].
  rewrite Nat2Z.id. simpl lookup. simpl insert. rewrite list_nat_eqb_refl.
  cbn [bind ret].
  eexists. split; [reflexivity|]. cbn.
  repeat (split; [reflexivity|]).
  split; [|split; [reflexivity | intros; reflexivity]].
  intros r k Hr Hk. rewrite <- INR_IZR_INZ.
  destruct (k <? n_in)%nat; reflexivity.
Qed.


Lemma select_activation_supported (activation : string) :
  In activation ["softplus"; "tanh"; "relu"; "power"; "retanh"] ->
  exists f wi,
    LeakyRNNCell.select_activation activation =
    inr (f, wi, spec_w_rec_start activation).
Proof.
  intros H. simpl in H.
  destruct H as [<-|[<-|[<-|[<-|[<-|[]]]]]]; eexists; eexists; reflexivity.
Qed.

(** C7. A cell constructed with [w_rec_init = 'diag'] (a nonzero leak
    factor and one of the five supported activations, so that construction
    succeeds) has, as the recurrent block of its initial weight, the
    [hidden_size] identity scaled by [w_rec_start]: 0.5 for softplus, relu
    and retanh, 1.0 for tanh, 0.01 for power.  The weight is stored
    transposed, so the block occupies the columns from [input_size] on.  The
    initial bias is the zero vector of length [hidden_size]. *)
Theorem diag_init_recurrent_block
    (tools : option tools_module) (n_in n_hid : nat)
    (alpha sigma_rec : Q) (activation : string) (rng : RandomState) :
  ~ (alpha == 0)%Q ->
  In activation ["softplus"; "tanh"; "relu"; "power"; "retanh"] ->
  exists c,
    LeakyRNNCell.__init__ tools (Z.of_nat n_in) (Z.of_nat n_hid) alpha sigma_rec
                      activation "diag" rng = inr c /\
    shape (LeakyRNNCell.weight c) = [n_hid; (n_in + n_hid)%nat] /\
    (forall r k, (r < n_hid)%nat -> (k < n_hid)%nat ->
       val (LeakyRNNCell.weight c) [r; (n_in + k)%nat] =
       spec_w_rec_start activation * (if (r =? k)%nat then 1 else 0)) /\
    shape (LeakyRNNCell.bias c) = [n_hid] /\
    (forall j, (j < n_hid)%nat -> val (LeakyRNNCell.bias c) [j] = 0).
Proof.
  intros Ha Hact.
  destruct (select_activation_supported activation Hact) as (f & wi & Hsel).
  destruct (init_diag_eval tools n_in n_hid alpha sigma_rec activation rng
              f wi (spec_w_rec_start activation) Ha Hsel)
    as (c & Hc & _ & _ & _ & _ & Hws & Hwv & Hbs & Hbv).
  exists c. split; [exact Hc|]. split; [exact Hws|].
  split; [|split; [exact Hbs | intros j _; apply Hbv]].
  intros r k Hr Hk. rewrite (Hwv r (n_in + k)%nat) by lia.
  destruct (Nat.ltb_spec (n_in + k) n_in) as [F|_]; [lia|].
  replace (n_in + k - n_in)%nat with k by lia.
  rewrite (Nat.eqb_sym k r). reflexivity.
Qed.


Lemma diag_init_recurrent_block_witness :
  exists c,
    LeakyRNNCell.__init__ None (Z.of_nat 1) (Z.of_nat 2) (1 # 5) 0
                      "tanh" "diag" zero_stream = inr c /\
    shape (LeakyRNNCell.weight c) = [2%nat; (1 + 2)%nat] /\
    (forall r k, (r < 2)%nat -> (k < 2)%nat ->
       val (LeakyRNNCell.weight c) [r; (1 + k)%nat] =
       spec_w_rec_start "tanh" * (if (r =? k)%nat then 1 else 0)) /\
    shape (LeakyRNNCell.bias c) = [2%nat] /\
    (forall j, (j < 2)%nat -> val (LeakyRNNCell.bias c) [j] = 0).
Proof.
  apply (diag_init_recurrent_block None 1 2 (1 # 5) 0 "tanh" zero_stream).
  - intros H. discriminate H.
  - simpl. tauto.
Defined.

(** Inversion of a successful [bind]. *)
Ltac inv_bind H :=
  match type of H with
  | bind ?m _ = inr _ =>
      let E := fresh "E" in
      destruct m eqn:E; [discriminate H | cbn [bind] in H]
  end.

Lemma concat_axis0_shape {A : Type} (err : exn) (a b c : tensor A) (p q : nat) :
  shape a = [p; q] -> concat_axis err 0 a b = inr c ->
  exists nb, shape c = [(p + nb)%nat; q].
Proof.
  intros Ha H. unfold concat_axis in H. rewrite Ha in H. simpl lookup in H.
  destruct (shape b !! 0%nat) as [nb|]; [|discriminate H].
  destruct (list_nat_eqb _ _); [|discriminate H].
  injection H as <-. exists nb. reflexivity.
Qed.

Lemma sizes_some (dims : list Z) (s : list nat) :
  sizes dims = Some s -> s = map Z.to_nat dims /\ Forall (fun z => (0 <= z)%Z) dims.
Proof.
  unfold sizes. destruct (forallb _ dims) eqn:E; [|discriminate].
  intros H. injection H as <-. split; [reflexivity|].
  apply Forall_forall. intros z Hz.
  apply Z.leb_le. apply (proj1 (forallb_forall _ dims) E).
  apply list_elem_of_In. exact Hz.
Qed.

(** Whatever the initialisation scheme, a constructed cell stores a weight
    with [hidden_size] rows. *)
Lemma init_weight_shape (tools : option tools_module)
    (n_in n_hid : Z) (alpha sigma_rec : Q) (activation w_rec_init : string)
    (rng : RandomState) (c : LeakyRNNCell.t) :
  LeakyRNNCell.__init__ tools n_in n_hid alpha sigma_rec activation w_rec_init rng = inr c ->
  (0 <= n_in)%Z /\ (0 <= n_hid)%Z /\
  exists a, shape (LeakyRNNCell.weight c) = [Z.to_nat n_hid; (Z.to_nat n_in + a)%nat].
Proof.
  intros H. unfold LeakyRNNCell.__init__ in H.
  inv_bind H. inv_bind H. destruct p as [[f wi] wr].
  inv_bind H. destruct p as [g rng1].
  unfold randn in E1. destruct (sizes [n_in; n_hid]) as [s|] eqn:Hs; [|discriminate E1].
  injection E1 as <- <-.
  destruct (sizes_some _ _ Hs) as [-> Hpos]. simpl map in H.
  inv_bind H. destruct p as [w_rec0 rng2].
  inv_bind H. injection H as <-. cbn [LeakyRNNCell.weight].
  unfold np_concatenate in E2.
  apply (concat_axis0_shape _ _ _ _ (Z.to_nat n_in) (Z.to_nat n_hid)) in E2;
    [|reflexivity].
  destruct E2 as [nb Hnb].
  inversion Hpos as [|? ? Hi Hrest]; subst. inversion Hrest as [|? ? Hh _]; subst.
  split; [exact Hi|]. split; [exact Hh|].
  exists nb. unfold transpose. cbn [shape]. rewrite Hnb. reflexivity.
Qed.

(** *** The stored weight against the product of [forward] *)

Lemma forward_transposed_weight (c : LeakyRNNCell.t) (draw : list nat -> R)
    (x h : tensor R) (batch n_in n_hid cols : nat) :
  shape (LeakyRNNCell.weight c) = [n_hid; cols] ->
  (0 < n_in)%nat ->
  shape x = [batch; n_in] -> shape h = [batch; n_hid] ->
  LeakyRNNCell.forward c draw x h = inl RuntimeError.
Proof.
  intros Hw Hin Hx Hh.
  assert (Hne : ((n_in + n_hid)%nat =? n_hid)%nat = false)
    by (apply Nat.eqb_neq; lia).
  unfold LeakyRNNCell.forward, squeeze0, ndim. rewrite Hx, Hh.
  destruct (Nat.eq_dec batch 1%nat) as [->|Hb].
  - simpl. unfold cat, concat_axis. simpl.
    unfold matmul. simpl. rewrite Hw. simpl.
    unfold matmul_core. simpl. rewrite Hw. simpl. rewrite Hne. reflexivity.
  - assert (E : forall (A : Type) (t : tensor A) (n : nat),
               match [batch; n] with
               | 1%nat :: s => Tensor s (fun idx => val t (0%nat :: idx))
               | _ => t
               end = t).
    { intros A t n. destruct batch as [|[|k]]; [reflexivity | contradiction | reflexivity]. }
    rewrite !E, Hx. simpl.
    unfold cat, concat_axis. rewrite Hx, Hh. simpl.
    rewrite list_nat_eqb_refl. simpl.
    unfold matmul. simpl. rewrite Hw. simpl.
    unfold matmul_core. simpl. rewrite Hw. simpl. rewrite Hne. reflexivity.
Qed.

(** C1 (evaluation on constructed cells). A cell built by [__init__]
    stores its weight transposed, with [hidden_size] rows, while [forward]
    multiplies the concatenation [[x; h]], of width
    [input_size + hidden_size], by that weight.  With a positive
    [input_size] the two sizes differ: for every input of shape
    [(batch, input_size)] and state of shape [(batch, hidden_size)] the call
    raises instead of returning the updated state. *)
Theorem forward_raises_on_constructed_cell
    (tools : option tools_module) (n_in n_hid : Z)
    (alpha sigma_rec : Q) (activation w_rec_init : string) (rng : RandomState)
    (c : LeakyRNNCell.t) (draw : list nat -> R) (x h : tensor R) (batch : nat) :
  LeakyRNNCell.__init__ tools n_in n_hid alpha sigma_rec activation w_rec_init rng
  = inr c ->
  (0 < n_in)%Z ->
  shape x = [batch; Z.to_nat n_in] -> shape h = [batch; Z.to_nat n_hid] ->
  LeakyRNNCell.forward c draw x h = inl RuntimeError.
Proof.
  intros Hc Hin Hx Hh.
  destruct (init_weight_shape _ _ _ _ _ _ _ _ _ Hc) as (_ & _ & a & Hw).
  apply (forward_transposed_weight c draw x h batch (Z.to_nat n_in) (Z.to_nat n_hid)
           (Z.to_nat n_in + a) Hw); [lia | exact Hx | exact Hh].
Qed.

Lemma forward_raises_on_constructed_cell_witness :
  exists c,
    LeakyRNNCell.__init__ None 1 2 (1 # 5) 0 "softplus" "diag" zero_stream = inr c /\
    LeakyRNNCell.forward c (fun _ => 0) (zeros [2%nat; 1%nat]) (zeros [2%nat; 2%nat])
    = inl RuntimeError.
Proof.
  destruct (init_diag_eval None 1 2 (1 # 5) 0 "softplus" zero_stream softplus 1 (1 / 2))
    as (c & Hc & _); [intros H; discriminate H | reflexivity |].
  exists c. split; [exact Hc|].
  apply (forward_raises_on_constructed_cell None 1 2 (1 # 5) 0
           "softplus" "diag" zero_stream c (fun _ => 0)
           (zeros [2%nat; 1%nat]) (zeros [2%nat; 2%nat]) 2 Hc).
  - lia.
  - reflexivity.
  - reflexivity.
Defined.

(** On the row layout the call returns. *)
Example forward_on_row_layout :
  exists out,
    LeakyRNNCell.forward cell_row_layout (fun _ => 0)
                         (zeros [2%nat; 1%nat]) (zeros [2%nat; 2%nat])
    = inr (out, out) /\
    shape out = [2%nat; 2%nat].
Proof.
  destruct (forward_batch_equation cell_row_layout (fun _ => 0)
              (zeros [2%nat; 1%nat]) (zeros [2%nat; 2%nat]) 2 1 2)
    as (out & Hout & Hsh & _); try reflexivity; [lia|].
  exists out. split; assumption.
Qed.


(** With [sigma_rec = 0] the noise scale of a constructed cell is zero, so
    the injected noise [draw * sigma] vanishes. *)
Lemma init_noise_scale (tools : option tools_module)
    (n_in n_hid : Z) (alpha sigma_rec : Q) (activation w_rec_init : string)
    (rng : RandomState) (c : LeakyRNNCell.t) :
  LeakyRNNCell.__init__ tools n_in n_hid alpha sigma_rec activation w_rec_init rng
  = inr c ->
  LeakyRNNCell.alpha c = alpha /\
  LeakyRNNCell.sigma c = sqrt (Q2R (2 / alpha)) * Q2R sigma_rec /\
  ((sigma_rec == 0)%Q -> forall z, z * LeakyRNNCell.sigma c = 0).
Proof.
  intros H. unfold LeakyRNNCell.__init__ in H.
  unfold Qdiv_py in H. destruct (Qeq_bool alpha 0); [discriminate H|].
  cbn [bind ret] in H.
  destruct (LeakyRNNCell.select_activation activation) as [e|[[f wi] wr]];
    [discriminate H|]. cbn [bind] in H.
  destruct (randn rng [n_in; n_hid]) as [e|[g rng1]]; [discriminate H|].
  cbn [bind] in H.
  match type of H with
  | bind ?m _ = _ => destruct m as [e|[w_rec0 rng2]]; [discriminate H|]
  end.
  cbn [bind] in H.
  match type of H with
  | bind ?m _ = _ => destruct m as [e|matrix0]; [discriminate H|]
  end.
  cbn [bind ret] in H. injection H as <-. cbn.
  split; [reflexivity|]. split; [reflexivity|].
  intros Hz z. rewrite (Qeq_eqR _ _ Hz). unfold Q2R at 2. simpl. lra.
Qed.

(** ** Further properties of the recurrent cells *)

(** X7. On a weight with the row layout (one row per entry of [[x; h]]),
    [LeakyRNNCell.forward] returns the leaky update twice.  A batch of one
    sample is squeezed: its result has no batch axis; every other batch
    size keeps the shape of the state. *)
Theorem leaky_forward_row_layout (c : LeakyRNNCell.t) (draw : list nat -> R)
    (x h : tensor R) (batch n_in n_hid : nat) :
  shape (LeakyRNNCell.weight c) = [(n_in + n_hid)%nat; n_hid] ->
  shape (LeakyRNNCell.bias c) = [n_hid] ->
  shape x = [batch; n_in] -> shape h = [batch; n_hid] ->
  exists out,
    LeakyRNNCell.forward c draw x h = inr (out, out) /\
    (batch <> 1%nat ->
     shape out = [batch; n_hid] /\
     forall b j, (b < batch)%nat -> (j < n_hid)%nat ->
       val out [b; j] =
       (1 - Q2R (LeakyRNNCell.alpha c)) * val h [b; j] +
       Q2R (LeakyRNNCell.alpha c) *
       LeakyRNNCell.act_fn c
         (Rsum (n_in + n_hid)
               (fun k => xh_entry x h n_in b k * val (LeakyRNNCell.weight c) [k; j])
          + val (LeakyRNNCell.bias c) [j]
          + draw [b; j] * LeakyRNNCell.sigma c)) /\
    (batch = 1%nat ->
     shape out = [n_hid] /\
     forall j, (j < n_hid)%nat ->
       val out [j] =
       (1 - Q2R (LeakyRNNCell.alpha c)) * val h [0%nat; j] +
       Q2R (LeakyRNNCell.alpha c) *
       LeakyRNNCell.act_fn c
         (Rsum (n_in + n_hid)
               (fun k => xh_entry x h n_in 0 k * val (LeakyRNNCell.weight c) [k; j])
          + val (LeakyRNNCell.bias c) [j]
          + draw [j] * LeakyRNNCell.sigma c)).
Proof.
  intros Hw Hb Hx Hh.
  destruct (Nat.eq_dec batch 1%nat) as [E|E].
  - subst batch.
    destruct (forward_single_equation c draw x h n_in n_hid Hw Hb Hx Hh)
      as (out & Hout & Hsh & Hv).
    exists out. split; [exact Hout|]. split; [intros F; contradiction|].
    intros _. split; assumption.
  - destruct (forward_batch_equation c draw x h batch n_in n_hid Hw Hb Hx Hh E)
      as (out & Hout & Hsh & Hv).
    exists out. split; [exact Hout|]. split; [|intros F; contradiction].
    intros _. split; assumption.
Qed.

Lemma leaky_forward_row_layout_witness :
  exists out,
    LeakyRNNCell.forward cell_row_layout (fun _ => 0)
      (zeros [2%nat; 1%nat]) (zeros [2%nat; 2%nat]) = inr (out, out) /\
    (2%nat <> 1%nat ->
     shape out = [2%nat; 2%nat] /\
     forall b j, (b < 2)%nat -> (j < 2)%nat ->
       val out [b; j] =
       (1 - Q2R (LeakyRNNCell.alpha cell_row_layout)) * val (zeros [2%nat; 2%nat]) [b; j] +
       Q2R (LeakyRNNCell.alpha cell_row_layout) *
       LeakyRNNCell.act_fn cell_row_layout
         (Rsum (1 + 2)
               (fun k => xh_entry (zeros [2%nat; 1%nat]) (zeros [2%nat; 2%nat]) 1 b k *
                         val (LeakyRNNCell.weight cell_row_layout) [k; j])
          + val (LeakyRNNCell.bias cell_row_layout) [j]
          + (fun _ : list nat => 0) [b; j] * LeakyRNNCell.sigma cell_row_layout)) /\
    (2%nat = 1%nat ->
     shape out = [2%nat] /\
     forall j, (j < 2)%nat ->
       val out [j] =
       (1 - Q2R (LeakyRNNCell.alpha cell_row_layout)) * val (zeros [2%nat; 2%nat]) [0%nat; j] +
       Q2R (LeakyRNNCell.alpha cell_row_layout) *
       LeakyRNNCell.act_fn cell_row_layout
         (Rsum (1 + 2)
               (fun k => xh_entry (zeros [2%nat; 1%nat]) (zeros [2%nat; 2%nat]) 1 0 k *
                         val (LeakyRNNCell.weight cell_row_layout) [k; j])
          + val (LeakyRNNCell.bias cell_row_layout) [j]
          + (fun _ : list nat => 0) [j] * LeakyRNNCell.sigma cell_row_layout)).
Proof.
  apply (leaky_forward_row_layout cell_row_layout (fun _ => 0)
           (zeros [2%nat; 1%nat]) (zeros [2%nat; 2%nat]) 2 1 2);
    reflexivity.
Defined.


(** *** Construction: the initialisation scheme *)

Lemma eqb_not_in (s : string) (l : list string) (a : string) :
  ~ In s l -> In a l -> String.eqb s a = false.
Proof.
  intros Hn Ha. apply String.eqb_neq. intros ->. contradiction.
Qed.

Lemma sizes_nonneg2 (a b : Z) :
  (0 <= a)%Z -> (0 <= b)%Z -> sizes [a; b] = Some [Z.to_nat a; Z.to_nat b].
Proof.
  intros Ha Hb. unfold sizes. simpl forallb.
  rewrite (proj2 (Z.leb_le 0 a) Ha), (proj2 (Z.leb_le 0 b) Hb). reflexivity.
Qed.

Lemma select_activation_both (activation : string) :
  In activation ["softplus"; "relu"] ->
  exists f, LeakyRNNCell.select_activation activation = inr (f, 1, 1 / 2) /\
            f = (if String.eqb activation "softplus" then softplus else relu).
Proof.
  intros [<-|[<-|[]]]; eexists; split; reflexivity.
Qed.

(** X9. The branch on [w_rec_init].  With a name other than the three the
    cells know, [LeakyRNNCell.__init__] has no branch that binds [w_rec0]
    and fails with UnboundLocalError where it reads the name, while
    [LeakyRNNCellSeparateInput.__init__] raises the ValueError of its
    [else] branch.  With ['randortho'] both cells call [tools], a name the
    module never binds: NameError. *)
Theorem w_rec_init_failures (tools : option tools_module) (n_in n_hid : Z)
    (alpha sigma_rec : Q) (activation w_rec_init : string) (rng : RandomState) :
  ~ (alpha == 0)%Q -> In activation ["softplus"; "relu"] ->
  (0 <= n_in)%Z -> (0 <= n_hid)%Z ->
  (~ In w_rec_init ["diag"; "randortho"; "randgauss"] ->
   LeakyRNNCell.__init__ tools n_in n_hid alpha sigma_rec activation w_rec_init rng
   = inl (UnboundLocalError "w_rec0") /\
   LeakyRNNCellSeparateInput.__init__ tools n_hid alpha sigma_rec activation w_rec_init rng
   = inl (ValueError "")) /\
  (LeakyRNNCell.__init__ None n_in n_hid alpha sigma_rec activation "randortho" rng
   = inl (NameError "tools") /\
   LeakyRNNCellSeparateInput.__init__ None n_hid alpha sigma_rec activation "randortho" rng
   = inl (NameError "tools")).
Proof.
  intros Ha Hact Hin Hhid.
  destruct (select_activation_both activation Hact) as (f & Hsel & _).
  assert (Hsep : (if String.eqb activation "softplus" then ret (softplus, 1 / 2)
                  else if String.eqb activation "relu" then ret (relu, 1 / 2)
                  else raise (ValueError "Unknown activation"))
                 = (inr ((if String.eqb activation "softplus" then softplus else relu),
                         1 / 2) : res ((R -> R) * R))).
  { destruct Hact as [<-|[<-|[]]]; reflexivity. }
  split.
  - intros Hw.
    assert (E1 : String.eqb w_rec_init "diag" = false)
      by (apply (eqb_not_in _ _ _ Hw); simpl; tauto).
    assert (E2 : String.eqb w_rec_init "randortho" = false)
      by (apply (eqb_not_in _ _ _ Hw); simpl; tauto).
    assert (E3 : String.eqb w_rec_init "randgauss" = false)
      by (apply (eqb_not_in _ _ _ Hw); simpl; tauto).
    split.
    + unfold LeakyRNNCell.__init__.
      rewrite (Qdiv_py_nonzero 2 alpha Ha). cbn [bind]. rewrite Hsel. cbn [bind].
      unfold randn. rewrite (sizes_nonneg2 n_in n_hid Hin Hhid). cbn [bind ret].
      rewrite E1, E2, E3. reflexivity.
    + unfold LeakyRNNCellSeparateInput.__init__.
      rewrite (Qdiv_py_nonzero 2 alpha Ha). cbn [bind]. rewrite Hsep. cbn [bind].
      rewrite E1, E2, E3. reflexivity.
  - split.
    + unfold LeakyRNNCell.__init__.
      rewrite (Qdiv_py_nonzero 2 alpha Ha). cbn [bind]. rewrite Hsel. cbn [bind].
      unfold randn. rewrite (sizes_nonneg2 n_in n_hid Hin Hhid). reflexivity.
    + unfold LeakyRNNCellSeparateInput.__init__.
      rewrite (Qdiv_py_nonzero 2 alpha Ha). cbn [bind]. rewrite Hsep. reflexivity.
Qed.

Lemma w_rec_init_failures_witness :
  (~ In "identity" ["diag"; "randortho"; "randgauss"] ->
   LeakyRNNCell.__init__ None 1 2 (1 # 5) 0 "relu" "identity" zero_stream
   = inl (UnboundLocalError "w_rec0") /\
   LeakyRNNCellSeparateInput.__init__ None 2 (1 # 5) 0 "relu" "identity" zero_stream
   = inl (ValueError "")) /\
  (LeakyRNNCell.__init__ None 1 2 (1 # 5) 0 "relu" "randortho" zero_stream
   = inl (NameError "tools") /\
   LeakyRNNCellSeparateInput.__init__ None 2 (1 # 5) 0 "relu" "randortho" zero_stream
   = inl (NameError "tools")).
Proof.
  apply (w_rec_init_failures None 1 2 (1 # 5) 0 "relu" "identity" zero_stream).
  - intros H. discriminate H.
  - simpl. tauto.
  - lia.
  - lia.
Defined.

(** X10. ['randgauss'] initialisation.  The cell draws two normal arrays
    from its generator, in this order: the input block and the recurrent
    block.  The stored weight is the transpose of their concatenation: in
    row [r] the first [input_size] columns hold the first array scaled by
    [1 / sqrt(input_size)], the others the second array scaled by
    [w_rec_start / sqrt(hidden_size)]. *)
Theorem leaky_init_randgauss (tools : option tools_module) (n_in n_hid : nat)
    (alpha sigma_rec : Q) (activation : string) (rng : RandomState) :
  ~ (alpha == 0)%Q ->
  In activation ["softplus"; "tanh"; "relu"; "power"; "retanh"] ->
  exists c,
    LeakyRNNCell.__init__ tools (Z.of_nat n_in) (Z.of_nat n_hid) alpha sigma_rec
                          activation "randgauss" rng = inr c /\
    shape (LeakyRNNCell.weight c) = [n_hid; (n_in + n_hid)%nat] /\
    (forall r k, (r < n_hid)%nat -> (k < n_in)%nat ->
       val (LeakyRNNCell.weight c) [r; k] =
       stream rng (drawn rng) [k; r] / sqrt (INR n_in) * 1) /\
    (forall r k, (r < n_hid)%nat -> (k < n_hid)%nat ->
       val (LeakyRNNCell.weight c) [r; (n_in + k)%nat] =
       spec_w_rec_start activation * stream rng (S (drawn rng)) [k; r] / sqrt (INR n_hid)) /\
    drawn (LeakyRNNCell.rng c) = S (S (drawn rng)) /\
    stream (LeakyRNNCell.rng c) = stream rng.
Proof.
  intros Ha Hact.
  assert (Hsel : exists f, LeakyRNNCell.select_activation activation
                           = inr (f, 1, spec_w_rec_start activation)).
  { simpl in Hact.
    destruct Hact as [<-|[<-|[<-|[<-|[<-|[]]]]]]; eexists; reflexivity. }
  destruct Hsel as [f Hsel].
  unfold LeakyRNNCell.__init__.
  rewrite (Qdiv_py_nonzero 2 alpha Ha). cbn [bind].
  rewrite Hsel. cbn [bind].
  unfold randn.
  change [Z.of_nat n_in; Z.of_nat n_hid] with (map Z.of_nat [n_in; n_hid]).
  rewrite (sizes_of_nat [n_in; n_hid]). cbn [bind ret].
  cbn [String.eqb Ascii.eqb Bool.eqb]. cbn [bind ret].
  change [Z.of_nat n_hid; Z.of_nat n_hid] with (map Z.of_nat [n_hid; n_hid]).
  rewrite (sizes_of_nat [n_hid; n_hid]). cbn [bind ret].
  unfold np_concatenate, concat_axis. cbn [tmap shape].
  simpl lookup. simpl insert. rewrite list_nat_eqb_refl.
  cbn [bind ret].
  eexists. split; [reflexivity|]. cbn.
  split; [reflexivity|].
  split; [|split; [|split; reflexivity]].
  - intros r k Hr Hk. rewrite <- INR_IZR_INZ.
    pose proof (proj2 (Nat.ltb_lt k n_in) Hk) as E.
    unfold Nat.ltb in E. simpl in E. rewrite E. reflexivity.
  - intros r k Hr Hk. rewrite <- !INR_IZR_INZ.
    assert (E : (n_in + k <? n_in)%nat = false) by (apply Nat.ltb_ge; lia).
    unfold Nat.ltb in E. simpl in E. rewrite E.
    replace (n_in + k - n_in)%nat with k by lia. reflexivity.
Qed.

Lemma leaky_init_randgauss_witness :
  exists c,
    LeakyRNNCell.__init__ None (Z.of_nat 1) (Z.of_nat 2) (1 # 5) 0
                          "tanh" "randgauss" zero_stream = inr c /\
    shape (LeakyRNNCell.weight c) = [2%nat; (1 + 2)%nat] /\
    (forall r k, (r < 2)%nat -> (k < 1)%nat ->
       val (LeakyRNNCell.weight c) [r; k] =
       stream zero_stream (drawn zero_stream) [k; r] / sqrt (INR 1) * 1) /\
    (forall r k, (r < 2)%nat -> (k < 2)%nat ->
       val (LeakyRNNCell.weight c) [r; (1 + k)%nat] =
       spec_w_rec_start "tanh" * stream zero_stream (S (drawn zero_stream)) [k; r]
       / sqrt (INR 2)) /\
    drawn (LeakyRNNCell.rng c) = S (S (drawn zero_stream)) /\
    stream (LeakyRNNCell.rng c) = stream zero_stream.
Proof.
  apply (leaky_init_randgauss None 1 2 (1 # 5) 0 "tanh" zero_stream).
  - intros H. discriminate H.
  - simpl. tauto.
Defined.

(** *** The cell with separate inputs *)




(** X11. The cell with separate inputs knows two activations only: every
    other name, the names ['tanh'], ['power'] and ['retanh'] of the fused
    cell included, is refused with ValueError('Unknown activation'),
    whatever the other arguments are. *)
Theorem separate_init_rejects_activation (tools : option tools_module)
    (hidden_size : Z) (alpha sigma_rec : Q) (activation w_rec_init : string)
    (rng : RandomState) :
  ~ (alpha == 0)%Q -> ~ In activation ["softplus"; "relu"] ->
  LeakyRNNCellSeparateInput.__init__ tools hidden_size alpha sigma_rec
    activation w_rec_init rng = inl (ValueError "Unknown activation").
Proof.
  intros Ha Hact. unfold LeakyRNNCellSeparateInput.__init__.
  rewrite (Qdiv_py_nonzero 2 alpha Ha). cbn [bind].
  rewrite (eqb_not_in activation _ "softplus" Hact) by (simpl; tauto).
  rewrite (eqb_not_in activation _ "relu" Hact) by (simpl; tauto).
  reflexivity.
Qed.

Lemma separate_init_rejects_activation_witness :
  LeakyRNNCellSeparateInput.__init__ None 2 (1 # 5) 0 "tanh" "diag" zero_stream
  = inl (ValueError "Unknown activation").
Proof.
  apply (separate_init_rejects_activation None 2 (1 # 5) 0 "tanh" "diag" zero_stream).
  - intros H. discriminate H.
  - simpl. intros [H|[H|[]]]; discriminate H.
Defined.

(** *** The leaky gated cell *)






(** X14. A single sample cannot be evaluated by [LeakyGRUCell.forward]:
    [squeeze(0)] removes the batch axis of size one, the gates are then
    one-dimensional and [gates.chunk(2, 1)] addresses an axis that does not
    exist. *)
Theorem gru_forward_single_sample_raises (c : LeakyGRUCell.t) (l : LeakyGRUCell.layers)
    (F_elem : string -> R -> R) (draw : list nat -> R) (x h : tensor R)
    (n_in n_hid : nat) :
  gru_layers_shaped l n_in n_hid ->
  shape x = [1%nat; n_in] -> shape h = [1%nat; n_hid] ->
  LeakyGRUCell.forward c l F_elem draw x h = inl IndexError.
Proof.
  intros (Hgw & Hgb & Hcw & Hcb) Hx Hh. unfold LeakyGRUCell.forward.
  assert (E2 : (2 * n_hid = n_hid + n_hid)%nat) by lia. rewrite E2 in Hgw, Hgb.
  unfold squeeze0, ndim. rewrite Hx, Hh. simpl.
  unfold cat, concat_axis. simpl.
  rewrite ?list_nat_eqb_refl. simpl.
  unfold linear, matmul, transpose. simpl. rewrite Hgw. simpl.
  unfold matmul_core. simpl. rewrite Nat.eqb_refl. simpl.
  unfold broadcast2 at 1. simpl. rewrite Hgb, broadcast_shapes_same. simpl.
  reflexivity.
Qed.

Lemma gru_example_layers_shaped : gru_layers_shaped gru_example_layers 1 2.
Proof. repeat split. Qed.


Lemma gru_forward_single_sample_raises_witness :
  LeakyGRUCell.forward gru_example_cell gru_example_layers (fun _ x => x) (fun _ => 0)
    (zeros [1%nat; 1%nat]) (zeros [1%nat; 2%nat]) = inl IndexError.
Proof.
  apply (gru_forward_single_sample_raises gru_example_cell gru_example_layers
           (fun _ x => x) (fun _ => 0) (zeros [1%nat; 1%nat]) (zeros [1%nat; 2%nat]) 1 2).
  - exact gru_example_layers_shaped.
  - reflexivity.
  - reflexivity.
Defined.

(** ** Construction of the network *)






Lemma Linear_with_bias (env : module_env) (prefix : string) (i o : Z)
    (ps : list (string * tensor R)) :
  Linear env prefix i o true = inr ps ->
  ps = [(prefix +:+ ".weight",
         Tensor [Z.to_nat o; Z.to_nat i] (env_param_init env (prefix +:+ ".weight")));
        (prefix +:+ ".bias",
         Tensor [Z.to_nat o] (env_param_init env (prefix +:+ ".bias")))].
Proof.
  unfold Linear. destruct (sizes [o; i]) as [s|] eqn:Hs; [|discriminate].
  destruct (sizes_some _ _ Hs) as [-> _]. simpl. intros H. injection H as <-.
  reflexivity.
Qed.

(** The shape checks on the parameters of a fused leaky network: with a
    positive [n_input] the slice [param[n_input:, :]] of a weight with
    [n_rnn] rows can not have [n_rnn] rows and [n_rnn] columns, so one of
    the checks raises. *)
Lemma set_weights_fused_leaky_raises (hp : hparams) (n_in n_rnn n_out : Z)
    (W b Wo bo : tensor R) (a : nat) :
  hp !! "n_input" = Some (HInt n_in) -> (0 < n_in)%Z ->
  get_int hp "n_rnn" = inr n_rnn -> (0 <= n_rnn)%Z ->
  get_int hp "n_output" = inr n_out ->
  shape W = [Z.to_nat n_rnn; (Z.to_nat n_in + a)%nat] ->
  shape Wo = [Z.to_nat n_out; Z.to_nat n_rnn] ->
  exists msg,
    Model._set_weights_fused hp
      [("rnn_cell.weight", W); ("rnn_cell.bias", b);
       ("output_layer.weight", Wo); ("output_layer.bias", bo)]
    = inl (ValueError msg).
Proof.
  intros Hin Hpos Hrnn Hrnn0 Hout HW HWo.
  unfold Model._set_weights_fused.
  unfold get_int at 1. unfold getitem. rewrite Hin.
  cbn [bind ret as_int]. rewrite Hrnn, Hout. cbn [bind].
  cbn [Model.assign_fused].
  change (contains "rnn" "rnn_cell.weight") with true.
  change (contains "weight" "rnn_cell.weight") with true.
  change (contains "rnn" "rnn_cell.bias") with true.
  change (contains "weight" "rnn_cell.bias") with false.
  change (contains "rnn" "output_layer.weight") with false.
  change (contains "output" "output_layer.weight") with true.
  change (contains "weight" "output_layer.weight") with true.
  change (contains "rnn" "output_layer.bias") with false.
  change (contains "output" "output_layer.bias") with true.
  change (contains "weight" "output_layer.bias") with false.
  cbv iota. unfold rows_from, rows_to. rewrite HW.
  cbn [bind ret Model.w_out Model.w_rec Model.w_in Model.b_rec Model.b_out
       Model.w_sen_in Model.b_in Model.w_rule Model.no_attrs].
  unfold Model.check_shape at 1. rewrite HWo.
  destruct (shape_is [Z.to_nat n_out; Z.to_nat n_rnn] [n_rnn; n_out]);
    [|eexists; reflexivity].
  cbn [bind]. unfold Model.check_shape at 1. cbn [shape].
  destruct (shape_is _ _) eqn:Hsh; [|eexists; reflexivity].
  exfalso. unfold shape_is in Hsh. apply bool_decide_eq_true_1 in Hsh.
  simpl map in Hsh. injection Hsh as H1 H2. lia.
Qed.

Lemma build_fused_leaky_parameters (env : module_env) (rng : RandomState)
    (hp : hparams) (n_in : Z) (cell : Model.rnn_cell_t)
    (ps : list (string * tensor R)) :
  hp !! "n_input" = Some (HInt n_in) ->
  hp !! "rnn_type" = Some (HStr "LeakyRNN") ->
  Model._build_fused env rng hp = inr (cell, ps) ->
  exists n_rnn n_out W b Wo bo a,
    get_int hp "n_rnn" = inr n_rnn /\ (0 <= n_rnn)%Z /\
    get_int hp "n_output" = inr n_out /\
    shape W = [Z.to_nat n_rnn; (Z.to_nat n_in + a)%nat] /\
    shape Wo = [Z.to_nat n_out; Z.to_nat n_rnn] /\
    ps = [("rnn_cell.weight", W); ("rnn_cell.bias", b);
          ("output_layer.weight", Wo); ("output_layer.bias", bo)].
Proof.
  intros Hin Htype H. unfold Model._build_fused in H.
  unfold get_int at 1 in H. unfold getitem at 1 in H. rewrite Hin in H.
  cbn [bind ret as_int] in H.
  inv_bind H. rename z into n_rnn. inv_bind H. rename z into n_out.
  inv_bind H. inv_bind H.
  unfold getitem at 1 in H. rewrite Htype in H. cbn [bind ret] in H.
  change (is_str (HStr "LeakyRNN") "LeakyRNN") with true in H. cbv iota in H.
  inv_bind H. destruct p as [cell' cps].
  inv_bind E3. inv_bind E3. inv_bind E3. inv_bind E3. inv_bind E3.
  injection E3 as <- <-.
  inv_bind H. injection H as <- <-.
  destruct (init_weight_shape _ _ _ _ _ _ _ _ _ E8) as (_ & Hr0 & a & Hshape).
  apply Linear_with_bias in E3. subst l.
  exists n_rnn, n_out, (LeakyRNNCell.weight t), (LeakyRNNCell.bias t).
  exists (Tensor [Z.to_nat n_out; Z.to_nat n_rnn]
                 (env_param_init env "output_layer.weight")).
  exists (Tensor [Z.to_nat n_out] (env_param_init env "output_layer.bias")).
  exists a.
  split; [reflexivity|]. split; [exact Hr0|]. split; [reflexivity|].
  split; [exact Hshape|]. split; reflexivity.
Qed.

(** Keys other than the three the constructor writes are read from the
    configuration that was passed. *)
Lemma lookup_after_overrides (hp : hparams) (sigma_rec dt : option Q)
    (alpha : Q) (k : string) :
  k <> "alpha" -> k <> "dt" -> k <> "sigma_rec" ->
  (<["alpha" := HFloat alpha]>
     (match dt with
      | Some v => <["dt" := HFloat v]>
                    (match sigma_rec with
                     | Some w => <["sigma_rec" := HFloat w]> hp
                     | None => hp
                     end)
      | None => match sigma_rec with
                | Some w => <["sigma_rec" := HFloat w]> hp
                | None => hp
                end
      end) : hparams) !! k = hp !! k.
Proof.
  intros H1 H2 H3. rewrite lookup_insert_ne by congruence.
  destruct dt, sigma_rec; rewrite ?lookup_insert_ne by congruence; reflexivity.
Qed.

(** C4 (the defect, in general). In the fused build of a leaky network
    with a positive [n_input], whenever the layers themselves can be built
    the shape checks raise a [ValueError]: the weight of the cell is stored
    with shape [(n_rnn, n_input + n_rnn)], and its slice from row [n_input]
    on is compared with [(n_rnn, n_rnn)].  Hence no call of the constructor
    with such a configuration returns a network. *)
Theorem fused_leaky_construction_raises (hp : hparams) (n_in : Z) :
  hp !! "n_input" = Some (HInt n_in) -> (0 < n_in)%Z ->
  hp !! "rnn_type" = Some (HStr "LeakyRNN") ->
  (forall env rng cell ps,
     Model._build_fused env rng hp = inr (cell, ps) ->
     exists msg, Model._set_weights_fused hp ps = inl (ValueError msg)) /\
  (forall env model_dir sigma_rec dt m ev,
     Model.use_separate_input hp = false ->
     Model.__init__ env model_dir (Some hp) sigma_rec dt <> (inr m, ev)).
Proof.
  intros Hin Hpos Htype.
  assert (Hfused : forall hp' : hparams,
            hp' !! "n_input" = Some (HInt n_in) ->
            hp' !! "rnn_type" = Some (HStr "LeakyRNN") ->
            forall env rng cell ps,
              Model._build_fused env rng hp' = inr (cell, ps) ->
              exists msg, Model._set_weights_fused hp' ps = inl (ValueError msg)).
  { intros hp' Hin' Htype' env rng cell ps Hb.
    destruct (build_fused_leaky_parameters env rng hp' n_in cell ps Hin' Htype' Hb)
      as (n_rnn & n_out & W & b & Wo & bo & a & Hr & Hr0 & Ho & HW & HWo & ->).
    exact (set_weights_fused_leaky_raises hp' n_in n_rnn n_out W b Wo bo a
             Hin' Hpos Hr Hr0 Ho HW HWo). }
  split; [exact (Hfused hp Hin Htype)|].
  intros env model_dir sigma_rec dt m ev Hsep H.
  unfold Model.__init__, Model.init_with_hp in H.
  destruct (get_int hp "seed") as [e|seed]; [discriminate H|].
  destruct (negb _); [discriminate H|].
  assert (Hlet : forall (A B : Type) (p : A * B) (C : Type) (f : A -> B -> C),
            (let '(x, y) := p in f x y) = f (fst p) (snd p))
    by (intros A B [x y] C f; reflexivity).
  rewrite !Hlet in H. injection H as H _.
  set (hp2 := fst (match dt with
                   | Some v => _
                   | None => _
                   end)) in H.
  inv_bind H. inv_bind H. inv_bind H. inv_bind H. inv_bind H. inv_bind H.
  destruct p as [[[[[cell ps] weights] a] reg] opt].
  clear H. unfold Model._build in E4.
  set (hp3 := <["alpha" := HFloat q1]> hp2) in *.
  assert (Hk : forall k, k <> "alpha" -> k <> "dt" -> k <> "sigma_rec" ->
                         hp3 !! k = hp !! k).
  { intros k H1 H2 H3. unfold hp3, hp2.
    rewrite <- (lookup_after_overrides hp sigma_rec dt q1 k H1 H2 H3).
    destruct dt, sigma_rec; reflexivity. }
  assert (Hsep3 : Model.use_separate_input hp3 = false).
  { unfold Model.use_separate_input in *. rewrite Hk by congruence. exact Hsep. }
  rewrite Hsep3 in E4.
  inv_bind E4. destruct p as [cell' ps']. inv_bind E4.
  assert (Hin3 : hp3 !! "n_input" = Some (HInt n_in))
    by (rewrite Hk by congruence; exact Hin).
  assert (Htype3 : hp3 !! "rnn_type" = Some (HStr "LeakyRNN"))
    by (rewrite Hk by congruence; exact Htype).
  destruct (Hfused hp3 Hin3 Htype3 _ _ _ _ E5) as [msg Hmsg].
  rewrite Hmsg in E6. discriminate E6.
Qed.


Lemma fused_leaky_construction_raises_witness :
  (forall env rng cell ps,
     Model._build_fused env rng hp_leaky_1_2_2 = inr (cell, ps) ->
     exists msg, Model._set_weights_fused hp_leaky_1_2_2 ps = inl (ValueError msg)) /\
  (forall env model_dir sigma_rec dt m ev,
     Model.use_separate_input hp_leaky_1_2_2 = false ->
     Model.__init__ env model_dir (Some hp_leaky_1_2_2) sigma_rec dt <> (inr m, ev)).
Proof.
  apply (fused_leaky_construction_raises hp_leaky_1_2_2 1).
  - reflexivity.
  - lia.
  - reflexivity.
Defined.


(** The constructor on the configuration above: the check of [w_rec]
    raises, the slice has shape (1, 3). *)
Example init_leaky_1_2_2 :
  Model.__init__ example_env "model" (Some hp_leaky_1_2_2) None None =
  (inl (ValueError "Shape of w_rec should be (2, 2), but found torch.Size([1, 3])"),
   []).
Proof. vm_compute. reflexivity. Qed.

(** *** Unsupported names *)







(** The two exceptions on concrete calls. *)
Example init_unknown_cell :
  Model.__init__ example_env "model" (Some hp_unknown_cell) None None =
  (inl (NotImplementedError "rnn_type must be one of LeakyRNN, LeakyGRU, LSTM, GRU"),
   []).
Proof. vm_compute. reflexivity. Qed.

Example cell_unknown_activation :
  LeakyRNNCell.__init__ None 1 2 (1 # 5) 0 "sigmoid" "diag" zero_stream
  = inl (ValueError "Unknown activation").
Proof. reflexivity. Qed.

(** *** Loading the hyperparameters *)

(** C8 (evaluation in the namespace of the file). [network_torch.py] never
    binds the name [tools]; constructing the network without [hp] evaluates
    [tools.load_hp(model_dir)] and raises [NameError]: nothing is loaded and
    the [ValueError] that names [model_dir] is never reached. *)
Theorem init_without_hp_raises_name_error
    (F_attr : string -> bool) (seeded : Z -> nat -> list nat -> R)
    (param_init : string -> list nat -> R) (model_dir : string)
    (sigma_rec dt : option Q) :
  Model.__init__ (network_torch_env F_attr seeded param_init) model_dir None sigma_rec dt
  = (inl (NameError "tools"), []).
Proof. reflexivity. Qed.

(** X24. With the name bound to a module that offers [load_hp], the constructor
    loads the configuration of [model_dir] once and raises the [ValueError]
    naming [model_dir] when there is none. *)
Lemma init_without_hp_when_tools_bound (env : module_env)
    (tl : tools_module) (model_dir : string) (sigma_rec dt : option Q) :
  env_tools env = Some tl ->
  (load_hp tl model_dir = None ->
   Model.__init__ env model_dir None sigma_rec dt =
   (inl (ValueError ("No hp found for model_dir " +:+ model_dir)),
    [EvLoadHp model_dir])) /\
  (forall h, load_hp tl model_dir = Some h ->
   Model.__init__ env model_dir None sigma_rec dt =
   (fst (Model.__init__ env model_dir (Some h) sigma_rec dt),
    EvLoadHp model_dir :: snd (Model.__init__ env model_dir (Some h) sigma_rec dt))).
Proof.
  intros Ht. unfold Model.__init__. rewrite Ht. split.
  - intros ->. reflexivity.
  - intros h ->. destruct (Model.init_with_hp env model_dir h sigma_rec dt).
    reflexivity.
Qed.

(** When [hp] is given nothing is loaded. *)
Lemma init_with_hp_loads_nothing (env : module_env) (model_dir : string)
    (h : hparams) (sigma_rec dt : option Q) (d : string) :
  ~ In (EvLoadHp d) (snd (Model.__init__ env model_dir (Some h) sigma_rec dt)).
Proof.
  unfold Model.__init__, Model.init_with_hp.
  destruct (get_int h "seed"); [simpl; tauto|].
  destruct (negb _); [simpl; tauto|].
  destruct sigma_rec, dt; simpl; intros H;
    repeat (destruct H as [H|H]; [discriminate H|]); exact H.
Qed.

(** *** Lesioning *)


Lemma norm_index_valid (n : nat) (i : Z) :
  valid_index n i -> Model.norm_index n i = inr (row_of n i).
Proof.
  unfold valid_index, Model.norm_index, row_of. intros [Hlo Hhi].
  destruct (Z.leb_spec 0 i) as [H0|H0].
  - rewrite (proj2 (Z.ltb_lt i (Z.of_nat n))) by lia. simpl.
    rewrite Z.mod_small by lia. reflexivity.
  - simpl. rewrite (proj2 (Z.leb_le (- Z.of_nat n) i)) by lia.
    rewrite (proj2 (Z.ltb_lt i 0)) by lia. simpl.
    replace (i mod Z.of_nat n)%Z with (i + Z.of_nat n)%Z; [reflexivity|].
    apply (Z.mod_unique i (Z.of_nat n) (-1) (i + Z.of_nat n)); lia.
Qed.

Lemma norm_indices_valid (n : nat) (l : list Z) :
  (forall i, In i l -> valid_index n i) ->
  Model.norm_indices n l = inr (map (row_of n) l).
Proof.
  induction l as [|i l IH]; intros H; [reflexivity|].
  simpl. rewrite norm_index_valid by (apply H; left; reflexivity).
  cbn [bind]. rewrite IH by (intros j Hj; apply H; right; exact Hj).
  reflexivity.
Qed.

Lemma in_rows_spec (r : nat) (rows : list nat) :
  Model.in_rows r rows = true <-> In r rows.
Proof.
  unfold Model.in_rows. rewrite existsb_exists. split.
  - intros (x & Hx & E). apply Nat.eqb_eq in E. subst x. exact Hx.
  - intros H. exists r. split; [exact H | apply Nat.eqb_refl].
Qed.

Lemma zero_rows_spec (idxs : list Z) (data : tensor R) (n c : nat) (s : list nat) :
  shape data = n :: c :: s ->
  (forall i, In i idxs -> valid_index n i) ->
  exists data',
    Model.zero_rows idxs data = inr data' /\
    shape data' = shape data /\
    forall r rest,
      ((exists i, In i idxs /\ r = row_of n i) -> val data' (r :: rest) = 0) /\
      (~ (exists i, In i idxs /\ r = row_of n i) ->
       val data' (r :: rest) = val data (r :: rest)).
Proof.
  intros Hs Hv. unfold Model.zero_rows. rewrite Hs.
  rewrite (norm_indices_valid n idxs Hv). cbn [bind ret].
  eexists. split; [reflexivity|]. split; [reflexivity|].
  intros r rest. cbn [val].
  destruct (Model.in_rows r (map (row_of n) idxs)) eqn:E.
  - split; [reflexivity|]. intros Hnot. exfalso. apply Hnot.
    apply in_rows_spec in E. apply in_map_iff in E.
    destruct E as (i & Hi & Hin). exists i. split; [exact Hin | symmetry; exact Hi].
  - split; [|reflexivity]. intros (i & Hin & Hi). exfalso.
    assert (T : Model.in_rows r (map (row_of n) idxs) = true).
    { apply in_rows_spec. apply in_map_iff. exists i. split; [symmetry; exact Hi | exact Hin]. }
    rewrite T in E. discriminate E.
Qed.

Lemma lesion_loop_spec (n_input : Z) (units : list Z)
    (ps : list (string * tensor R)) :
  Forall (lesion_ready n_input units) ps ->
  exists ps',
    Model.lesion_loop n_input units ps = (inr tt, ps') /\
    Forall2 (lesion_post n_input units) ps ps'.
Proof.
  induction ps as [|[name data] ps IH]; intros Hready.
  - exists []. split; [reflexivity | constructor].
  - inversion Hready as [|? ? Hp Hrest]; subst.
    destruct (IH Hrest) as (ps' & Hloop & Hpost).
    unfold lesion_ready in Hp. cbn [fst snd] in Hp.
    cbn [Model.lesion_loop].
    destruct (contains "weight" name) eqn:Hw.
    + destruct (Hp eq_refl) as [Hout Hrnn].
      destruct (contains "output" name) eqn:Ho.
      * destruct (Hout eq_refl) as (Hnr & n & c & s & Hs & Hv).
        destruct (zero_rows_spec units data n c s Hs Hv) as (d' & Hz & Hsh & Hval).
        rewrite Hz, Hloop. exists ((name, d') :: ps'). split; [reflexivity|].
        constructor; [|exact Hpost].
        unfold lesion_post. cbn [fst snd]. rewrite Hw, Ho, Hnr, Hs. cbn [hd].
        split; [reflexivity|]. split; [rewrite Hsh; exact Hs|].
        split; [|split].
        -- intros _ _ r rest. destruct (Hval r rest) as [Hz0 Hkeep]. split.
           ++ intros (i & Hin & Hr). apply Hz0. exists i. split; [exact Hin|].
              rewrite Hr. reflexivity.
           ++ intros Hnot. apply Hkeep. intros (i & Hin & Hr). apply Hnot.
              exists i. split; [exact Hin|]. rewrite Hr. reflexivity.
        -- intros _ F. discriminate F.
        -- intros [F|[F _]]; discriminate F.
      * destruct (contains "rnn" name) eqn:Hr.
        -- destruct (Hrnn eq_refl) as (_ & n & c & s & Hs & Hv).
           destruct (zero_rows_spec (map (Z.add n_input) units) data n c s Hs)
             as (d' & Hz & Hsh & Hval).
           { intros j Hj. apply in_map_iff in Hj. destruct Hj as (i & <- & Hi).
             apply Hv. exact Hi. }
           rewrite Hz, Hloop. exists ((name, d') :: ps'). split; [reflexivity|].
           constructor; [|exact Hpost].
           unfold lesion_post. cbn [fst snd]. rewrite Hw, Ho, Hr, Hs. cbn [hd].
           split; [reflexivity|]. split; [rewrite Hsh; exact Hs|].
           split; [|split].
           ++ intros _ F. discriminate F.
           ++ intros _ _ r rest. destruct (Hval r rest) as [Hz0 Hkeep]. split.
              ** intros (i & Hin & Hrow). apply Hz0. exists (n_input + i)%Z.
                 split; [apply in_map; exact Hin | exact Hrow].
              ** intros Hnot. apply Hkeep. intros (j & Hj & Hrow). apply Hnot.
                 apply in_map_iff in Hj. destruct Hj as (i & <- & Hi).
                 exists i. split; [exact Hi | exact Hrow].
           ++ intros [F|[_ F]]; discriminate F.
        -- cbn [ret]. rewrite Hloop. exists ((name, data) :: ps').
           split; [reflexivity|]. constructor; [|exact Hpost].
           unfold lesion_post. cbn [fst snd]. rewrite Hw, Ho, Hr.
           split; [reflexivity|]. split; [reflexivity|].
           split; [intros _ F; discriminate F|].
           split; [intros _ F; discriminate F|]. intros _. reflexivity.
    + cbn [ret]. rewrite Hloop. exists ((name, data) :: ps').
      split; [reflexivity|]. constructor; [|exact Hpost].
      unfold lesion_post. cbn [fst snd]. rewrite Hw.
      split; [reflexivity|]. split; [reflexivity|].
      split; [intros F; discriminate F|].
      split; [intros F; discriminate F|]. intros _. reflexivity.
Qed.



Lemma lesion_example_ready :
  Forall (lesion_ready 1 [0%Z; (-1)%Z]) (Model.parameters lesion_example).
Proof.
  assert (V : forall (n : nat) (o : Z) (l : list Z),
             forallb (fun i => (- Z.of_nat n <=? o + i)%Z && (o + i <? Z.of_nat n)%Z) l = true ->
             forall i, In i l -> valid_index n (o + i)).
  { intros n o l H i Hi. pose proof (proj1 (forallb_forall _ l) H i Hi) as Hb.
    apply andb_true_iff in Hb. destruct Hb as [H1 H2].
    apply Z.leb_le in H1. apply Z.ltb_lt in H2. split; assumption. }
  unfold lesion_example. cbn [Model.parameters].
  constructor; [|constructor; [|constructor; [|constructor; [|constructor]]]];
    unfold lesion_ready; cbn [fst snd]; intros Hw.
  - split; [intros F; vm_compute in F; discriminate F|].
    intros _. split; [reflexivity|].
    exists 3%nat, 2%nat, []. split; [reflexivity|]. apply V. reflexivity.
  - vm_compute in Hw. discriminate Hw.
  - split; [|intros F; vm_compute in F; discriminate F].
    intros _. split; [reflexivity|].
    exists 2%nat, 2%nat, []. split; [reflexivity|].
    intros i Hi. apply (V 2%nat 0%Z [0%Z; (-1)%Z] eq_refl i Hi).
  - vm_compute in Hw. discriminate Hw.
Qed.


(** *** Networks that are constructed *)

(** Without inputs and with as many outputs as recurrent units the checks
    pass: the constructor returns a network. *)
Example init_leaky_0_2_2 :
  exists m ev,
    Model.__init__ example_env "model" (Some hp_leaky_0_2_2) None None = (inr m, ev).
Proof.
  assert (H : is_ok (fst (Model.__init__ example_env "model" (Some hp_leaky_0_2_2)
                            None None)) = true) by (vm_compute; reflexivity).
  destruct (Model.__init__ example_env "model" (Some hp_leaky_0_2_2) None None)
    as [[e|m] ev]; [discriminate H|].
  exists m, ev. reflexivity.
Qed.

Lemma check_shape_spec (attr label : string) (t : tensor R) (rows cols : Z) :
  (map Z.of_nat (shape t) = [rows; cols] ->
   Model.check_shape attr label (Some t) rows cols = inr tt) /\
  (map Z.of_nat (shape t) <> [rows; cols] ->
   exists msg, Model.check_shape attr label (Some t) rows cols = inl (ValueError msg)).
Proof.
  unfold Model.check_shape, shape_is. split; intros H.
  - rewrite bool_decide_eq_true_2 by exact H. reflexivity.
  - rewrite bool_decide_eq_false_2 by exact H. eexists. reflexivity.
Qed.






Lemma registered_names_no_clash (name : string) :
  In name registered_names ->
  contains "output" name = true -> contains "rnn" name = false.
Proof.
  intros H. simpl in H.
  repeat (destruct H as [<-|H]; [vm_compute; intros F; first [reflexivity | discriminate F]|]).
  contradiction.
Qed.

(** ** Further properties of the construction *)

Lemma let_pair {A B C : Type} (p : A * B) (f : A -> B -> C) :
  (let '(x, y) := p in f x y) = f (fst p) (snd p).
Proof. destruct p; reflexivity. Qed.

(** The constructor on a given configuration, step by step. *)
Lemma init_with_hp_unfold (env : module_env) (model_dir : string) (hp : hparams)
    (sigma_rec dt : option Q) (seed : Z) :
  get_int hp "seed" = inr seed -> (0 <= seed < 2 ^ 32)%Z ->
  Model.__init__ env model_dir (Some hp) sigma_rec dt =
  (do dt_v <- get_num (overridden hp sigma_rec dt) "dt";
   do tau <- get_num (overridden hp sigma_rec dt) "tau";
   do alpha <- Qdiv_py (1 * dt_v) tau;
   let hp3 := <["alpha" := HFloat alpha]> (overridden hp sigma_rec dt) in
   do in_type <- getitem hp3 "in_type";
   do _ <- (if is_str in_type "normal" then ret tt
            else do s <- as_str in_type;
                 raise (ValueError ("Only support in_type " ++ s)));
   do '(cell, ps, weights, a, reg, opt) <-
     Model._build env {| stream := env_seeded env seed; drawn := 0 |} hp3;
   ret {| Model.rng := {| stream := env_seeded env seed; drawn := 0 |};
          Model.rnn_cell := cell;
          Model.parameters := ps;
          Model.weight_list := weights;
          Model.attrs := a;
          Model.cost_reg := reg;
          Model.optimizer := opt;
          Model.model_dir := model_dir;
          Model.hp := hp3 |},
   override_events sigma_rec dt).
Proof.
  intros Hseed [H0 H1]. unfold Model.__init__, Model.init_with_hp. rewrite Hseed.
  rewrite (proj2 (Z.leb_le 0 seed) H0), (proj2 (Z.ltb_lt seed (2 ^ 32)) H1).
  cbn [andb negb]. unfold overridden, override_events.
  destruct sigma_rec, dt; reflexivity.
Qed.

Lemma init_inversion (env : module_env) (model_dir : string) (hp : hparams)
    (sigma_rec dt : option Q) (m : Model.t) (ev : list event) :
  Model.__init__ env model_dir (Some hp) sigma_rec dt = (inr m, ev) ->
  exists seed dt_v tau alpha cell ps weights a reg opt,
    get_int hp "seed" = inr seed /\ (0 <= seed < 2 ^ 32)%Z /\
    get_num (overridden hp sigma_rec dt) "dt" = inr dt_v /\
    get_num (overridden hp sigma_rec dt) "tau" = inr tau /\
    Qdiv_py (1 * dt_v) tau = inr alpha /\
    Model._build env {| stream := env_seeded env seed; drawn := 0 |}
      (<["alpha" := HFloat alpha]> (overridden hp sigma_rec dt))
    = inr (cell, ps, weights, a, reg, opt) /\
    m = {| Model.rng := {| stream := env_seeded env seed; drawn := 0 |};
           Model.rnn_cell := cell;
           Model.parameters := ps;
           Model.weight_list := weights;
           Model.attrs := a;
           Model.cost_reg := reg;
           Model.optimizer := opt;
           Model.model_dir := model_dir;
           Model.hp := <["alpha" := HFloat alpha]> (overridden hp sigma_rec dt) |} /\
    ev = override_events sigma_rec dt.
Proof.
  intros H.
  destruct (get_int hp "seed") as [e|seed] eqn:Hseed.
  { unfold Model.__init__, Model.init_with_hp in H. rewrite Hseed in H. discriminate H. }
  destruct (negb ((0 <=? seed)%Z && (seed <? 2 ^ 32)%Z)) eqn:Hrange.
  { unfold Model.__init__, Model.init_with_hp in H. rewrite Hseed, Hrange in H.
    discriminate H. }
  apply negb_false_iff, andb_true_iff in Hrange. destruct Hrange as [H0 H1].
  apply Z.leb_le in H0. apply Z.ltb_lt in H1.
  rewrite (init_with_hp_unfold env model_dir hp sigma_rec dt seed Hseed (conj H0 H1)) in H.
  injection H as H Hev.
  inv_bind H. inv_bind H. inv_bind H. inv_bind H. inv_bind H. inv_bind H.
  destruct p as [[[[[cell ps] weights] a] reg] opt].
  cbn [ret] in H. injection H as <-.
  exists seed, q, q0, q1, cell, ps, weights, a, reg, opt.
  repeat (split; [first [reflexivity | assumption | lia]|]).
  symmetry. exact Hev.
Qed.

Lemma build_inversion (env : module_env) (rng : RandomState) (hp : hparams)
    (cell : Model.rnn_cell_t) (ps : list (string * tensor R))
    (weights : list (tensor R)) (a : Model.weight_attrs) (reg : R)
    (opt : option Model.optimizer_t) :
  Model._build env rng hp = inr (cell, ps, weights, a, reg, opt) ->
  (if Model.use_separate_input hp then Model._build_separate env rng hp
   else Model._build_fused env rng hp) = inr (cell, ps) /\
  (if Model.use_separate_input hp then Model._set_weights_separate hp ps
   else Model._set_weights_fused hp ps) = inr a /\
  weights = map snd (filter (fun p => is_weight (fst p) = true) ps) /\
  Model.regularisation hp weights = inr reg /\
  Model.make_optimizer hp = inr opt.
Proof.
  intros H. unfold Model._build in H.
  inv_bind H. destruct p as [cell' ps']. inv_bind H. inv_bind H. inv_bind H.
  unfold ret in H. inversion H; subst.
  repeat split; assumption.
Qed.

Lemma lookup_overridden (hp : hparams) (sigma_rec dt : option Q) (k : string) :
  k <> "dt" -> k <> "sigma_rec" -> overridden hp sigma_rec dt !! k = hp !! k.
Proof.
  intros H1 H2. unfold overridden.
  destruct sigma_rec, dt; rewrite ?lookup_insert_ne by congruence; reflexivity.
Qed.

Lemma lookup_configured (hp : hparams) (sigma_rec dt : option Q) (alpha : Q)
    (k : string) :
  k <> "alpha" -> k <> "dt" -> k <> "sigma_rec" ->
  (<["alpha" := HFloat alpha]> (overridden hp sigma_rec dt) : hparams) !! k = hp !! k.
Proof.
  intros H0 H1 H2. rewrite lookup_insert_ne by congruence.
  apply lookup_overridden; assumption.
Qed.

Lemma use_separate_configured (hp : hparams) (sigma_rec dt : option Q) (alpha : Q) :
  Model.use_separate_input (<["alpha" := HFloat alpha]> (overridden hp sigma_rec dt))
  = Model.use_separate_input hp.
Proof.
  unfold Model.use_separate_input. rewrite lookup_configured by congruence.
  reflexivity.
Qed.

Lemma get_num_configured (hp : hparams) (sigma_rec dt : option Q) (alpha : Q)
    (k : string) :
  k <> "alpha" -> k <> "dt" -> k <> "sigma_rec" ->
  get_num (<["alpha" := HFloat alpha]> (overridden hp sigma_rec dt)) k = get_num hp k.
Proof.
  intros H0 H1 H2. unfold get_num, getitem.
  rewrite lookup_configured by assumption. reflexivity.
Qed.

Lemma get_int_configured (hp : hparams) (sigma_rec dt : option Q) (alpha : Q)
    (k : string) :
  k <> "alpha" -> k <> "dt" -> k <> "sigma_rec" ->
  get_int (<["alpha" := HFloat alpha]> (overridden hp sigma_rec dt)) k = get_int hp k.
Proof.
  intros H0 H1 H2. unfold get_int, getitem.
  rewrite lookup_configured by assumption. reflexivity.
Qed.

(** X15. What a successful construction stores.  The network keeps the
    directory and the configuration it was given with three entries
    written by the constructor: [sigma_rec] and [dt] when they are passed,
    and [alpha = 1.0 * dt / tau] computed from the [dt] in force; every
    other entry is the one of the caller, the input type is ['normal'], and
    the call printed the overwrite messages and nothing else. *)
Theorem init_stores_configuration (env : module_env) (model_dir : string)
    (hp : hparams) (sigma_rec dt : option Q) (m : Model.t) (ev : list event) :
  Model.__init__ env model_dir (Some hp) sigma_rec dt = (inr m, ev) ->
  Model.model_dir m = model_dir /\
  ev = override_events sigma_rec dt /\
  (exists dt_v tau,
     match dt with
     | Some v => dt_v = v
     | None => get_num hp "dt" = inr dt_v
     end /\
     get_num hp "tau" = inr tau /\ ~ (tau == 0)%Q /\
     Model.hp m !! "alpha" = Some (HFloat (1 * dt_v / tau))) /\
  (forall v, sigma_rec = Some v -> Model.hp m !! "sigma_rec" = Some (HFloat v)) /\
  (forall v, dt = Some v -> Model.hp m !! "dt" = Some (HFloat v)) /\
  (forall k, k <> "alpha" -> k <> "dt" -> k <> "sigma_rec" ->
             Model.hp m !! k = hp !! k) /\
  Model.hp m !! "in_type" = Some (HStr "normal").
Proof.
  intros H.
  assert (H' := H).
  apply init_inversion in H.
  destruct H as (seed & dt_v & tau & alpha & cell & ps & weights & a & reg & opt &
                 Hseed & Hrange & Hdt & Htau & Halpha & Hbuild & -> & ->).
  cbn [Model.model_dir Model.hp].
  split; [reflexivity|]. split; [reflexivity|].
  assert (Htau' : get_num hp "tau" = inr tau).
  { unfold get_num, getitem in *. rewrite lookup_overridden in Htau by congruence.
    exact Htau. }
  unfold Qdiv_py in Halpha. destruct (Qeq_bool tau 0) eqn:Ez; [discriminate Halpha|].
  injection Halpha as <-.
  split.
  { exists dt_v, tau. split.
    - destruct dt as [v|].
      + unfold get_num, getitem, overridden in Hdt. rewrite lookup_insert_eq in Hdt.
        cbn in Hdt. injection Hdt as <-. reflexivity.
      + unfold get_num, getitem, overridden in Hdt |- *.
        destruct sigma_rec; rewrite ?lookup_insert_ne in Hdt by congruence; exact Hdt.
    - split; [exact Htau'|]. split.
      + intros Hz. apply Qeq_bool_iff in Hz. congruence.
      + apply lookup_insert_eq. }
  split.
  { intros v ->. rewrite lookup_insert_ne by congruence. unfold overridden.
    destruct dt; rewrite ?lookup_insert_ne by congruence; apply lookup_insert_eq. }
  split.
  { intros v ->. rewrite lookup_insert_ne by congruence. unfold overridden.
    apply lookup_insert_eq. }
  split.
  { intros k H0 H1 H2. apply lookup_configured; assumption. }
  rewrite (init_with_hp_unfold env model_dir hp sigma_rec dt seed Hseed Hrange) in H'.
  injection H' as H'. rewrite Hdt, Htau in H'. cbn [bind] in H'.
  unfold Qdiv_py in H'. rewrite Ez in H'. cbn [bind ret] in H'.
  unfold getitem in H'.
  destruct (_ !! "in_type") as [v|] eqn:Hin; [|discriminate H'].
  cbn [bind ret] in H'.
  destruct v as [z|q|b|s]; cbn [is_str as_str bind raise] in H'; try discriminate H'.
  destruct (String.eqb s "normal") eqn:Es; [|discriminate H'].
  apply String.eqb_eq in Es. subst s. reflexivity.
Qed.

Lemma init_stores_configuration_witness :
  exists m ev,
    Model.__init__ example_env "model" (Some hp_leaky_0_2_2) None None = (inr m, ev) /\
    (Model.model_dir m = "model" /\
     ev = override_events None None /\
     (exists dt_v tau,
        get_num hp_leaky_0_2_2 "dt" = inr dt_v /\
        get_num hp_leaky_0_2_2 "tau" = inr tau /\ ~ (tau == 0)%Q /\
        Model.hp m !! "alpha" = Some (HFloat (1 * dt_v / tau))) /\
     (forall v, None = Some v -> Model.hp m !! "sigma_rec" = Some (HFloat v)) /\
     (forall v, None = Some v -> Model.hp m !! "dt" = Some (HFloat v)) /\
     (forall k, k <> "alpha" -> k <> "dt" -> k <> "sigma_rec" ->
                Model.hp m !! k = hp_leaky_0_2_2 !! k) /\
     Model.hp m !! "in_type" = Some (HStr "normal")).
Proof.
  destruct init_leaky_0_2_2 as (m & ev & H).
  exists m, ev. split; [exact H|].
  exact (init_stores_configuration example_env "model" hp_leaky_0_2_2 None None m ev H).
Defined.

(** X16. Validation of the time constant and of the input type.  Once the
    seed is accepted and [dt] and [tau] are numbers, a zero [tau] makes
    [alpha = 1.0 * dt / tau] raise ZeroDivisionError; otherwise an input
    type other than ['normal'] is refused with a ValueError that names it.
    Both happen after the overwrite messages were printed and before any
    layer is built, so no other entry of the configuration is read. *)
Theorem init_validates_tau_and_in_type (env : module_env) (model_dir : string)
    (hp : hparams) (sigma_rec dt : option Q) (seed : Z) (dt_v tau : Q) (s : string) :
  get_int hp "seed" = inr seed -> (0 <= seed < 2 ^ 32)%Z ->
  get_num (overridden hp sigma_rec dt) "dt" = inr dt_v ->
  get_num hp "tau" = inr tau ->
  hp !! "in_type" = Some (HStr s) -> s <> "normal" ->
  ((tau == 0)%Q ->
   Model.__init__ env model_dir (Some hp) sigma_rec dt =
   (inl ZeroDivisionError, override_events sigma_rec dt)) /\
  (~ (tau == 0)%Q ->
   Model.__init__ env model_dir (Some hp) sigma_rec dt =
   (inl (ValueError ("Only support in_type " +:+ s)), override_events sigma_rec dt)).
Proof.
  intros Hseed Hrange Hdt Htau Hin Hs.
  rewrite (init_with_hp_unfold env model_dir hp sigma_rec dt seed Hseed Hrange).
  assert (Htau' : get_num (overridden hp sigma_rec dt) "tau" = inr tau).
  { unfold get_num, getitem in *. rewrite lookup_overridden by congruence. exact Htau. }
  rewrite Hdt, Htau'. cbn [bind]. unfold Qdiv_py. split; intros Hz.
  - rewrite (proj2 (Qeq_bool_iff tau 0) Hz). reflexivity.
  - destruct (Qeq_bool tau 0) eqn:Ez; [apply Qeq_bool_iff in Ez; contradiction|].
    cbn [bind ret]. unfold getitem.
    rewrite lookup_configured by congruence. rewrite Hin. cbn [bind ret is_str as_str].
    rewrite (proj2 (String.eqb_neq s "normal") Hs). reflexivity.
Qed.

Lemma init_validates_tau_and_in_type_witness :
  ((100 == 0)%Q ->
   Model.__init__ example_env "model" (Some hp_other_in_type) (Some (1 # 10)) None =
   (inl ZeroDivisionError, override_events (Some (1 # 10)) None)) /\
  (~ (100 == 0)%Q ->
   Model.__init__ example_env "model" (Some hp_other_in_type) (Some (1 # 10)) None =
   (inl (ValueError ("Only support in_type " +:+ "multi")),
    override_events (Some (1 # 10)) None)).
Proof.
  apply (init_validates_tau_and_in_type example_env "model" hp_other_in_type
           (Some (1 # 10)) None 0 20 100 "multi").
  - reflexivity.
  - lia.
  - reflexivity.
  - reflexivity.
  - reflexivity.
  - intros H. discriminate H.
Defined.

(** X17. The activity regularisers cannot be used: [_build] reads the
    hidden activity [self.h], which only a forward pass creates, as soon as
    [l1_h] or [l2_h] is positive.  With such a configuration the
    constructor never returns a network. *)
Theorem activity_regulariser_never_constructs (hp : hparams) (q : Q) :
  (get_num hp "l1_h" = inr q \/ get_num hp "l2_h" = inr q) -> (0 < q)%Q ->
  forall env model_dir sigma_rec dt m ev,
    Model.__init__ env model_dir (Some hp) sigma_rec dt <> (inr m, ev).
Proof.
  intros Hq Hpos env model_dir sigma_rec dt m ev H.
  apply init_inversion in H.
  destruct H as (seed & dt_v & tau & alpha & cell & ps & weights & a & reg & opt &
                 _ & _ & _ & _ & _ & Hbuild & _ & _).
  apply build_inversion in Hbuild. destruct Hbuild as (_ & _ & _ & Hreg & _).
  assert (Hp : Qpos_bool q = true).
  { unfold Qpos_bool. apply negb_true_iff. destruct (Qle_bool q 0) eqn:E; [|reflexivity].
    apply Qle_bool_iff in E. exfalso. apply (Qlt_not_le _ _ Hpos E). }
  unfold Model.regularisation in Hreg.
  rewrite !get_num_configured in Hreg by congruence.
  destruct Hq as [Hq|Hq].
  - rewrite Hq in Hreg. cbn [bind] in Hreg. rewrite Hp in Hreg. discriminate Hreg.
  - inv_bind Hreg. inv_bind Hreg. rewrite Hq in Hreg. cbn [bind] in Hreg.
    rewrite Hp in Hreg. discriminate Hreg.
Qed.

Lemma activity_regulariser_never_constructs_witness :
  ~ exists env model_dir sigma_rec dt m ev,
      Model.__init__ env model_dir (Some (<["l1_h" := HFloat (1 # 100)]> hp_leaky_0_2_2))
                     sigma_rec dt = (inr m, ev).
Proof.
  intros (env & model_dir & sigma_rec & dt & m & ev & H).
  refine (activity_regulariser_never_constructs
            (<["l1_h" := HFloat (1 # 100)]> hp_leaky_0_2_2) (1 # 100)
            _ _ env model_dir sigma_rec dt m ev H).
  - left. reflexivity.
  - reflexivity.
Defined.

(** *** Networks with a leaky gated cell *)

Lemma Linear_shape (env : module_env) (prefix : string) (i o : Z) (b : bool)
    (ps : list (string * tensor R)) :
  Linear env prefix i o b = inr ps ->
  (0 <= i)%Z /\ (0 <= o)%Z /\
  ps = (prefix +:+ ".weight",
        Tensor [Z.to_nat o; Z.to_nat i] (env_param_init env (prefix +:+ ".weight"))) ::
       (if b then [(prefix +:+ ".bias",
                    Tensor [Z.to_nat o] (env_param_init env (prefix +:+ ".bias")))]
        else []).
Proof.
  unfold Linear. destruct (sizes [o; i]) as [s|] eqn:Hs; [|discriminate].
  destruct (sizes_some _ _ Hs) as [-> Hf]. simpl. intros H. injection H as <-.
  inversion Hf as [|? ? Ho Hf']; subst. inversion Hf' as [|? ? Hi _]; subst.
  repeat split; assumption.
Qed.

Lemma build_fused_gru_parameters (env : module_env) (rng : RandomState)
    (hp : hparams) (cell : Model.rnn_cell_t) (ps : list (string * tensor R)) :
  hp !! "rnn_type" = Some (HStr "LeakyGRU") ->
  Model._build_fused env rng hp = inr (cell, ps) ->
  exists n_in n_rnn n_out W b rest,
    get_int hp "n_input" = inr n_in /\ get_int hp "n_rnn" = inr n_rnn /\
    get_int hp "n_output" = inr n_out /\
    length (shape W) = 2%nat /\ length (shape b) = 1%nat /\
    ps = ("rnn_cell.gate_weights.weight", W) :: ("rnn_cell.gate_weights.bias", b) :: rest.
Proof.
  intros Htype H. unfold Model._build_fused in H.
  inv_bind H. rename z into n_in. inv_bind H. rename z into n_rnn.
  inv_bind H. rename z into n_out. inv_bind H. inv_bind H.
  unfold getitem at 1 in H. rewrite Htype in H. cbn [bind ret] in H.
  change (is_str (HStr "LeakyGRU") "LeakyRNN") with false in H.
  change (is_str (HStr "LeakyGRU") "LeakyGRU") with true in H. cbv iota in H.
  inv_bind H. destruct p as [cell' cps].
  inv_bind E4. inv_bind E4. inv_bind E4. inv_bind E4. inv_bind E4.
  injection E4 as <- <-.
  inv_bind H. injection H as <- <-.
  match goal with
  | Hg : Linear env "rnn_cell.gate_weights" _ _ true = inr ?l |- _ =>
      apply Linear_shape in Hg; destruct Hg as (_ & _ & ->)
  end.
  eexists n_in, n_rnn, n_out, _, _, _.
  do 3 (split; [first [assumption | reflexivity]|]).
  split; [|split]. 3: reflexivity. all: reflexivity.
Qed.

Lemma set_weights_fused_gru_raises (hp : hparams) (n_in n_rnn n_out : Z)
    (W b : tensor R) (rest : list (string * tensor R)) :
  get_int hp "n_input" = inr n_in -> get_int hp "n_rnn" = inr n_rnn ->
  get_int hp "n_output" = inr n_out ->
  length (shape W) = 2%nat -> length (shape b) = 1%nat ->
  Model._set_weights_fused hp
    (("rnn_cell.gate_weights.weight", W) :: ("rnn_cell.gate_weights.bias", b) :: rest)
  = inl IndexError.
Proof.
  intros Hin Hrnn Hout HW Hb. unfold Model._set_weights_fused.
  rewrite Hin, Hrnn, Hout. cbn [bind].
  cbn [Model.assign_fused].
  change (contains "rnn" "rnn_cell.gate_weights.weight") with true.
  change (contains "weight" "rnn_cell.gate_weights.weight") with true.
  change (contains "rnn" "rnn_cell.gate_weights.bias") with true.
  change (contains "weight" "rnn_cell.gate_weights.bias") with true.
  cbv iota. unfold rows_from, rows_to.
  destruct (shape W) as [|r [|c [|? ?]]]; try discriminate HW.
  destruct (shape b) as [|k [|? ?]]; try discriminate Hb.
  reflexivity.
Qed.

(** X18. A network with the leaky gated cell cannot be constructed.  The
    bias of the gate layer is registered as
    ['rnn_cell.gate_weights.bias'], a name that contains ['weight'], so
    [_set_weights_fused] takes it for a weight matrix and slices it with
    two indices: IndexError on the one-dimensional tensor. *)
Theorem leaky_gru_never_constructs (hp : hparams) :
  hp !! "rnn_type" = Some (HStr "LeakyGRU") ->
  Model.use_separate_input hp = false ->
  (forall env rng cell ps,
     Model._build_fused env rng hp = inr (cell, ps) ->
     Model._set_weights_fused hp ps = inl IndexError) /\
  (forall env model_dir sigma_rec dt m ev,
     Model.__init__ env model_dir (Some hp) sigma_rec dt <> (inr m, ev)).
Proof.
  intros Htype Hsep.
  assert (Hfused : forall hp' : hparams,
            hp' !! "rnn_type" = Some (HStr "LeakyGRU") ->
            forall env rng cell ps,
              Model._build_fused env rng hp' = inr (cell, ps) ->
              Model._set_weights_fused hp' ps = inl IndexError).
  { intros hp' Htype' env rng cell ps Hb.
    destruct (build_fused_gru_parameters env rng hp' cell ps Htype' Hb)
      as (n_in & n_rnn & n_out & W & b & rest & Hi & Hr & Ho & HW & Hbs & ->).
    exact (set_weights_fused_gru_raises hp' n_in n_rnn n_out W b rest Hi Hr Ho HW Hbs). }
  split; [exact (Hfused hp Htype)|].
  intros env model_dir sigma_rec dt m ev H.
  apply init_inversion in H.
  destruct H as (seed & dt_v & tau & alpha & cell & ps & weights & a & reg & opt &
                 _ & _ & _ & _ & _ & Hbuild & _ & _).
  apply build_inversion in Hbuild. destruct Hbuild as (Hb & Hs & _).
  rewrite use_separate_configured, Hsep in Hb, Hs.
  rewrite (Hfused _ ltac:(rewrite lookup_configured by congruence; exact Htype)
             _ _ _ _ Hb) in Hs.
  discriminate Hs.
Qed.

Lemma leaky_gru_never_constructs_witness :
  (forall env rng cell ps,
     Model._build_fused env rng (<["rnn_type" := HStr "LeakyGRU"]> hp_leaky_1_2_2)
     = inr (cell, ps) ->
     Model._set_weights_fused (<["rnn_type" := HStr "LeakyGRU"]> hp_leaky_1_2_2) ps
     = inl IndexError) /\
  (forall env model_dir sigma_rec dt m ev,
     Model.__init__ env model_dir
       (Some (<["rnn_type" := HStr "LeakyGRU"]> hp_leaky_1_2_2)) sigma_rec dt
     <> (inr m, ev)).
Proof.
  apply (leaky_gru_never_constructs (<["rnn_type" := HStr "LeakyGRU"]> hp_leaky_1_2_2)).
  - reflexivity.
  - reflexivity.
Defined.
(** *** Networks with separate inputs *)

Ltac eval_contains :=
  repeat match goal with
         | |- context [contains ?a ?b] =>
             let v := eval vm_compute in (contains a b) in
             change (contains a b) with v
         end.

Ltac eval_contains_in H :=
  repeat match type of H with
         | context [contains ?a ?b] =>
             let v := eval vm_compute in (contains a b) in
             change (contains a b) with v in H
         end.

Lemma shape_is_2 (a b : nat) (x y : Z) :
  shape_is [a; b] [x; y] = true -> x = Z.of_nat a /\ y = Z.of_nat b.
Proof.
  unfold shape_is. intros H. apply bool_decide_eq_true_1 in H.
  simpl in H. injection H as <- <-. split; reflexivity.
Qed.

Lemma check_shape_ok (attr label : string) (w : option (tensor R)) (rows cols : Z) (u : unit) :
  Model.check_shape attr label w rows cols = inr u ->
  exists t, w = Some t /\ shape_is (shape t) [rows; cols] = true.
Proof.
  unfold Model.check_shape. destruct w as [t|]; [|discriminate].
  destruct (shape_is (shape t) [rows; cols]) eqn:E; [|discriminate].
  intros _. exists t. split; [reflexivity | exact E].
Qed.

(** X19. What a network with separate inputs needs to be constructed.
    The shape checks of [_set_weights_separate] compare the weights of the
    linear layers, stored as (out, in), with (in, out), and the rule-mixing
    layer has a name the method does not expect.  So whenever the
    constructor returns such a network, the sensory size [rule_start], the
    rule size [n_rule] and the output size all equal [n_rnn], the
    activation is ['softplus'] or ['relu'], and [mix_rule] is not [True]. *)
Theorem separate_construction_requires (env : module_env) (model_dir : string)
    (hp : hparams) (sigma_rec dt : option Q) (m : Model.t) (ev : list event) :
  Model.__init__ env model_dir (Some hp) sigma_rec dt = (inr m, ev) ->
  Model.use_separate_input hp = true ->
  exists n,
    (0 <= n)%Z /\
    get_int hp "n_rnn" = inr n /\ get_int hp "n_output" = inr n /\
    get_int hp "rule_start" = inr n /\ get_int hp "n_rule" = inr n /\
    (hp !! "activation" = Some (HStr "softplus") \/
     hp !! "activation" = Some (HStr "relu")) /\
    hp !! "mix_rule" <> Some (HBool true).
Proof.
  intros H Hsep.
  apply init_inversion in H.
  destruct H as (seed & dt_v & tau & alpha & cell & ps & weights & a & reg & opt &
                 _ & _ & _ & _ & _ & Hbuild & _ & _).
  apply build_inversion in Hbuild. destruct Hbuild as (Hb & Hs & _).
  rewrite use_separate_configured, Hsep in Hb, Hs.
  set (hp3 := <["alpha" := HFloat alpha]> (overridden hp sigma_rec dt)) in *.
  assert (Hk : forall k, k <> "alpha" -> k <> "dt" -> k <> "sigma_rec" ->
                         hp3 !! k = hp !! k)
    by (intros; apply lookup_configured; assumption).
  assert (Hgi : forall k, k <> "alpha" -> k <> "dt" -> k <> "sigma_rec" ->
                          get_int hp3 k = get_int hp k)
    by (intros; apply get_int_configured; assumption).
  unfold Model._build_separate in Hb.
  inv_bind Hb. inv_bind Hb. rename z into n_rnn. inv_bind Hb. rename z into n_out.
  inv_bind Hb. rename z into rs. inv_bind Hb. rename z into nr.
  inv_bind Hb. rename l into sensory. inv_bind Hb. rename l into mix.
  inv_bind Hb. rename l into rule.
  inv_bind Hb. inv_bind Hb. inv_bind Hb. rename s into activation.
  inv_bind Hb. inv_bind Hb. rename t into c. inv_bind Hb. rename l into out.
  injection Hb as <- <-.
  apply Linear_shape in E4. destruct E4 as (Hrs0 & Hrnn0 & ->).
  apply Linear_shape in E6. destruct E6 as (Hnr0 & _ & ->).
  apply Linear_shape in E12. destruct E12 as (_ & Hout0 & ->).
  (* the activation *)
  assert (Hact : hp !! "activation" = Some (HStr "softplus") \/
                 hp !! "activation" = Some (HStr "relu")).
  { unfold get_str, getitem in E9. rewrite Hk in E9 by congruence.
    destruct (hp !! "activation") as [[z|qq|bb|s']|]; try discriminate E9.
    cbn in E9. injection E9 as ->.
    unfold LeakyRNNCellSeparateInput.__init__ in E11.
    inv_bind E11.
    match type of E11 with
    | bind ?m _ = _ => destruct m as [e|p] eqn:Esel; [discriminate E11|]
    end.
    destruct (String.eqb activation "softplus") eqn:Es.
    - apply String.eqb_eq in Es. subst. left. reflexivity.
    - destruct (String.eqb activation "relu") eqn:Er; [|discriminate Esel].
      apply String.eqb_eq in Er. subst. right. reflexivity. }
  (* the rule mixing layer *)
  assert (Hmix : (hp !! "mix_rule" = Some (HBool true) /\
                  exists M, mix = [("mix_rule.weight", M)]) \/
                 (hp !! "mix_rule" <> Some (HBool true) /\ mix = [])).
  { unfold has_key, getitem in E5. rewrite Hk in E5 by congruence.
    destruct (hp !! "mix_rule") as [v|]; [|right; split; [discriminate|]; injection E5 as <-; reflexivity].
    cbn [bind ret] in E5.
    destruct v as [z|qq|[|]|s']; try (right; split; [discriminate|]; injection E5 as <-; reflexivity).
    left. split; [reflexivity|].
    apply Linear_shape in E5. destruct E5 as (_ & _ & ->). eexists. reflexivity. }
  unfold Model._set_weights_separate in Hs. rewrite E0, E1 in Hs. cbn [bind] in Hs.
  destruct Hmix as [[Hm [M ->]]|[Hm ->]].
  - exfalso. simpl app in Hs. cbn [Model.assign_separate] in Hs.
    eval_contains_in Hs. cbv iota in Hs. cbn [bind ret raise] in Hs. discriminate Hs.
  - simpl app in Hs. cbn [Model.assign_separate] in Hs.
    eval_contains_in Hs. cbv iota in Hs.
    cbn [bind ret Model.w_out Model.w_rec Model.w_in Model.b_rec Model.b_out
         Model.w_sen_in Model.b_in Model.w_rule Model.no_attrs] in Hs.
    inv_bind Hs. inv_bind Hs. rewrite E2 in Hs. cbn [bind] in Hs.
    inv_bind Hs. rewrite E3 in Hs. cbn [bind] in Hs. inv_bind Hs.
    clear Hs.
    repeat match goal with
           | Hc : Model.check_shape _ _ (Some (Tensor _ _)) _ _ = inr _ |- _ =>
               apply check_shape_ok in Hc; destruct Hc as (tt' & Ht & Hc);
               injection Ht as <-; cbn [shape] in Hc; apply shape_is_2 in Hc;
               rewrite !Z2Nat.id in Hc by assumption
           end.
    exists n_rnn.
    rewrite <- !Hgi by congruence.
    assert (n_out = n_rnn) by lia. assert (rs = n_rnn) by lia.
    assert (nr = n_rnn) by lia. subst n_out rs nr.
    repeat (split; [assumption|]). exact Hm.
Qed.

Lemma init_separate_2 :
  exists m ev,
    Model.__init__ example_env "model" (Some hp_separate_2) None None = (inr m, ev).
Proof.
  assert (H : is_ok (fst (Model.__init__ example_env "model" (Some hp_separate_2)
                            None None)) = true) by (vm_compute; reflexivity).
  destruct (Model.__init__ example_env "model" (Some hp_separate_2) None None)
    as [[e|m] ev]; [discriminate H|].
  exists m, ev. reflexivity.
Qed.

Lemma separate_construction_requires_witness :
  exists n,
    (0 <= n)%Z /\
    get_int hp_separate_2 "n_rnn" = inr n /\ get_int hp_separate_2 "n_output" = inr n /\
    get_int hp_separate_2 "rule_start" = inr n /\ get_int hp_separate_2 "n_rule" = inr n /\
    (hp_separate_2 !! "activation" = Some (HStr "softplus") \/
     hp_separate_2 !! "activation" = Some (HStr "relu")) /\
    hp_separate_2 !! "mix_rule" <> Some (HBool true).
Proof.
  destruct init_separate_2 as (m & ev & H).
  apply (separate_construction_requires example_env "model" hp_separate_2 None None m ev H).
  reflexivity.
Defined.

(** *** Networks with a library cell *)

Lemma RNNCellBase_shape (env : module_env) (prefix : string) (g : nat) (i h : Z)
    (ps : list (string * tensor R)) :
  RNNCellBase env prefix g i h = inr ps ->
  (0 <= i)%Z /\ (0 <= h)%Z /\
  ps = [lib_param env (prefix +:+ ".weight_ih") [(g * Z.to_nat h)%nat; Z.to_nat i];
        lib_param env (prefix +:+ ".weight_hh") [(g * Z.to_nat h)%nat; Z.to_nat h];
        lib_param env (prefix +:+ ".bias_ih") [(g * Z.to_nat h)%nat];
        lib_param env (prefix +:+ ".bias_hh") [(g * Z.to_nat h)%nat]].
Proof.
  unfold RNNCellBase. destruct (sizes [i; h]) as [s|] eqn:Hs; [|discriminate].
  destruct (sizes_some _ _ Hs) as [-> Hf]. simpl. intros H. injection H as <-.
  inversion Hf as [|? ? Hi Hf']; subst. inversion Hf' as [|? ? Hh _]; subst.
  repeat split; assumption.
Qed.

(** The checks of [_set_weights_fused] on the parameters of a library cell
    with [g] gate blocks. *)
Lemma set_weights_fused_library_cell (env : module_env) (hp : hparams) (g : nat)
    (n_in n_rnn n_out : Z) (cell_ps out_ps : list (string * tensor R))
    (a : Model.weight_attrs) :
  get_int hp "n_input" = inr n_in -> get_int hp "n_rnn" = inr n_rnn ->
  get_int hp "n_output" = inr n_out ->
  RNNCellBase env "rnn_cell" g n_in n_rnn = inr cell_ps ->
  Linear env "output_layer" n_rnn n_out true = inr out_ps ->
  Model._set_weights_fused hp (cell_ps ++ out_ps) = inr a ->
  (0 <= n_rnn)%Z /\ n_out = n_rnn /\ (n_in + n_rnn = Z.of_nat g * n_rnn)%Z.
Proof.
  intros Hin Hrnn Hout Hc Ho Hs.
  apply RNNCellBase_shape in Hc. destruct Hc as (Hi0 & Hh0 & ->).
  apply Linear_shape in Ho. destruct Ho as (_ & Ho0 & ->).
  unfold Model._set_weights_fused in Hs. rewrite Hin, Hrnn, Hout in Hs.
  cbn [bind] in Hs. unfold lib_param in Hs. simpl app in Hs.
  cbn [Model.assign_fused] in Hs. eval_contains_in Hs. cbv iota in Hs.
  unfold rows_from, rows_to in Hs. cbn [shape bind ret] in Hs.
  cbn [bind ret Model.w_out Model.w_rec Model.w_in Model.b_rec Model.b_out
       Model.w_sen_in Model.b_in Model.w_rule Model.no_attrs] in Hs.
  inv_bind Hs. inv_bind Hs. inv_bind Hs. clear Hs.
  repeat match goal with
         | Hc : Model.check_shape _ _ (Some (Tensor _ _)) _ _ = inr _ |- _ =>
             apply check_shape_ok in Hc; destruct Hc as (tt' & Ht & Hc);
             injection Ht as <-; cbn [shape] in Hc; apply shape_is_2 in Hc
         end.
  split; [exact Hh0|]. lia.
Qed.

Lemma build_fused_library_cell (env : module_env) (rng : RandomState) (hp : hparams)
    (name : string) (g : nat) (cell : Model.rnn_cell_t)
    (ps : list (string * tensor R)) :
  hp !! "rnn_type" = Some (HStr name) ->
  (name = "LSTM" /\ g = 4%nat) \/ (name = "GRU" /\ g = 3%nat) ->
  Model._build_fused env rng hp = inr (cell, ps) ->
  exists n_in n_rnn n_out cell_ps out_ps,
    get_int hp "n_input" = inr n_in /\ get_int hp "n_rnn" = inr n_rnn /\
    get_int hp "n_output" = inr n_out /\
    RNNCellBase env "rnn_cell" g n_in n_rnn = inr cell_ps /\
    Linear env "output_layer" n_rnn n_out true = inr out_ps /\
    ps = cell_ps ++ out_ps.
Proof.
  intros Htype Hname H. unfold Model._build_fused in H.
  inv_bind H. rename z into n_in. inv_bind H. rename z into n_rnn.
  inv_bind H. rename z into n_out. inv_bind H. inv_bind H.
  unfold getitem at 1 in H. rewrite Htype in H. cbn [bind ret] in H.
  exists n_in, n_rnn, n_out.
  destruct Hname as [[-> ->]|[-> ->]].
  - change (is_str (HStr "LSTM") "LeakyRNN") with false in H.
    change (is_str (HStr "LSTM") "LeakyGRU") with false in H.
    change (is_str (HStr "LSTM") "LSTM") with true in H. cbv iota in H.
    inv_bind H. destruct p as [cell' cps]. inv_bind E4. injection E4 as <- <-.
    inv_bind H. injection H as <- <-.
    eexists _, _. repeat (split; [first [eassumption | reflexivity]|]). reflexivity.
  - change (is_str (HStr "GRU") "LeakyRNN") with false in H.
    change (is_str (HStr "GRU") "LeakyGRU") with false in H.
    change (is_str (HStr "GRU") "LSTM") with false in H.
    change (is_str (HStr "GRU") "GRU") with true in H. cbv iota in H.
    inv_bind H. destruct p as [cell' cps]. inv_bind E4. injection E4 as <- <-.
    inv_bind H. injection H as <- <-.
    eexists _, _. repeat (split; [first [eassumption | reflexivity]|]). reflexivity.
Qed.

(** X20. What a fused network with a library cell needs to be constructed.
    [_set_weights_fused] slices the last weight of the cell, [weight_hh] of
    shape (g * n_rnn, n_rnn), at row [n_input] and checks the slices against
    (n_rnn, n_rnn) and (n_input, n_rnn), and it compares the output weight,
    stored as (n_output, n_rnn), with (n_rnn, n_output).  Whenever the
    constructor returns a network, [n_output = n_rnn] and
    [n_input = 3 * n_rnn] for ['LSTM'] (four gate blocks) and
    [n_input = 2 * n_rnn] for ['GRU'] (three). *)
Theorem library_cell_construction_requires (env : module_env) (model_dir : string)
    (hp : hparams) (sigma_rec dt : option Q) (m : Model.t) (ev : list event)
    (name : string) :
  Model.__init__ env model_dir (Some hp) sigma_rec dt = (inr m, ev) ->
  Model.use_separate_input hp = false ->
  hp !! "rnn_type" = Some (HStr name) -> name = "LSTM" \/ name = "GRU" ->
  exists n,
    (0 <= n)%Z /\ get_int hp "n_rnn" = inr n /\ get_int hp "n_output" = inr n /\
    get_int hp "n_input" = inr ((if String.eqb name "LSTM" then 3 else 2) * n)%Z.
Proof.
  intros H Hsep Htype Hname.
  apply init_inversion in H.
  destruct H as (seed & dt_v & tau & alpha & cell & ps & weights & a & reg & opt &
                 _ & _ & _ & _ & _ & Hbuild & _ & _).
  apply build_inversion in Hbuild. destruct Hbuild as (Hb & Hs & _).
  rewrite use_separate_configured, Hsep in Hb, Hs.
  set (g := if String.eqb name "LSTM" then 4%nat else 3%nat).
  assert (Hg : (name = "LSTM" /\ g = 4%nat) \/ (name = "GRU" /\ g = 3%nat))
    by (destruct Hname as [-> | ->]; [left | right]; split; reflexivity).
  destruct (build_fused_library_cell env _ _ name g cell ps
              ltac:(rewrite lookup_configured by congruence; exact Htype) Hg Hb)
    as (n_in & n_rnn & n_out & cell_ps & out_ps & Hi & Hr & Ho & Hc & Hl & ->).
  destruct (set_weights_fused_library_cell env _ g n_in n_rnn n_out cell_ps out_ps a
              Hi Hr Ho Hc Hl Hs) as (H0 & -> & Hsum).
  rewrite get_int_configured in Hi, Hr, Ho by congruence.
  exists n_rnn. split; [exact H0|]. split; [exact Hr|]. split; [exact Ho|].
  rewrite Hi. f_equal.
  destruct Hg as [[-> ->]|[-> ->]]; simpl; lia.
Qed.

Lemma init_lstm_6_2_2 :
  exists m ev,
    Model.__init__ example_env "model" (Some hp_lstm_6_2_2) None None = (inr m, ev).
Proof.
  assert (H : is_ok (fst (Model.__init__ example_env "model" (Some hp_lstm_6_2_2)
                            None None)) = true) by (vm_compute; reflexivity).
  destruct (Model.__init__ example_env "model" (Some hp_lstm_6_2_2) None None)
    as [[e|m] ev]; [discriminate H|].
  exists m, ev. reflexivity.
Qed.

Lemma library_cell_construction_requires_witness :
  exists n,
    (0 <= n)%Z /\ get_int hp_lstm_6_2_2 "n_rnn" = inr n /\
    get_int hp_lstm_6_2_2 "n_output" = inr n /\
    get_int hp_lstm_6_2_2 "n_input" = inr ((if String.eqb "LSTM" "LSTM" then 3 else 2) * n)%Z.
Proof.
  destruct init_lstm_6_2_2 as (m & ev & H).
  apply (library_cell_construction_requires example_env "model" hp_lstm_6_2_2
           None None m ev "LSTM" H).
  - reflexivity.
  - reflexivity.
  - left. reflexivity.
Defined.
(** *** The shape checks and the optimiser *)

Lemma shape_is_spec (s : list nat) (dims : list nat) :
  shape_is s (map Z.of_nat dims) = true <-> s = dims.
Proof.
  unfold shape_is. split; intros H.
  - apply bool_decide_eq_true_1 in H. revert dims H.
    induction s as [|x s IH]; intros [|d dims] H; try discriminate H; [reflexivity|].
    simpl in H. injection H as Hx Hs. apply Nat2Z.inj in Hx. subst.
    f_equal. apply IH. exact Hs.
  - apply bool_decide_eq_true_2. subst. reflexivity.
Qed.

(** X21. The layout the shape checks of [_set_weights_fused] accept.  On
    the four parameters of a fused leaky network the method returns exactly
    when the cell weight has one row per input and per recurrent unit,
    shape (n_input + n_rnn, n_rnn), and the output weight has shape
    (n_rnn, n_output); it then sets [w_in] to the first [n_input] rows of
    the cell weight, [w_rec] to the others, and the biases and the output
    weight to the parameters themselves. *)
Theorem set_weights_fused_accepts_row_layout (hp : hparams) (n_in n_rnn n_out : nat)
    (W b Wo bo : tensor R) :
  get_int hp "n_input" = inr (Z.of_nat n_in) ->
  get_int hp "n_rnn" = inr (Z.of_nat n_rnn) ->
  get_int hp "n_output" = inr (Z.of_nat n_out) ->
  let ps := [("rnn_cell.weight", W); ("rnn_cell.bias", b);
             ("output_layer.weight", Wo); ("output_layer.bias", bo)] in
  (shape W = [(n_in + n_rnn)%nat; n_rnn] -> shape Wo = [n_rnn; n_out] ->
   exists a wr wi,
     Model._set_weights_fused hp ps = inr a /\
     Model.w_rec a = Some wr /\ Model.w_in a = Some wi /\
     Model.w_out a = Some Wo /\ Model.b_rec a = Some b /\ Model.b_out a = Some bo /\
     shape wr = [n_rnn; n_rnn] /\ shape wi = [n_in; n_rnn] /\
     (forall i j, val wr [i; j] = val W [(i + n_in)%nat; j]) /\
     (forall i j, val wi [i; j] = val W [i; j])) /\
  (forall a, Model._set_weights_fused hp ps = inr a ->
             shape W = [(n_in + n_rnn)%nat; n_rnn] /\ shape Wo = [n_rnn; n_out]).
Proof.
  intros Hin Hrnn Hout ps. subst ps.
  unfold Model._set_weights_fused. rewrite Hin, Hrnn, Hout. cbn [bind].
  cbn [Model.assign_fused]. eval_contains. cbv iota.
  rewrite Nat2Z.id. unfold rows_from, rows_to.
  split.
  - intros HW HWo. rewrite HW.
    cbn [bind ret Model.w_out Model.w_rec Model.w_in Model.b_rec Model.b_out
         Model.w_sen_in Model.b_in Model.w_rule Model.no_attrs].
    unfold Model.check_shape. cbn [shape]. rewrite HWo.
    change [Z.of_nat n_rnn; Z.of_nat n_out] with (map Z.of_nat [n_rnn; n_out]).
    change [Z.of_nat n_rnn; Z.of_nat n_rnn] with (map Z.of_nat [n_rnn; n_rnn]).
    change [Z.of_nat n_in; Z.of_nat n_rnn] with (map Z.of_nat [n_in; n_rnn]).
    rewrite (proj2 (shape_is_spec [n_rnn; n_out] [n_rnn; n_out]) eq_refl).
    replace (n_in + n_rnn - n_in)%nat with n_rnn by lia.
    replace (Nat.min n_in (n_in + n_rnn)) with n_in by lia.
    rewrite (proj2 (shape_is_spec [n_rnn; n_rnn] [n_rnn; n_rnn]) eq_refl).
    rewrite (proj2 (shape_is_spec [n_in; n_rnn] [n_in; n_rnn]) eq_refl).
    cbn [bind ret].
    eexists _, _, _. split; [reflexivity|].
    cbn [Model.w_out Model.w_rec Model.w_in Model.b_rec Model.b_out shape val].
    repeat (split; [reflexivity|]). split; intros; reflexivity.
  - intros a H.
    destruct (shape W) as [|r [|c s]] eqn:HW; try discriminate H.
    cbn [bind ret Model.w_out Model.w_rec Model.w_in Model.b_rec Model.b_out
         Model.w_sen_in Model.b_in Model.w_rule Model.no_attrs] in H.
    inv_bind H. inv_bind H. inv_bind H. clear H.
    apply check_shape_ok in E. destruct E as (t1 & Ht1 & E). injection Ht1 as <-.
    apply check_shape_ok in E0. destruct E0 as (t2 & Ht2 & E0). injection Ht2 as <-.
    apply check_shape_ok in E1. destruct E1 as (t3 & Ht3 & E1). injection Ht3 as <-.
    cbn [shape] in E0, E1.
    change [Z.of_nat n_rnn; Z.of_nat n_out] with (map Z.of_nat [n_rnn; n_out]) in E.
    change [Z.of_nat n_rnn; Z.of_nat n_rnn] with (map Z.of_nat [n_rnn; n_rnn]) in E0.
    change [Z.of_nat n_in; Z.of_nat n_rnn] with (map Z.of_nat [n_in; n_rnn]) in E1.
    apply shape_is_spec in E, E0, E1.
    split; [|exact E].
    injection E0 as H1 H2 H3. injection E1 as H4 _ _. subst. f_equal. lia.
Qed.

Lemma set_weights_fused_accepts_row_layout_witness :
  let ps := [("rnn_cell.weight", Tensor [3%nat; 2%nat] (fun _ => 1));
             ("rnn_cell.bias", zeros [2%nat]);
             ("output_layer.weight", Tensor [2%nat; 2%nat] (fun _ => 1));
             ("output_layer.bias", zeros [2%nat])] in
  (shape (Tensor [3%nat; 2%nat] (fun _ => 1)) = [(1 + 2)%nat; 2%nat] ->
   shape (Tensor [2%nat; 2%nat] (fun _ => 1)) = [2%nat; 2%nat] ->
   exists a wr wi,
     Model._set_weights_fused hp_leaky_1_2_2 ps = inr a /\
     Model.w_rec a = Some wr /\ Model.w_in a = Some wi /\
     Model.w_out a = Some (Tensor [2%nat; 2%nat] (fun _ => 1)) /\
     Model.b_rec a = Some (zeros [2%nat]) /\ Model.b_out a = Some (zeros [2%nat]) /\
     shape wr = [2%nat; 2%nat] /\ shape wi = [1%nat; 2%nat] /\
     (forall i j, val wr [i; j] = val (Tensor [3%nat; 2%nat] (fun _ => 1)) [(i + 1)%nat; j]) /\
     (forall i j, val wi [i; j] = val (Tensor [3%nat; 2%nat] (fun _ => 1)) [i; j])) /\
  (forall a, Model._set_weights_fused hp_leaky_1_2_2 ps = inr a ->
             shape (Tensor [3%nat; 2%nat] (fun _ => 1)) = [(1 + 2)%nat; 2%nat] /\
             shape (Tensor [2%nat; 2%nat] (fun _ => 1)) = [2%nat; 2%nat]).
Proof.
  apply (set_weights_fused_accepts_row_layout hp_leaky_1_2_2 1 2 2
           (Tensor [3%nat; 2%nat] (fun _ => 1)) (zeros [2%nat])
           (Tensor [2%nat; 2%nat] (fun _ => 1)) (zeros [2%nat]));
    reflexivity.
Defined.

(** X22. The optimiser of a constructed network.  Without the key
    ['optimizer'], or with the value ['adam'], it is Adam with the learning
    rate of the configuration; with ['sgd'] it is SGD; with any other value
    the constructor returns a network without optimiser.  The learning rate
    of a network that has one is not negative. *)
Theorem init_optimizer (env : module_env) (model_dir : string)
    (hp : hparams) (sigma_rec dt : option Q) (m : Model.t) (ev : list event) :
  Model.__init__ env model_dir (Some hp) sigma_rec dt = (inr m, ev) ->
  match hp !! "optimizer" with
  | None =>
      exists lr, get_num hp "learning_rate" = inr lr /\ (0 <= lr)%Q /\
                 Model.optimizer m = Some (Model.Adam lr)
  | Some v =>
      if is_str v "adam" then
        exists lr, get_num hp "learning_rate" = inr lr /\ (0 <= lr)%Q /\
                   Model.optimizer m = Some (Model.Adam lr)
      else if is_str v "sgd" then
        exists lr, get_num hp "learning_rate" = inr lr /\ (0 <= lr)%Q /\
                   Model.optimizer m = Some (Model.SGD lr)
      else Model.optimizer m = None
  end.
Proof.
  intros H.
  apply init_inversion in H.
  destruct H as (seed & dt_v & tau & alpha & cell & ps & weights & a & reg & opt &
                 _ & _ & _ & _ & _ & Hbuild & -> & _).
  apply build_inversion in Hbuild. destruct Hbuild as (_ & _ & _ & _ & Hopt).
  cbn [Model.optimizer].
  unfold Model.make_optimizer, has_key in Hopt.
  rewrite lookup_configured in Hopt by congruence.
  rewrite get_num_configured in Hopt by congruence.
  assert (Hlr : forall mk,
            (do lr <- get_num hp "learning_rate";
             if Qle_bool 0 lr then ret (Some (mk lr))
             else raise (ValueError "Invalid learning rate")) = inr opt ->
            exists lr, get_num hp "learning_rate" = inr lr /\ (0 <= lr)%Q /\
                       opt = Some (mk lr)).
  { intros mk Hm. destruct (get_num hp "learning_rate") as [e|lr]; [discriminate Hm|].
    cbn [bind] in Hm. destruct (Qle_bool 0 lr) eqn:El; [|discriminate Hm].
    injection Hm as <-. exists lr. split; [reflexivity|].
    split; [apply Qle_bool_iff; exact El | reflexivity]. }
  destruct (hp !! "optimizer") as [v|].
  - cbn [negb] in Hopt.
    destruct (is_str v "adam"); [exact (Hlr _ Hopt)|].
    destruct (is_str v "sgd"); [exact (Hlr _ Hopt)|].
    injection Hopt as <-. reflexivity.
  - cbn [negb] in Hopt. exact (Hlr _ Hopt).
Qed.

Lemma init_optimizer_witness :
  exists m ev,
    Model.__init__ example_env "model" (Some hp_separate_2) None None = (inr m, ev) /\
    match hp_separate_2 !! "optimizer" with
    | None =>
        exists lr, get_num hp_separate_2 "learning_rate" = inr lr /\ (0 <= lr)%Q /\
                   Model.optimizer m = Some (Model.Adam lr)
    | Some v =>
        if is_str v "adam" then
          exists lr, get_num hp_separate_2 "learning_rate" = inr lr /\ (0 <= lr)%Q /\
                     Model.optimizer m = Some (Model.Adam lr)
        else if is_str v "sgd" then
          exists lr, get_num hp_separate_2 "learning_rate" = inr lr /\ (0 <= lr)%Q /\
                     Model.optimizer m = Some (Model.SGD lr)
        else Model.optimizer m = None
    end.
Proof.
  destruct init_separate_2 as (m & ev & H).
  exists m, ev. split; [exact H|].
  exact (init_optimizer example_env "model" hp_separate_2 None None m ev H).
Defined.

(** *** Registered names and the stored configuration *)


Lemma init_without_hp_when_tools_bound_witness :
  (load_hp tools_without_hp "model" = None ->
   Model.__init__ (env_with_tools tools_without_hp) "model" None None None =
   (inl (ValueError ("No hp found for model_dir " +:+ "model")),
    [EvLoadHp "model"])) /\
  (forall h, load_hp tools_without_hp "model" = Some h ->
   Model.__init__ (env_with_tools tools_without_hp) "model" None None None =
   (fst (Model.__init__ (env_with_tools tools_without_hp) "model" (Some h) None None),
    EvLoadHp "model" ::
    snd (Model.__init__ (env_with_tools tools_without_hp) "model" (Some h) None None))).
Proof.
  apply (init_without_hp_when_tools_bound (env_with_tools tools_without_hp)
           tools_without_hp "model" None None).
  reflexivity.
Defined.
(** ** Further properties of lesioning *)

Lemma with_parameters_same (m : Model.t) :
  Model.with_parameters m (Model.parameters m) = m.
Proof. destruct m; reflexivity. Qed.

Lemma norm_indices_error (n : nat) (l : list Z) (e : exn) :
  Model.norm_indices n l = inl e -> e = IndexError.
Proof.
  induction l as [|i l IH]; [discriminate|].
  simpl. unfold Model.norm_index.
  destruct ((0 <=? i)%Z && (i <? Z.of_nat n)%Z); cbn [bind ret].
  - destruct (Model.norm_indices n l) as [e'|rs]; [|discriminate].
    cbn [bind]. intros H. injection H as <-. apply IH. reflexivity.
  - destruct ((- Z.of_nat n <=? i)%Z && (i <? 0)%Z); cbn [bind ret raise].
    + destruct (Model.norm_indices n l) as [e'|rs]; [|discriminate].
      cbn [bind]. intros H. injection H as <-. apply IH. reflexivity.
    + intros H. injection H as <-. reflexivity.
Qed.

Lemma zero_rows_frame (idxs : list Z) (data : tensor R) :
  match Model.zero_rows idxs data with
  | inl e => e = IndexError
  | inr data' =>
      shape data' = shape data /\
      forall idx, val data' idx = val data idx \/ val data' idx = 0
  end.
Proof.
  unfold Model.zero_rows. destruct (shape data) as [|n [|c s]] eqn:Hs; try reflexivity.
  destruct (Model.norm_indices n idxs) as [e|rows] eqn:E.
  - cbn [bind]. exact (norm_indices_error n idxs e E).
  - cbn [bind ret shape val]. split; [reflexivity|].
    intros [|r rest]; [left; reflexivity|].
    destruct (Model.in_rows r rows); [right | left]; reflexivity.
Qed.

Lemma lesion_frame_refl (ps : list (string * tensor R)) : Forall2 lesion_frame ps ps.
Proof.
  induction ps as [|p ps IH]; constructor; [|exact IH].
  repeat split; try reflexivity. intros idx. left. reflexivity.
Qed.

Lemma lesion_loop_frame (n_input : Z) (units : list Z) (ps : list (string * tensor R)) :
  Forall2 lesion_frame ps (snd (Model.lesion_loop n_input units ps)) /\
  (forall e, fst (Model.lesion_loop n_input units ps) = inl e -> e = IndexError).
Proof.
  induction ps as [|[name data] ps [IH1 IH2]].
  - split; [constructor | intros e H; discriminate H].
  - cbn [Model.lesion_loop].
    set (step := if contains "weight" name
                 then if contains "output" name then Model.zero_rows units data
                      else if contains "rnn" name
                           then Model.zero_rows (map (Z.add n_input) units) data
                           else ret data
                 else ret data).
    assert (Hstep : match step with
                    | inl e => e = IndexError
                    | inr data' =>
                        shape data' = shape data /\
                        (contains "weight" name = false -> data' = data) /\
                        forall idx, val data' idx = val data idx \/ val data' idx = 0
                    end).
    { unfold step. destruct (contains "weight" name).
      - destruct (contains "output" name).
        + pose proof (zero_rows_frame units data) as Hz.
          destruct (Model.zero_rows units data); [exact Hz|].
          destruct Hz as [Hs Hv]. split; [exact Hs|]. split; [discriminate | exact Hv].
        + destruct (contains "rnn" name).
          * pose proof (zero_rows_frame (map (Z.add n_input) units) data) as Hz.
            destruct (Model.zero_rows (map (Z.add n_input) units) data); [exact Hz|].
            destruct Hz as [Hs Hv]. split; [exact Hs|]. split; [discriminate | exact Hv].
          * cbn [ret]. split; [reflexivity|]. split; [reflexivity|].
            intros idx. left. reflexivity.
      - cbn [ret]. split; [reflexivity|]. split; [reflexivity|].
        intros idx. left. reflexivity. }
    destruct step as [e|data'].
    + cbn [fst snd]. split.
      * apply lesion_frame_refl.
      * intros e' H. injection H as <-. exact Hstep.
    + destruct (Model.lesion_loop n_input units ps) as [r rest'].
      cbn [fst snd] in *. split; [|exact IH2].
      constructor; [|exact IH1].
      destruct Hstep as (Hs & Hw & Hv).
      unfold lesion_frame. cbn [fst snd]. repeat split; assumption.
Qed.

(** X25. What [lesion_units] never does.  Whatever the units are, and
    whether the call returns or raises, the network afterwards differs from
    the one before in its parameters only, and there every name and shape
    is kept, parameters whose name lacks ['weight'] are untouched, and an
    entry either keeps its value or is zero.  The call can only raise
    KeyError('n_input'), TypeError (an [n_input] that is no integer) or
    IndexError, and it prints only when it returns with [verbose] set. *)
Theorem lesion_units_frame (m : Model.t) (units : Model.units_arg) (verbose : bool) :
  exists r ps' out,
    Model.lesion_units m units verbose = (r, Model.with_parameters m ps', out) /\
    Forall2 lesion_frame (Model.parameters m) ps' /\
    (forall e, r = inl e -> e = KeyError "n_input" \/ e = TypeError \/ e = IndexError) /\
    (out <> [] -> r = inr tt /\ verbose = true).
Proof.
  assert (Hint : forall e, get_int (Model.hp m) "n_input" = inl e ->
                           e = KeyError "n_input" \/ e = TypeError).
  { intros e. unfold get_int, getitem.
    destruct (Model.hp m !! "n_input") as [[z|q|b|s]|]; cbn; intros H;
      try discriminate H; injection H as <-; tauto. }
  assert (Hnone : exists r ps' out,
            (inr tt : res unit, m, [] : list event)
            = (r, Model.with_parameters m ps', out) /\
            Forall2 lesion_frame (Model.parameters m) ps' /\
            (forall e, r = inl e ->
                       e = KeyError "n_input" \/ e = TypeError \/ e = IndexError) /\
            (out <> [] -> r = inr tt /\ verbose = true)).
  { exists (inr tt), (Model.parameters m), [].
    rewrite with_parameters_same. split; [reflexivity|].
    split; [apply lesion_frame_refl|]. split; [intros e H; discriminate H|].
    intros H. contradiction. }
  assert (Hlist : forall us,
            exists r ps' out,
              match get_int (Model.hp m) "n_input" with
              | inl e => (inl e, m, [])
              | inr n_input =>
                  let '(r, ps) := Model.lesion_loop n_input us (Model.parameters m) in
                  match r with
                  | inl e => (inl e, Model.with_parameters m ps, [])
                  | inr _ =>
                      (ret tt, Model.with_parameters m ps,
                       if verbose then [EvPrint "Lesioned units:"; EvPrintUnits us] else [])
                  end
              end = (r, Model.with_parameters m ps', out) /\
              Forall2 lesion_frame (Model.parameters m) ps' /\
              (forall e, r = inl e ->
                         e = KeyError "n_input" \/ e = TypeError \/ e = IndexError) /\
              (out <> [] -> r = inr tt /\ verbose = true)).
  { intros us. destruct (get_int (Model.hp m) "n_input") as [e|n_input] eqn:En.
    - exists (inl e), (Model.parameters m), [].
      rewrite with_parameters_same. split; [reflexivity|].
      split; [apply lesion_frame_refl|]. split.
      + intros e' H. injection H as <-. destruct (Hint e eq_refl); tauto.
      + intros H. contradiction.
    - destruct (lesion_loop_frame n_input us (Model.parameters m)) as [Hf He].
      destruct (Model.lesion_loop n_input us (Model.parameters m)) as [[e|[]] ps].
      + exists (inl e), ps, []. split; [reflexivity|]. split; [exact Hf|]. split.
        * intros e' H. injection H as <-. right. right. apply He. reflexivity.
        * intros H. contradiction.
      + eexists (inr tt), ps, _. split; [reflexivity|]. split; [exact Hf|]. split.
        * intros e H. discriminate H.
        * intros H. split; [reflexivity|]. destruct verbose; [reflexivity | contradiction]. }
  destruct units as [|i|l]; [exact Hnone | exact (Hlist [i]) | exact (Hlist l)].
Qed.

Lemma lesioned_dec (offset : Z) (units : list Z) (n r : nat) :
  lesioned offset units n r \/ ~ lesioned offset units n r.
Proof.
  unfold lesioned. induction units as [|i units IH].
  - right. intros (i & [] & _).
  - destruct (Nat.eq_dec r (row_of n (offset + i))) as [E|E].
    + left. exists i. split; [left; reflexivity | exact E].
    + destruct IH as [(j & Hj & Hr)|Hn].
      * left. exists j. split; [right; exact Hj | exact Hr].
      * right. intros (j & [<-|Hj] & Hr); [contradiction|].
        apply Hn. exists j. split; assumption.
Qed.

Lemma lesion_post_ready (n_input : Z) (units : list Z) (p p' : string * tensor R) :
  lesion_ready n_input units p -> lesion_post n_input units p p' ->
  lesion_ready n_input units p'.
Proof.
  intros Hr (Hn & Hs & _). unfold lesion_ready in *. rewrite Hn, Hs. exact Hr.
Qed.

Lemma lesion_post_twice (n_input : Z) (units : list Z) (p p1 p2 : string * tensor R) :
  lesion_ready n_input units p ->
  lesion_post n_input units p p1 -> lesion_post n_input units p1 p2 ->
  same_entries p1 p2.
Proof.
  intros Hr (Hn1 & Hs1 & Ho1 & Hr1 & He1) (Hn2 & Hs2 & Ho2 & Hr2 & He2).
  unfold same_entries. split; [exact Hn2|]. split; [exact Hs2|].
  intros idx Hidx. rewrite Hn1 in Ho2, Hr2, He2. rewrite Hs1 in Ho2, Hr2.
  unfold lesion_ready in Hr.
  destruct (contains "weight" (fst p)) eqn:Hw.
  - destruct (Hr eq_refl) as [Hout Hrnn].
    destruct (contains "output" (fst p)) eqn:Hob.
    + destruct (Hout eq_refl) as (_ & n & c & s & Hsh & _).
      rewrite Hs1, Hsh in Hidx. inversion Hidx as [|r ? rest ? _ _]; subst.
      destruct (Ho1 eq_refl eq_refl r rest) as [Hz1 Hk1].
      destruct (Ho2 eq_refl eq_refl r rest) as [Hz2 Hk2].
      destruct (lesioned_dec 0 units (hd 0%nat (shape (snd p))) r) as [L|L].
      * rewrite (Hz1 L), (Hz2 L). reflexivity.
      * exact (Hk2 L).
    + destruct (contains "rnn" (fst p)) eqn:Hrb.
      * destruct (Hrnn eq_refl) as (_ & n & c & s & Hsh & _).
        rewrite Hs1, Hsh in Hidx. inversion Hidx as [|r ? rest ? _ _]; subst.
        destruct (Hr1 eq_refl eq_refl r rest) as [Hz1 Hk1].
        destruct (Hr2 eq_refl eq_refl r rest) as [Hz2 Hk2].
        destruct (lesioned_dec n_input units (hd 0%nat (shape (snd p))) r) as [L|L].
        -- rewrite (Hz1 L), (Hz2 L). reflexivity.
        -- exact (Hk2 L).
      * rewrite (He2 (or_intror (conj eq_refl eq_refl))). reflexivity.
  - rewrite (He2 (or_introl eq_refl)). reflexivity.
Qed.

(** X26. Lesioning is idempotent.  When the rows of the units exist, a
    second call with the same units returns as the first did and leaves
    every parameter with the entries the first call gave it. *)
Theorem lesion_units_idempotent
    (m : Model.t) (units : list Z) (n_input : Z) (verbose : bool) :
  get_int (Model.hp m) "n_input" = inr n_input ->
  Forall (lesion_ready n_input units) (Model.parameters m) ->
  exists ps1 ps2 out,
    Model.lesion_units m (Model.UnitsList units) verbose
    = (inr tt, Model.with_parameters m ps1, out) /\
    Model.lesion_units (Model.with_parameters m ps1) (Model.UnitsList units) verbose
    = (inr tt, Model.with_parameters (Model.with_parameters m ps1) ps2, out) /\
    Forall2 same_entries ps1 ps2.
Proof.
  intros Hn Hready.
  destruct (lesion_loop_spec n_input units (Model.parameters m) Hready)
    as (ps1 & Hloop1 & Hpost1).
  assert (Hready1 : Forall (lesion_ready n_input units) ps1).
  { clear Hloop1. revert Hready. induction Hpost1 as [|p p1 ps ps1' Hp _ IH]; intros Hr.
    - constructor.
    - inversion Hr; subst. constructor.
      + eapply lesion_post_ready; eassumption.
      + apply IH. assumption. }
  destruct (lesion_loop_spec n_input units ps1 Hready1) as (ps2 & Hloop2 & Hpost2).
  exists ps1, ps2. eexists. split; [|split].
  - unfold Model.lesion_units. rewrite Hn, Hloop1. reflexivity.
  - unfold Model.lesion_units. cbn [Model.with_parameters Model.hp Model.parameters].
    rewrite Hn, Hloop2. reflexivity.
  - clear Hloop1 Hloop2 Hready1. revert ps2 Hpost2 Hready.
    induction Hpost1 as [|p p1 ps ps1' Hp _ IH]; intros ps2 Hpost2 Hr.
    + inversion Hpost2; subst. constructor.
    + inversion Hpost2 as [|? p2 ? ps2' Hp2 Hrest2]; subst.
      inversion Hr; subst. constructor.
      * eapply lesion_post_twice; eassumption.
      * apply IH; assumption.
Qed.

Lemma lesion_units_idempotent_witness :
  exists ps1 ps2 out,
    Model.lesion_units lesion_example (Model.UnitsList [0%Z; (-1)%Z]) true
    = (inr tt, Model.with_parameters lesion_example ps1, out) /\
    Model.lesion_units (Model.with_parameters lesion_example ps1)
                       (Model.UnitsList [0%Z; (-1)%Z]) true
    = (inr tt, Model.with_parameters (Model.with_parameters lesion_example ps1) ps2, out) /\
    Forall2 same_entries ps1 ps2.
Proof.
  apply (lesion_units_idempotent lesion_example [0%Z; (-1)%Z] 1 true).
  - reflexivity.
  - exact lesion_example_ready.
Defined.





(** ** [f_sub_mean] *)

Section SubMean.

Import Statespace.












End SubMean.

(** ** Further properties of [f_sub_mean] *)

Section SubMeanMore.

Import Statespace.



(** X28. The guard and the empty case of [f_sub_mean].  An array that is
    not three-dimensional fails the assertion and is left as it was; an
    array whose axis 1 is empty is returned unchanged, since the loop over
    that axis has no iteration. *)
Theorem f_sub_mean_guards (st : store) (x : nat) (a : tensor fval) :
  st !! x = Some a ->
  (length (shape a) <> 3%nat -> f_sub_mean x st = (inl AssertionError, st)) /\
  (forall n0 n2, shape a = [n0; 0%nat; n2] -> f_sub_mean x st = (inr x, st)).
Proof.
  intros Hx. unfold f_sub_mean. rewrite Hx. split.
  - intros Hn. rewrite (proj2 (Nat.eqb_neq _ _) Hn). reflexivity.
  - intros n0 n2 Hs. rewrite Hs. reflexivity.
Qed.

Lemma f_sub_mean_guards_witness :
  (length (shape (Tensor [2%nat; 2%nat] (fun _ => Fin 1))) <> 3%nat ->
   f_sub_mean 0 {[ 0%nat := Tensor [2%nat; 2%nat] (fun _ => Fin 1) ]}
   = (inl AssertionError, {[ 0%nat := Tensor [2%nat; 2%nat] (fun _ => Fin 1) ]})) /\
  (forall n0 n2, shape (Tensor [2%nat; 2%nat] (fun _ => Fin 1)) = [n0; 0%nat; n2] ->
   f_sub_mean 0 {[ 0%nat := Tensor [2%nat; 2%nat] (fun _ => Fin 1) ]}
   = (inr 0%nat, {[ 0%nat := Tensor [2%nat; 2%nat] (fun _ => Fin 1) ]})).
Proof.
  apply (f_sub_mean_guards {[ 0%nat := Tensor [2%nat; 2%nat] (fun _ => Fin 1) ]} 0
           (Tensor [2%nat; 2%nat] (fun _ => Fin 1))).
  reflexivity.
Defined.





End SubMeanMore.
